(* ===== verification/_CoqProject ===== *)
-Q . S2P
Prelude.v
PyStr.v
Regex.v
Prompt.v
Sanitize.v
JsEscape.v
Html.v
Humanizer.v
Calls.v
App.v
Session.v
CopyButton.v
