(* ===== verification/Prelude.v ===== *)
(** * Text Humanizer: a verification development for [src/app.py]

    The program is a single-page Streamlit tool.  A user types text, picks a
    style, a temperature and a model; the tool builds a prompt from a fixed
    style template, sends a two-message request to a hosted chat model, strips
    [<think>...</think>] spans from the answer and shows the result with a
    button that copies it to the clipboard.

    ** Parts of the program and where they are modelled

    - [Prelude] (this file): what the other files share.  The [result] type
      for a value or a raised exception, the state-and-exception monad [prog]
      in which the methods of the class are written (a Python method mutates
      [self] and may raise; a mutation made before the [raise] stays), its
      laws, [try_except], and the list functions [drop_while], [take_while]
      and [drop_while_end] on which the string library is built.
    - [PyStr]: Python's [str] as a list of code points, with the built-in
      methods the program calls: [str.strip] (lines 117 and 154), [str.split]
      without argument (lines 151 and 168), [str.find]-like search and
      [str.startswith].  Whitespace is CPython's [Py_UNICODE_ISSPACE].
      ([str.replace], used once, is in [JsEscape].)
    - [Regex]: the fragment of Python's [re] the program uses.  A regular
      expression type (literal, dot, sequence, lazy and greedy star), its
      language, the backtracking matcher with ordered choice, and the
      [re.sub] loop with the engine's rule for empty matches.
    - [Sanitize]: line 117, [re.sub(r"<think>.*?</think>", "", s, DOTALL)]
      followed by [.strip()].  The pattern, the sanitizer built from [Regex]
      and [PyStr], a direct scanner, and the proof that both agree.
    - [Prompt]: [create_humanization_prompt] (lines 36-88): the dictionary
      of six style templates, the lookup of line 82 as written
      ([base_prompt]: the subscript for the default, which can raise, then
      [get]), and the f-string that frames the user's text; [resolve] is
      the total resolver of the specification, which line 82 is proved to
      compute;
      [create_humanization_prompt_call] binds the default of [style].
    - [Humanizer]: the class [TextHumanizerRAG] (lines 17-121): its fields as
      a record, [__init__], [update_model_settings] and [humanize_text] as
      programs of [prog] over the object and the remote service;
      [humanize_text_call] binds the defaults of line 90.  The remote
      service (the [ChatGroq] constructor and [invoke]) is an interface, the
      class [Remote]; every theorem holds for every implementation of it,
      and a test double instantiates it for the witnesses; [logged] wraps
      an implementation so that it records the calls it receives.
    - [Calls]: a caller that makes several calls of [humanize_text] on one
      object ([humanize_all]), and the client cache the class is meant to
      be ([cache_trace]).
    - [JsEscape]: the copy button (lines 170-210).  [replace] is
      [str.replace]; [js_escape] the chain of four calls of line 193;
      [copy_html] the f-string of lines 172-209, character for character.
      The other side of line 193 is the browser: [js_template] reads a
      JavaScript template literal as ECMAScript defines it (ordinary
      characters, every escape sequence, line terminators, the errors), so
      that what the button copies can be compared with the text.
    - [Html]: the script element of the copy button (lines 190-208) as the
      HTML parser of the browser finds it.  [tokenize] is the tokenizer of
      the HTML standard inside a script element (script data, escaped and
      double escaped states); [script_of] is the script element of a
      document, its text being what the JavaScript engine is given.
    - [App]: the script from the top (the page configuration of lines
      9-15, then [main], lines 123-210 and 212-213).  The values the
      widgets return are the [inputs] of a run; a run is a program over the page rendered so far, the attribute
      [humanized_text] of [st.session_state] and the world of the remote
      service; [sidebar], [rag_system_of], [column1] and [column2] are the
      four blocks of [main] in their order.  A session is a sequence of
      runs that share the session state and the world ([step],
      [reachable]).
    - [Session]: what a run promises and what a session does.  [run_spec]
      is the contract of a run, one rule for each [outcome] (the humanizer
      could not be built, nothing was asked, a blank text was refused, a
      request was made), with the page ([page_of]) and the session state
      ([kept_after]) of each; [after_all] runs a list of inputs from a
      session state, and [session_calls] is the trace of the calls such a
      session makes to the remote service.
    - [CopyButton]: the parts together, from the answer of the model to
      the clipboard: [copied] is what a press of the button copies, read
      from the script element of the document on the page.

    ** How state and effects are modelled

    A method of the class is a function from the state before the call (the
    object's fields and the state of the remote world) to a [result] and the
    state after it.  An exception is the [Err] case of [result]; the
    [try]/[except Exception] of [humanize_text] is [try_except].  The
    temperature is a binary64 float ([PrimFloat]), compared as Python
    compares floats (so [nan] differs from itself).  The page is the list
    of the elements rendered, each with the place it was rendered in; a
    widget renders its element and its value comes from [inputs], which is
    how Streamlit runs a script: from the top, once per interaction, with
    the values of the widgets as they are in the browser.  [valid] says
    what the widgets can return (an option of a selector, a temperature
    between the ends of the slider).

    ** What the theorems show

    Each file ends with its main results; the lemmas before them are the
    library the results are proved from.

    - [PyStr]: [strip] is characterised by its result
      ([strip_characterised]) and idempotent ([strip_idempotent]); [split]
      yields non-empty words without whitespace that together are the
      non-whitespace characters ([split_words_wellformed]) and reads back
      joined words ([split_roundtrip]); the guard of line 154 and the count
      of line 151 agree ([guard_iff_words]).
    - [Regex]: the matcher decides the language of the expression
      ([match_here_correct], from [match_here_sound] and
      [match_here_complete]); the lazy star tries the shortest rest first
      and the greedy star the longest ([lazy_star_shortest]); [re_sub]
      satisfies the loop equation of the engine ([re_sub_leftmost]) and its
      fuel is never exhausted ([re_sub_fuel_enough]).
    - [Sanitize]: the pattern string parses to the modelled pattern, whose
      language is the opening marker, anything, the closing marker
      ([think_pattern_language]); the sanitizer equals a direct scanner
      ([remove_think_is_scan]); it removes the leftmost shortest span and
      keeps the text before it ([think_span_removed]); its result has no
      outer whitespace and loses nothing else ([clean_response_canonical]).
      The substitution removes spans, each up to the first closing
      marker, and nothing else ([remove_think_spans_only]).  A second pass
      changes nothing on results without a marker
      ([clean_response_idempotent_when]), and in general exactly when no
      complete span is left ([clean_response_idempotent_iff]); it removes
      more on a family of responses in which removing a span joins the
      pieces of an opening marker ([clean_response_idempotence_fails]); an
      unclosed span is kept ([unclosed_think_kept]).
    - [Prompt]: the method never raises and returns template, frame and
      text ([create_prompt_shape]); line 82 never raises and returns the
      template of "conversational" exactly for that key and for the
      strings that are no key ([resolve_fallback]); the six keys resolve
      to their own templates, which
      are distinct and non-empty ([templates_distinct_nonempty],
      [resolve_own_template]); the text can be read back from the prompt
      ([create_prompt_text_recoverable]).
    - [Humanizer]: [humanize_text] never raises ([humanize_text_total]) and
      implements the six-rule contract [humanize_spec]
      ([humanize_text_refines]); it returns the cleaned answer or
      ["Error: " ++ str(e)] ([humanize_text_output]); it makes at most one
      constructor call and one invocation, with the system message and the
      prompt ([humanize_text_trace]), at the requested temperature when the
      object is coherent ([humanize_text_temperature]); recording the calls
      changes nothing else ([logged_refines]); coherence of client and
      fields is established by [init] ([init_establishes]), preserved while
      the constructor returns ([humanize_text_keeps_coherent]) and lost when
      it raises, after which the old client answers
      ([stale_client_after_failure]); key and model never change
      ([humanize_text_frame]); a call with the defaults on a new object
      uses the client [__init__] built ([humanize_text_defaults]).
    - [Calls]: with a constructor that returns, the calls of a sequence
      of [humanize_text] on a coherent object are exactly those of the
      reference cache, the object stays coherent and every call is
      answered at its temperature ([client_reuse]).
    - [JsEscape]: the chain of [replace] calls equals a one-pass escaper
      ([js_escape_esc]) and [replace] is a left-to-right scan
      ([replace_equations]); the escaped text is at most twice as long
      ([js_escape_length]); the browser reads the literal of the script back
      as the text, and goes on with the rest of the script, exactly when
      the text holds no backslash ([copy_exact_iff]): the chain does not
      escape the backslash, and [copy_html_backslash] shows a text copied
      wrongly, a script that does not parse and a literal that ends early.
    - [Html]: the tokenizer neither loses nor invents a character
      ([tokenize_conserves]); for a text without NUL and backslash, in
      which no [<] stands before [/] or [!], the script element is the
      script as written and its literal is read back as the text
      ([script_intact]); a text that holds [</script>], in any case of
      letters, ends the element inside the literal, so that the script
      does not parse and the rest of the text becomes markup of the
      document ([script_injection]); [script_never_closed] shows a text
      after which the element is never closed.
    - [App]: a run never raises and configures the page first
      ([main_total]); it makes at most the two constructor calls and one
      invocation, in this order, and no invocation without a click on a
      text that is not blank ([main_calls]); such a click ends with the outcome of the request
      kept and shown ([click_shows_result]), a click on a blank text with
      the warning and nothing changed ([blank_click_warns]); in every
      reachable session the kept text is a cleaned answer or an error text
      ([session_invariant]); a script on the page is the copy script of the
      text kept, which the result area shows ([script_on_page]).
    - [Session]: a run with valid inputs has exactly one outcome of its
      contract and is as the outcome says ([rerun_refines]), and a session
      has the outcomes of its runs ([session_refines]); the reachable
      sessions of [App] are the sessions of valid inputs
      ([reachable_session]); recording the calls changes nothing else
      ([session_logged]); a session of [n] runs makes between [n] and
      [2 n] constructor calls and at most one invocation for each click on
      a text that is not blank ([session_calls_bounds]); every invocation
      directly follows the constructor call of the client it invokes, in
      the same run, so that the stale client of
      [stale_client_after_failure] is out of reach of the page
      ([invoke_follows_new]); the answer to a request stays in the session
      state until the next request ([last_answer_kept]).
    - [CopyButton]: on the page of a run the button copies the text the
      page shows if and only if the text holds no backslash, for a text
      without NUL in which no [<] stands before [/] or [!]
      ([copy_button_exact]); when the cleaned answer of the model holds an
      end tag of a script element, the script element on the page ends
      there, the rest of the answer is markup of the document and the
      button copies nothing ([answer_injects], run on a hostile model in
      [hostile_session]).

    ** Bounds and fuel

    [Regex.sub_go] recurses on fuel.  Each iteration either consumes a
    character or turns an empty match into the obligation to advance, so
    the measure [2 * length s + (if must_advance then 0 else 1)] decreases
    and [2 * length s + 2] iterations are enough: [Regex.sub_go_fuel] shows
    that any two fuels above the measure give the same result.  The
    matcher's star recurses on the length of the remaining input, which
    each iteration must shorten, as in the engine ([Regex.star_loop_fuel]).
    Code points are unbounded naturals ([N]); the program never does
    arithmetic on them.  [JsEscape.replace_go] and [JsEscape.js_template]
    are structural on the text: the first carries the number of characters
    of an occurrence still to skip instead of jumping, the second reads the
    digits of [\u{...}] by a nested structural loop.  The value of
    [\u{...}] is bounded by the last code point, 1114111, as in the
    grammar.  [Html.tokenize] takes one step of [Html.tokenizer_step] per
    character: a state that gives a character back to another state is
    written as a call of that state's function, never as a second pass over
    the character.  The temperature is a binary64 float and the ends of the
    slider are the floats Python reads from [0.1] and [1.0].  A session is
    a finite sequence of runs of any length; nothing bounds it, and
    [Session.after_all] and [Session.session_calls] recurse on the list of
    its inputs.

    ** What is not modelled

    - The remote model: it appears only as the interface [Remote], an
      exception only as the interface [PyExn].  Nothing is assumed of what
      the service answers.  [Remote.groq_invoke] is [invoke(...).content]
      when that is a [str]; a content that is no [str] makes [re.sub] of
      line 117 raise [TypeError] inside the same [try], and counts as an
      exception of the invocation.  A client is the record of the
      arguments of its constructor, the only thing of it the program
      determines.
    - Exits that are no [Exception] ([KeyboardInterrupt], [SystemExit],
      [asyncio.CancelledError]): the handlers of lines 120 and 141 catch
      [Exception], and the type of exceptions of the development holds its
      instances only.  "Never raises" in [humanize_text_total] and
      [main_total] means that no [Exception] leaves the function.
    - The libraries as such: [Regex], [PyStr], [JsEscape.js_template] and
      [Html.tokenize] are models of CPython's [re] and [str], of the
      ECMAScript template literal and of the HTML tokenizer, written from
      their documentation and standards for the calls and the text of the
      lines named; they are not code of the repository.
    - Streamlit itself: the layout calls that render nothing the program
      reads ([st.columns], [st.container]), what [st.set_page_config] does
      to the page beyond being its first call, the way the browser keeps
      widget values between
      runs, and the widget state kept under [key="humanized_output"].  The
      values of the widgets are inputs of a run.
    - The browser beyond the script element and the template literal: the
      HTML tokenizer outside a script element (the markup of lines 172-189
      is fixed text, and the markup a text can inject is not interpreted),
      the attributes an end tag may carry, the rest of the script
      ([navigator.clipboard], the DOM), UTF-16 code units.
    - Imports that are never used ([typing.List], [time]). *)

From stdpp Require Export base tactics numbers option list.

Set Default Proof Using "Type".
#[export] Set Warnings "-clear-no-such-hyp".

(** ** Results: a value or a raised exception *)

Inductive result (E A : Type) : Type :=
| Ok (a : A)
| Err (e : E).
Global Arguments Ok {E A} a.
Global Arguments Err {E A} e.

Definition is_ok {E A} (r : result E A) : bool :=
  match r with Ok _ => true | Err _ => false end.

Definition result_bind {E A B} (f : A → result E B) (r : result E A) : result E B :=
  match r with Ok a => f a | Err e => Err e end.

Definition of_option {E A} (e : E) (o : option A) : result E A :=
  match o with Some a => Ok a | None => Err e end.

#[export] Instance result_ret {E} : MRet (result E) := λ A, Ok.
#[export] Instance result_mbind {E} : MBind (result E) := λ A B, result_bind.
#[export] Instance result_fmap {E} : FMap (result E) := λ A B f,
  result_bind (λ a, Ok (f a)).

#[export] Instance result_eq_dec {E A} `{EqDecision E, EqDecision A} :
  EqDecision (result E A).
Proof. solve_decision. Defined.

(** ** Programs: state passing with exceptions

    [prog S E A] is a computation that reads and writes a state [S] and ends
    with a value of [A] or raises an [E].  The state after a raise is the
    state at the raise: Python does not roll back assignments. *)

Definition prog (S E A : Type) : Type := S → result E A * S.

Section prog.
Context {S E : Type}.

Definition prog_ret {A} (a : A) : prog S E A := λ s, (Ok a, s).

Definition prog_bind {A B} (f : A → prog S E B) (m : prog S E A) : prog S E B :=
  λ s, match m s with
       | (Ok a, s') => f a s'
       | (Err e, s') => (Err e, s')
       end.

Definition raise {A} (e : E) : prog S E A := λ s, (Err e, s).

Definition get : prog S E S := λ s, (Ok s, s).
Definition put (s : S) : prog S E () := λ _, (Ok (), s).
Definition gets {A} (f : S → A) : prog S E A := λ s, (Ok (f s), s).
Definition modify (f : S → S) : prog S E () := λ s, (Ok (), f s).

(** [lift r] raises what [r] raised, and leaves the state alone. *)
Definition lift {A} (r : result E A) : prog S E A := λ s, (r, s).

(** [try: m except Exception as e: h]: the value of [m], or the handler's
    on an exception, run in the state the exception left.  Every value of
    [E] is caught: [E] holds the instances of [Exception] (see
    [PyStr.PyExn]). *)
Definition try_except {A} (m : prog S E A) (h : E → prog S E A) : prog S E A :=
  λ s, match m s with
       | (Ok a, s') => (Ok a, s')
       | (Err e, s') => h e s'
       end.

(** A program never raises when every run ends in [Ok]. *)
Definition no_raise {A} (m : prog S E A) : Prop := ∀ s, is_ok (m s).1 = true.

End prog.

#[export] Instance prog_mret {S E} : MRet (prog S E) := λ A, prog_ret.
#[export] Instance prog_mbind {S E} : MBind (prog S E) := λ A B, prog_bind.

(** ** The monad laws, and the laws of [try_except] *)

Section prog_laws.
Context {S E : Type}.
Implicit Types s : S.

Lemma prog_bind_ret_l {A B} (a : A) (f : A → prog S E B) s :
  (mret a ≫= f) s = f a s.
Proof. done. Qed.

Lemma prog_bind_ret_r {A} (m : prog S E A) s : (m ≫= mret) s = m s.
Proof.
  unfold mbind, prog_mbind, prog_bind. by destruct (m s) as [[a|e] s'].
Qed.

Lemma prog_bind_assoc {A B C} (m : prog S E A) (f : A → prog S E B)
    (g : B → prog S E C) s :
  ((m ≫= f) ≫= g) s = (m ≫= (λ a, f a ≫= g)) s.
Proof.
  unfold mbind, prog_mbind, prog_bind. by destruct (m s) as [[a|e] s'].
Qed.

Lemma prog_bind_raise {A B} (e : E) (f : A → prog S E B) s :
  (raise e ≫= f) s = (Err e, s).
Proof. done. Qed.

Lemma prog_bind_ok {A B} (m : prog S E A) (f : A → prog S E B) s a s' :
  m s = (Ok a, s') → (m ≫= f) s = f a s'.
Proof. unfold mbind, prog_mbind, prog_bind. by intros ->. Qed.

Lemma prog_bind_err {A B} (m : prog S E A) (f : A → prog S E B) s e s' :
  m s = (Err e, s') → (m ≫= f) s = (Err e, s').
Proof. unfold mbind, prog_mbind, prog_bind. by intros ->. Qed.

Lemma try_except_ok {A} (m : prog S E A) h s a s' :
  m s = (Ok a, s') → try_except m h s = (Ok a, s').
Proof. unfold try_except. by intros ->. Qed.

Lemma try_except_err {A} (m : prog S E A) h s e s' :
  m s = (Err e, s') → try_except m h s = h e s'.
Proof. unfold try_except. by intros ->. Qed.

(** A [try] whose handler never raises never raises. *)
Lemma try_except_no_raise {A} (m : prog S E A) (h : E → prog S E A) :
  (∀ e, no_raise (h e)) → no_raise (try_except m h).
Proof.
  intros Hh s. unfold try_except.
  destruct (m s) as [[a|e] s']; [done|apply Hh].
Qed.

Lemma no_raise_ret {A} (a : A) : no_raise (mret a : prog S E A).
Proof. done. Qed.

Lemma no_raise_bind {A B} (m : prog S E A) (f : A → prog S E B) :
  no_raise m → (∀ a, no_raise (f a)) → no_raise (m ≫= f).
Proof.
  intros Hm Hf s. specialize (Hm s).
  unfold mbind, prog_mbind, prog_bind.
  destruct (m s) as [[a|e] s']; [apply Hf|done].
Qed.

End prog_laws.

(** ** Automation shared by the development *)

Create HintDb py discriminated.
Create Rewrite HintDb py.
#[export] Hint Resolve try_except_no_raise no_raise_ret no_raise_bind : py.

(** [prog_unfold] exposes the state-passing functions behind the notation. *)
Ltac prog_unfold :=
  unfold mbind, mret, prog_mbind, prog_mret, prog_bind, prog_ret,
    result_mbind, result_ret, result_bind,
    try_except, raise, get, put, gets, modify, lift in *.

(** [case_result] splits on the first [result]-valued scrutinee of the goal. *)
Ltac case_result :=
  match goal with
  | |- context [match ?x with _ => _ end] =>
      match type of x with
      | (result _ _ * _)%type =>
          let H := fresh "Hrun" in destruct x as [[?|?] ?] eqn:H
      | result _ _ =>
          let H := fresh "Hres" in destruct x as [?|?] eqn:H
      end
  end.

(** ** Lists: dropping and taking while a test holds *)

Section while.
Context {A : Type} (p : A → bool).
Implicit Types l k : list A.

Fixpoint drop_while (l : list A) : list A :=
  match l with
  | [] => []
  | x :: l' => if p x then drop_while l' else l
  end.

Fixpoint take_while (l : list A) : list A :=
  match l with
  | [] => []
  | x :: l' => if p x then x :: take_while l' else []
  end.

(** Dropping from the end, as a scan from the right does. *)
Definition drop_while_end (l : list A) : list A :=
  reverse (drop_while (reverse l)).

(** [all_true l]: the test holds of every element. *)
Definition all_true (l : list A) : bool := forallb p l.

Lemma take_drop_while l : take_while l ++ drop_while l = l.
Proof. induction l as [|x l IH]; simpl; [done|]. destruct (p x); simpl; by f_equal. Qed.

Lemma all_true_Forall l : all_true l = true ↔ Forall (λ x, p x = true) l.
Proof.
  unfold all_true. induction l as [|x l IH]; simpl.
  - by split; [constructor|].
  - rewrite Forall_cons, andb_true_iff. by rewrite IH.
Qed.

Lemma all_true_app l k : all_true (l ++ k) = all_true l && all_true k.
Proof. apply forallb_app. Qed.

Lemma all_true_take_while l : all_true (take_while l) = true.
Proof. induction l as [|x l IH]; simpl; [done|]. destruct (p x) eqn:Hx; simpl; [by rewrite Hx|done]. Qed.

Lemma drop_while_head l x k : drop_while l = x :: k → p x = false.
Proof.
  induction l as [|y l IH]; simpl; [done|].
  destruct (p y) eqn:Hy; [done|]. by intros [= <- _].
Qed.

Lemma drop_while_all l : all_true l = true → drop_while l = [].
Proof.
  induction l as [|x l IH]; simpl; [done|].
  intros [-> ?]%andb_true_iff. auto.
Qed.

Lemma drop_while_nil_iff l : drop_while l = [] ↔ all_true l = true.
Proof.
  split; [|apply drop_while_all].
  induction l as [|x l IH]; simpl; [done|].
  destruct (p x); simpl; [done|discriminate].
Qed.

Lemma drop_while_cons_false x l : p x = false → drop_while (x :: l) = x :: l.
Proof. simpl. by intros ->. Qed.

Lemma drop_while_app_all l k : all_true l = true → drop_while (l ++ k) = drop_while k.
Proof.
  induction l as [|x l IH]; simpl; [done|].
  intros [-> ?]%andb_true_iff. auto.
Qed.

Lemma drop_while_app l k :
  drop_while (l ++ k) = if all_true l then drop_while k else drop_while l ++ k.
Proof.
  induction l as [|x l IH]; simpl; [done|]. by destruct (p x).
Qed.

Lemma drop_while_idemp l : drop_while (drop_while l) = drop_while l.
Proof.
  destruct (drop_while l) as [|x k] eqn:Hd; [done|].
  apply drop_while_cons_false, (drop_while_head l x k Hd).
Qed.

Lemma drop_while_suffix l : drop_while l `suffix_of` l.
Proof. exists (take_while l). by rewrite take_drop_while. Qed.

Lemma drop_while_length l : length (drop_while l) ≤ length l.
Proof. apply suffix_length, drop_while_suffix. Qed.

(** When the last element fails the test, dropping from the front keeps it
    last: the two scans of a strip do not interfere. *)
Lemma drop_while_snoc_false l x :
  p x = false → ∃ k, drop_while (l ++ [x]) = k ++ [x].
Proof.
  intros Hx. induction l as [|y l IH]; simpl.
  - rewrite Hx. by exists [].
  - destruct (p y); [done|]. by exists (y :: l).
Qed.

Lemma drop_while_end_nil : drop_while_end [] = [].
Proof. done. Qed.

Lemma drop_while_end_snoc_false l x :
  p x = false → drop_while_end (l ++ [x]) = l ++ [x].
Proof.
  intros Hx. unfold drop_while_end. rewrite reverse_snoc.
  rewrite drop_while_cons_false by done. by rewrite reverse_cons, reverse_involutive.
Qed.

Lemma drop_while_end_snoc_true l x :
  p x = true → drop_while_end (l ++ [x]) = drop_while_end l.
Proof.
  intros Hx. unfold drop_while_end. rewrite reverse_snoc. simpl. by rewrite Hx.
Qed.

Lemma drop_while_end_all l : all_true l = true → drop_while_end l = [].
Proof.
  intros Hl. unfold drop_while_end. rewrite drop_while_all; [done|].
  apply all_true_Forall, Forall_reverse. by apply all_true_Forall.
Qed.

Lemma drop_while_end_prefix l : drop_while_end l `prefix_of` l.
Proof.
  unfold drop_while_end. destruct (drop_while_suffix (reverse l)) as [k Hk].
  exists (reverse k). apply (inj reverse).
  by rewrite reverse_app, !reverse_involutive.
Qed.

(** What a scan from the right drops passes the test. *)
Lemma drop_while_end_split l :
  ∃ k, l = drop_while_end l ++ k ∧ all_true k = true.
Proof.
  induction l as [|x l (k & Hk & Hall)] using rev_ind; [by exists []|].
  destruct (p x) eqn:Hx.
  - exists (k ++ [x]). rewrite drop_while_end_snoc_true by done. split.
    + by rewrite (assoc_L (++)), <-Hk.
    + by rewrite all_true_app, Hall; simpl; rewrite Hx.
  - exists []. by rewrite drop_while_end_snoc_false, app_nil_r.
Qed.

Lemma drop_while_end_length l : length (drop_while_end l) ≤ length l.
Proof. apply prefix_length, drop_while_end_prefix. Qed.

Lemma drop_while_end_app_all l k :
  all_true k = true → drop_while_end (l ++ k) = drop_while_end l.
Proof.
  intros Hk. unfold drop_while_end. rewrite reverse_app, drop_while_app_all; [done|].
  apply all_true_Forall, Forall_reverse. by apply all_true_Forall.
Qed.

(** The two scans commute: what is dropped at one end does not depend on
    what was dropped at the other. *)
Lemma drop_while_end_drop_while l :
  drop_while_end (drop_while l) = drop_while (drop_while_end l).
Proof.
  induction l as [|x l IH] using rev_ind; [done|].
  destruct (p x) eqn:Hx.
  - rewrite drop_while_end_snoc_true, drop_while_app by done.
    destruct (all_true l) eqn:Hl.
    + simpl. rewrite Hx. by rewrite (drop_while_end_all l).
    + by rewrite drop_while_end_snoc_true.
  - rewrite drop_while_end_snoc_false by done.
    destruct (drop_while_snoc_false l x Hx) as [k ->].
    by rewrite drop_while_end_snoc_false.
Qed.

(** The last element of what a scan from the right keeps fails the test. *)
Lemma drop_while_end_last l k x : drop_while_end l = k ++ [x] → p x = false.
Proof.
  unfold drop_while_end. intros H%(f_equal reverse).
  rewrite reverse_involutive, reverse_snoc in H. by eapply drop_while_head.
Qed.

Lemma drop_while_end_idemp l : drop_while_end (drop_while_end l) = drop_while_end l.
Proof.
  unfold drop_while_end. by rewrite reverse_involutive, drop_while_idemp.
Qed.

Lemma drop_while_end_nil_iff l : drop_while_end l = [] ↔ all_true l = true.
Proof.
  unfold drop_while_end. split.
  - intros H%(f_equal reverse). rewrite reverse_involutive in H.
    apply drop_while_nil_iff, all_true_Forall, Forall_reverse in H.
    rewrite reverse_involutive in H. by apply all_true_Forall.
  - apply drop_while_end_all.
Qed.

End while.

#[export] Hint Rewrite @drop_while_idemp @drop_while_end_idemp
  @take_drop_while @all_true_take_while : py.
