(* ===== verification/PyStr.v ===== *)
(** * PyStr: the part of Python's [str] the program uses

    A Python [str] is a sequence of Unicode code points; here a list of [N].
    The program calls [str.strip()] on the model's answer (line 117) and on
    the user's text (line 154), and [str.split()] to count words (lines 151
    and 168).  Both are defined by CPython with the predicate
    [Py_UNICODE_ISSPACE], which [isspace] transcribes.

    The theorems characterise [strip] completely ([strip_decompose],
    [strip_stripped], [strip_unique]) and relate [split] to it
    ([split_nil_iff_strip], [split_strip], [concat_split]); the main
    results at the end are [strip_characterised], [split_roundtrip],
    [split_words_wellformed], [guard_iff_words] and [strip_idempotent].
    The class [PyExn] at the end is what the program sees of a Python
    exception. *)

From Stdlib Require Import Ascii.
From stdpp Require Import strings.
From S2P Require Import Prelude.

#[local] Open Scope N_scope.

(** ** Strings and literals *)

Abbreviation char := N (only parsing).
Abbreviation str := (list N) (only parsing).

(** [lit s] is the [str] of an ASCII literal of the source. *)
Fixpoint lit (s : string) : str :=
  match s with
  | EmptyString => []
  | String a s' => N_of_ascii a :: lit s'
  end.

(** The truth value of a [str] in a condition: non-empty. *)
Definition truthy (s : str) : bool := bool_decide (s ≠ []).

(** ** Whitespace *)

Definition in_range (lo hi c : char) : bool := (lo <=? c) && (c <=? hi).

(** [Py_UNICODE_ISSPACE]: the ASCII table entries 0x09-0x0D, 0x1C-0x1F and
    0x20, and [_PyUnicode_IsWhitespace] above 127. *)
Definition isspace (c : char) : bool :=
  in_range 9 13 c || in_range 28 32 c || (c =? 133) || (c =? 160)
  || (c =? 5760) || in_range 8192 8202 c || (c =? 8232) || (c =? 8233)
  || (c =? 8239) || (c =? 8287) || (c =? 12288).

Definition nonspace (c : char) : bool := negb (isspace c).

(** The code points for which [str.isspace] holds, as CPython lists them. *)
Definition whitespace_table : list char :=
  [9; 10; 11; 12; 13; 28; 29; 30; 31; 32; 133; 160; 5760;
   8192; 8193; 8194; 8195; 8196; 8197; 8198; 8199; 8200; 8201; 8202;
   8232; 8233; 8239; 8287; 12288].

(** ** [str.lstrip], [str.rstrip], [str.strip] without argument *)

Definition lstrip (s : str) : str := drop_while isspace s.
Definition rstrip (s : str) : str := drop_while_end isspace s.

(** CPython's [do_strip]: scan from the left, then from the right, and take
    the slice between. *)
Definition strip (s : str) : str := rstrip (lstrip s).

(** [blank s]: [s] is empty or whitespace only, the texts [main] rejects. *)
Definition blank (s : str) : bool := all_true isspace s.

(** [stripped s]: [s] neither starts nor ends with whitespace. *)
Definition stripped (s : str) : Prop :=
  (∀ c, head s = Some c → isspace c = false) ∧
  (∀ c, last s = Some c → isspace c = false).

(** ** [str.split] without argument

    CPython's loop skips whitespace, takes the run of other characters as a
    word, and repeats.  [split_go word s] is the loop with the word read so
    far. *)
Fixpoint split_go (word : str) (s : str) : list str :=
  match s with
  | [] => if decide (word = []) then [] else [word]
  | c :: s' =>
      if isspace c
      then (if decide (word = []) then split_go [] s' else word :: split_go [] s')
      else split_go (word ++ [c]) s'
  end.

Definition split (s : str) : list str := split_go [] s.

(** [len(s.split())], the word count [main] displays. *)
Definition word_count (s : str) : nat := length (split s).

(** ** [str.startswith] and a first-occurrence search *)

Fixpoint startswith (pre s : str) : bool :=
  match pre, s with
  | [], _ => true
  | p :: pre', c :: s' => (p =? c) && startswith pre' s'
  | _ :: _, [] => false
  end.

(** [find sub s]: the least index at which [sub] occurs in [s], as
    [str.find] returns it; [None] for its [-1]. *)
Fixpoint find (sub s : str) : option nat :=
  if startswith sub s then Some 0%nat
  else match s with
       | [] => None
       | _ :: s' => S <$> find sub s'
       end.

(** [sub] occurs in [s] ([sub in s]). *)
Definition contains (sub s : str) : bool := bool_decide (is_Some (find sub s)).

(** ** Whitespace: the table *)

Lemma isspace_table c : isspace c = true ↔ c ∈ whitespace_table.
Proof.
  unfold isspace, in_range, whitespace_table.
  rewrite !orb_true_iff, !andb_true_iff, !N.leb_le, !N.eqb_eq.
  rewrite !elem_of_cons, elem_of_nil. lia.
Qed.

Lemma isspace_space : isspace 32 = true.
Proof. done. Qed.

Lemma nonspace_isspace c : nonspace c = true ↔ isspace c = false.
Proof. unfold nonspace. by destruct (isspace c). Qed.

Lemma nonspace_cases c :
  (isspace c = true ∧ nonspace c = false) ∨ (isspace c = false ∧ nonspace c = true).
Proof. unfold nonspace. destruct (isspace c); auto. Qed.

(** ** Literals *)

Lemma lit_app s1 s2 : lit (s1 +:+ s2) = lit s1 ++ lit s2.
Proof. induction s1 as [|a s1 IH]; simpl; [done|]. by rewrite <-IH. Qed.

Lemma lit_length s : length (lit s) = String.length s.
Proof. induction s as [|a s IH]; simpl; [done|]. by f_equal. Qed.

(** A literal holds ASCII code points only. *)
Lemma lit_ascii s : Forall (λ c, c < 256) (lit s).
Proof.
  induction s as [|a s IH]; simpl; constructor; [|done].
  apply N_ascii_bounded.
Qed.

#[export] Instance lit_inj : Inj (=) (=) lit.
Proof.
  intros s1. induction s1 as [|a s1 IH]; intros [|b s2]; simpl; try done.
  intros [= Hab Hs]. f_equal; [|by apply IH].
  by rewrite <-(ascii_N_embedding a), <-(ascii_N_embedding b), Hab.
Qed.

(** ** [strip] *)

Section strip.
Implicit Types s l r m : str.

Lemma strip_alt s : strip s = lstrip (rstrip s).
Proof. apply drop_while_end_drop_while. Qed.

Lemma blank_app l r : blank (l ++ r) = blank l && blank r.
Proof. apply all_true_app. Qed.

Lemma lstrip_blank s : blank s = true → lstrip s = [].
Proof. apply drop_while_all. Qed.

Lemma strip_blank s : blank s = true → strip s = [].
Proof. intros Hs. unfold strip. by rewrite lstrip_blank. Qed.

(** [strip s] is empty exactly when [s] is blank: the guard of line 154
    rejects exactly the blank texts. *)
Lemma strip_nil_iff s : strip s = [] ↔ blank s = true.
Proof.
  split; [|apply strip_blank]. rewrite strip_alt. unfold lstrip, rstrip, blank.
  intros H%drop_while_nil_iff.
  destruct (drop_while_end_prefix isspace s) as [k Hk].
  assert (Hds : drop_while_end isspace (drop_while_end isspace s) = [])
    by by apply drop_while_end_all.
  rewrite drop_while_end_idemp in Hds. by apply drop_while_end_nil_iff in Hds.
Qed.

Lemma truthy_strip s : truthy (strip s) = negb (blank s).
Proof.
  unfold truthy. destruct (blank s) eqn:Hb; simpl.
  - apply bool_decide_eq_false. rewrite strip_blank; auto.
  - apply bool_decide_eq_true. rewrite strip_nil_iff. congruence.
Qed.

(** What [strip] removes is whitespace, at both ends. *)
Lemma strip_decompose s :
  ∃ l r, s = l ++ strip s ++ r ∧ blank l = true ∧ blank r = true.
Proof.
  destruct (drop_while_end_split isspace (lstrip s)) as (r & Hr & Hall).
  exists (take_while isspace s), r. split_and!; [|apply all_true_take_while|done].
  unfold strip, rstrip. rewrite <-Hr. unfold lstrip. by rewrite take_drop_while.
Qed.

Lemma lstrip_head s c : head (lstrip s) = Some c → isspace c = false.
Proof.
  unfold lstrip. destruct (drop_while isspace s) as [|x k] eqn:Hd; [done|].
  intros [= <-]. by eapply drop_while_head.
Qed.

Lemma rstrip_last s c : last (rstrip s) = Some c → isspace c = false.
Proof.
  unfold rstrip. intros Hl.
  destruct (drop_while_end isspace s) as [|x k] eqn:Hd using rev_ind; [done|].
  rewrite last_snoc in Hl. injection Hl as <-. by eapply drop_while_end_last.
Qed.

(** The result of [strip] has no whitespace at either end. *)
Lemma strip_stripped s : stripped (strip s).
Proof.
  split; intros c.
  - rewrite strip_alt. apply lstrip_head.
  - apply rstrip_last.
Qed.

Lemma lstrip_stripped_id m : stripped m → lstrip m = m.
Proof.
  intros [Hh _]. destruct m as [|c m]; [done|].
  apply drop_while_cons_false, Hh. done.
Qed.

Lemma rstrip_stripped_id m : stripped m → rstrip m = m.
Proof.
  intros [_ Hl]. destruct m as [|c m _] using rev_ind; [done|].
  apply drop_while_end_snoc_false, Hl, last_snoc.
Qed.

Lemma strip_stripped_id m : stripped m → strip m = m.
Proof.
  intros Hm. unfold strip. by rewrite lstrip_stripped_id, rstrip_stripped_id.
Qed.

(** [strip] is determined by the two facts above: any way of writing [s] as
    whitespace, a stripped middle, whitespace, has [strip s] as its middle. *)
Lemma strip_unique s l m r :
  s = l ++ m ++ r → blank l = true → blank r = true → stripped m →
  strip s = m.
Proof.
  intros -> Hl Hr Hm. unfold strip, lstrip.
  rewrite drop_while_app_all by done. fold (lstrip (m ++ r)).
  destruct m as [|c m].
  - simpl. by rewrite lstrip_blank.
  - unfold lstrip. rewrite <-app_comm_cons, drop_while_cons_false
      by (by apply (proj1 Hm)).
    rewrite app_comm_cons. unfold rstrip.
    rewrite drop_while_end_app_all by done. by apply rstrip_stripped_id.
Qed.

Lemma strip_idemp s : strip (strip s) = strip s.
Proof. apply strip_stripped_id, strip_stripped. Qed.

Lemma strip_length s : (length (strip s) ≤ length s)%nat.
Proof.
  unfold strip, rstrip, lstrip.
  etrans; [apply drop_while_end_length|apply drop_while_length].
Qed.

(** Whitespace around a text does not change what [strip] returns. *)
Lemma strip_pad l s r :
  blank l = true → blank r = true → strip (l ++ s ++ r) = strip s.
Proof.
  intros Hl Hr. destruct (strip_decompose s) as (l' & r' & Hs & Hl' & Hr').
  apply strip_unique with (l := l ++ l') (r := r' ++ r).
  - rewrite Hs at 1. by rewrite <-!(assoc_L (++)).
  - by rewrite blank_app, Hl, Hl'.
  - by rewrite blank_app, Hr, Hr'.
  - apply strip_stripped.
Qed.

End strip.

#[export] Hint Resolve strip_stripped : py.
#[export] Hint Rewrite strip_idemp : py.

(** ** [split] *)

(** The words joined by single spaces, [" ".join(ws)]: used to state that
    [split] inverts it. *)
Fixpoint unwords (ws : list str) : str :=
  match ws with
  | [] => []
  | [w] => w
  | w :: ws' => w ++ 32 :: unwords ws'
  end.

(** A word as [split] returns it: non-empty, without whitespace. *)
Definition is_word (w : str) : Prop := w ≠ [] ∧ all_true nonspace w = true.

Section split.
Implicit Types s w l r : str.
Implicit Types ws : list str.

Lemma split_nil : split [] = [].
Proof. reflexivity. Qed.

Lemma split_cons_space c s : isspace c = true → split (c :: s) = split s.
Proof. unfold split. simpl. by intros ->. Qed.

(** The loop with a word in progress: the word is completed by the run of
    non-whitespace that follows, and the loop restarts after it. *)
Lemma split_go_spec w s :
  split_go w s =
    (if decide (w ++ take_while nonspace s = []) then []
     else [w ++ take_while nonspace s])
    ++ split (drop_while nonspace s).
Proof.
  revert w. induction s as [|c s IH]; intros w; simpl.
  - rewrite split_nil, !app_nil_r. by destruct (decide (w = [])).
  - destruct (nonspace_cases c) as [[Hc ->]|[Hc ->]]; rewrite Hc.
    + rewrite app_nil_r, split_cons_space by done.
      by destruct (decide (w = [])).
    + rewrite IH, <-(assoc_L (++)). done.
Qed.

Lemma split_lstrip s : split (lstrip s) = split s.
Proof.
  unfold lstrip. induction s as [|c s IH]; simpl; [done|].
  destruct (isspace c) eqn:Hc; [|done]. by rewrite split_cons_space.
Qed.

(** The loop equation of [str.split]: skip whitespace, take a word, go on
    after it. *)
Lemma split_eq s :
  split s =
    match lstrip s with
    | [] => []
    | t => take_while nonspace t :: split (drop_while nonspace t)
    end.
Proof.
  rewrite <-split_lstrip. destruct (lstrip s) as [|c t] eqn:Ht; [done|].
  assert (isspace c = false) as Hc by (apply (lstrip_head s); by rewrite Ht).
  unfold split at 1. rewrite split_go_spec. simpl.
  destruct (nonspace_cases c) as [[? _]|[_ ->]]; [congruence|done].
Qed.

Lemma split_go_words w s :
  all_true nonspace w = true → Forall is_word (split_go w s).
Proof.
  revert w. induction s as [|c s IH]; intros w Hw; simpl.
  - destruct (decide (w = [])); by repeat constructor.
  - destruct (isspace c) eqn:Hc.
    + destruct (decide (w = [])); [by apply IH|].
      constructor; [done|by apply IH].
    + apply IH. rewrite all_true_app, Hw. simpl. unfold nonspace. by rewrite Hc.
Qed.

(** Every word of [split] is non-empty and free of whitespace. *)
Lemma split_words s : Forall is_word (split s).
Proof. by apply split_go_words. Qed.

Lemma concat_split_go w s :
  concat (split_go w s) = w ++ List.filter nonspace s.
Proof.
  revert w. induction s as [|c s IH]; intros w; simpl.
  - destruct (decide (w = [])) as [->|]; simpl; by rewrite ?app_nil_r.
  - destruct (nonspace_cases c) as [[Hc ->]|[Hc ->]]; rewrite Hc.
    + destruct (decide (w = [])) as [->|]; simpl; by rewrite IH.
    + by rewrite IH, <-(assoc_L (++)).
Qed.

(** The words, in order, hold exactly the non-whitespace of the text. *)
Lemma concat_split s : concat (split s) = List.filter nonspace s.
Proof. apply concat_split_go. Qed.

Lemma split_go_nil_iff w s : split_go w s = [] ↔ w = [] ∧ blank s = true.
Proof.
  revert w. induction s as [|c s IH]; intros w; simpl.
  - destruct (decide (w = [])); naive_solver.
  - destruct (isspace c) eqn:Hc; simpl.
    + destruct (decide (w = [])); [|naive_solver].
      rewrite IH. naive_solver.
    + rewrite IH. split; [intros [[]%app_eq_nil _]|intros [_ ?]]; done.
Qed.

(** No word at all exactly when the text is blank. *)
Lemma split_nil_iff s : split s = [] ↔ blank s = true.
Proof. unfold split. rewrite split_go_nil_iff. naive_solver. Qed.

(** The word count is zero exactly when [strip] returns the empty string:
    the count [main] shows and the guard of the button agree. *)
Lemma split_nil_iff_strip s : word_count s = 0%nat ↔ strip s = [].
Proof.
  unfold word_count. rewrite length_zero_iff_nil, split_nil_iff.
  symmetry. apply strip_nil_iff.
Qed.

Lemma split_go_blank_r w s r :
  blank r = true → split_go w (s ++ r) = split_go w s.
Proof.
  intros Hr. revert w. induction s as [|c s IH]; intros w; simpl.
  - induction r as [|c r IHr]; simpl; [done|].
    apply andb_true_iff in Hr as [Hc Hr]. rewrite Hc.
    destruct (decide (w = [])) as [->|]; [by apply IHr|].
    f_equal. by apply split_nil_iff.
  - by rewrite !IH.
Qed.

Lemma split_blank_l l s : blank l = true → split (l ++ s) = split s.
Proof.
  intros Hl. rewrite <-split_lstrip, <-(split_lstrip s). unfold lstrip.
  by rewrite drop_while_app_all.
Qed.

(** [split] does not see what [strip] removes. *)
Lemma split_strip s : split (strip s) = split s.
Proof.
  destruct (strip_decompose s) as (l & r & Hs & Hl & Hr).
  rewrite Hs at 2. rewrite split_blank_l by done.
  unfold split. by rewrite split_go_blank_r.
Qed.

Lemma split_word w : is_word w → split w = [w].
Proof.
  intros [Hne Hw]. unfold split. rewrite split_go_spec. simpl.
  assert (take_while nonspace w = w) as Htw.
  { clear Hne. induction w as [|c w IH]; simpl; [done|].
    apply andb_true_iff in Hw as [Hc Hw]. rewrite Hc. f_equal. by apply IH. }
  rewrite Htw. rewrite drop_while_all by done.
  by destruct (decide (w = [])).
Qed.

Lemma split_word_space w s : is_word w → split (w ++ 32 :: s) = w :: split s.
Proof.
  intros [Hne Hw]. unfold split at 1. rewrite split_go_spec. simpl.
  assert (∀ k, take_while nonspace (w ++ 32 :: k) = w
             ∧ drop_while nonspace (w ++ 32 :: k) = 32 :: k) as Hk.
  { clear Hne. intros k. induction w as [|c w IH]; simpl; [done|].
    apply andb_true_iff in Hw as [Hc Hw]. rewrite Hc.
    destruct (IH Hw) as [-> ->]. done. }
  destruct (Hk s) as [-> ->]. rewrite split_cons_space by done.
  by destruct (decide (w = [])).
Qed.

(** There are at most as many words as non-whitespace characters. *)
Lemma word_count_le s : (word_count s ≤ length (List.filter nonspace s))%nat.
Proof.
  unfold word_count. rewrite <-concat_split.
  induction (split_words s) as [|w ws [Hne _] _ IH]; simpl; [done|].
  rewrite length_app. destruct w; [done|]. simpl. lia.
Qed.

End split.

#[export] Hint Resolve split_words : py.
#[export] Hint Rewrite split_strip split_lstrip : py.

(** ** [startswith] and [find] *)

Section find.
Implicit Types (sub pre s t a b : str) (i : nat).

Lemma startswith_prefix pre s : startswith pre s = true ↔ pre `prefix_of` s.
Proof.
  revert s. induction pre as [|p pre IH]; intros s; simpl.
  - split; [intros _; apply prefix_nil|done].
  - destruct s as [|c s].
    + split; [done|]. by intros ?%prefix_nil_not.
    + rewrite andb_true_iff, N.eqb_eq, IH. split.
      * intros [-> Hp]. by apply prefix_cons.
      * intros Hp. split; [by apply prefix_cons_inv_1 in Hp|by apply prefix_cons_inv_2 in Hp].
Qed.

Lemma startswith_app pre s : startswith pre (pre ++ s) = true.
Proof. apply startswith_prefix. by exists s. Qed.

Lemma startswith_drop pre s :
  startswith pre s = true → s = pre ++ drop (length pre) s.
Proof.
  intros [k ->]%startswith_prefix. by rewrite drop_app_length.
Qed.

(** [find] returns an index at which [sub] occurs. *)
Lemma find_Some_occurs sub s i :
  find sub s = Some i → ∃ b, s = take i s ++ sub ++ b ∧ (i ≤ length s)%nat.
Proof.
  revert i. induction s as [|c s IH]; intros i; simpl.
  - destruct (startswith sub []) eqn:Hs; [|done]. intros [= <-].
    apply startswith_prefix in Hs as [b ->]. exists b. split; [done|lia].
  - destruct (startswith sub (c :: s)) eqn:Hs.
    + intros [= <-]. apply startswith_prefix in Hs as [b ->]. exists b.
      split; [done|lia].
    + destruct (find sub s) as [j|] eqn:Hj; [|done]. intros [= <-].
      destruct (IH j eq_refl) as (b & Hb & Hlen). exists b. simpl.
      split; [by f_equal|lia].
Qed.

(** No occurrence starts before the index [find] returns. *)
Lemma find_Some_first sub s i j :
  find sub s = Some i → (j < i)%nat → startswith sub (drop j s) = false.
Proof.
  revert i j. induction s as [|c s IH]; intros i j; simpl.
  - destruct (startswith sub []); [|done]. intros [= <-]. lia.
  - destruct (startswith sub (c :: s)) eqn:Hs; [intros [= <-]; lia|].
    destruct (find sub s) as [i'|] eqn:Hi; [|done]. intros [= <-] Hj.
    destruct j as [|j]; [done|]. simpl. apply (IH i'); [done|lia].
Qed.

(** [find] fails only when [sub] occurs nowhere. *)
Lemma find_None sub s : find sub s = None ↔ ∀ a b, s ≠ a ++ sub ++ b.
Proof.
  induction s as [|c s IH]; simpl.
  - destruct (startswith sub []) eqn:Hs.
    + split; [done|]. intros Hno. apply startswith_prefix in Hs as [b Hb].
      by destruct (Hno [] b).
    + split; [|done]. intros _ a b Heq.
      assert (startswith sub [] = true); [|congruence].
      apply startswith_prefix. destruct a; [by exists b|done].
  - destruct (startswith sub (c :: s)) eqn:Hs.
    + split; [done|]. intros Hno. apply startswith_prefix in Hs as [b Hb].
      by destruct (Hno [] b).
    + rewrite fmap_None, IH. split.
      * intros Hno [|x a] b Heq.
        -- assert (startswith sub (c :: s) = true); [|congruence].
           apply startswith_prefix. by exists b.
        -- injection Heq as -> Heq. by eapply Hno.
      * intros Hno a b ->. by eapply (Hno (c :: a)).
Qed.

Lemma find_None_app_l sub a b : find sub (a ++ b) = None → find sub a = None.
Proof.
  rewrite !find_None. intros Hno x y ->. eapply (Hno x (y ++ b)).
  by rewrite <-!(assoc_L (++)).
Qed.

Lemma find_None_app_r sub a b : find sub (a ++ b) = None → find sub b = None.
Proof.
  rewrite !find_None. intros Hno x y ->. eapply (Hno (a ++ x) y).
  by rewrite <-!(assoc_L (++)).
Qed.

Lemma find_None_drop sub s i : find sub s = None → find sub (drop i s) = None.
Proof. rewrite <-(take_drop i s) at 1. apply find_None_app_r. Qed.

Lemma find_None_strip sub s : find sub s = None → find sub (strip s) = None.
Proof.
  destruct (strip_decompose s) as (l & r & Hs & _). rewrite Hs at 1.
  intros Hno%find_None_app_r. by apply find_None_app_l in Hno.
Qed.

(** An occurrence at an index makes [find] succeed at or before it. *)
Lemma find_occurs sub a b : ∃ i, find sub (a ++ sub ++ b) = Some i ∧ (i ≤ length a)%nat.
Proof.
  destruct (find sub (a ++ sub ++ b)) as [i|] eqn:Hf.
  - exists i. split; [done|]. destruct (decide (i ≤ length a)%nat); [done|].
    assert (startswith sub (drop (length a) (a ++ sub ++ b)) = false) as Hs
      by (eapply find_Some_first; [done|lia]).
    by rewrite drop_app_length, startswith_app in Hs.
  - by destruct (proj1 (find_None _ _) Hf a b).
Qed.

Lemma contains_false sub s : contains sub s = false ↔ find sub s = None.
Proof.
  unfold contains. rewrite bool_decide_eq_false, <-eq_None_not_Some. done.
Qed.

End find.

(** ** Exceptions, as far as the program sees them

    The program catches [Exception] and formats [str(e)] (line 121); its
    dictionary subscript can raise [KeyError] (line 82) and a method call on
    [None] raises [AttributeError] (line 116).  What an exception is
    otherwise belongs to the Python runtime and to the libraries that raise
    it, so the development takes it as an interface: a type of exceptions,
    [str(e)], and the two constructors.

    [exn] stands for the instances of [Exception], which is what the two
    handlers of the program catch (lines 120 and 141).  An exit that is a
    [BaseException] only ([KeyboardInterrupt], [SystemExit],
    [asyncio.CancelledError]) passes both handlers; it is no value of
    [exn], and no theorem of the development speaks of it.  [exn_str] is
    total: [str(e)] of line 121 is taken to return. *)
Class PyExn : Type := {
  exn : Type;
  exn_str : exn → str;
  KeyError : str → exn;
  AttributeError : str → exn;
}.

(** The simplest implementation, for concrete runs: an exception is its
    message.  The message of [KeyError(k)] is [k] in single quotes, which
    is Python's [repr] of a key made of letters. *)
Definition message_exn : PyExn :=
  {| exn := str;
     exn_str := id;
     KeyError := λ k, 39 :: k ++ [39];
     AttributeError := λ a,
       lit "'NoneType' object has no attribute '" ++ a ++ [39] |}.

(** ** Main results *)

(** C40: [strip] is characterised by what it returns: [m] is [s.strip()]
    exactly when [s] is [m] between two runs of whitespace and [m] neither
    starts nor ends with whitespace (lines 117 and 154). *)
Theorem strip_characterised (s m : str) :
  strip s = m ↔
  ∃ l r, s = l ++ m ++ r ∧ blank l = true ∧ blank r = true ∧ stripped m.
Proof.
  split.
  - intros <-. destruct (strip_decompose s) as (l & r & Hs & Hl & Hr).
    exists l, r. auto with py.
  - intros (l & r & Hs & Hl & Hr & Hm). by eapply strip_unique.
Qed.

(** [split] reads back the words of a line: splitting the words
    joined by single spaces returns the words, when each word is non-empty
    and without whitespace (line 151). *)
Theorem split_roundtrip (ws : list str) :
  Forall is_word ws → split (unwords ws) = ws.
Proof.
  induction 1 as [|w ws Hw Hws IH]; [done|].
  destruct ws as [|w' ws]; [by apply split_word|].
  change (unwords (w :: w' :: ws)) with (w ++ 32 :: unwords (w' :: ws)).
  by rewrite split_word_space, IH.
Qed.

Lemma split_roundtrip_witness :
  split (unwords [lit "make"; lit "it"; lit "human"])
  = [lit "make"; lit "it"; lit "human"].
Proof. apply split_roundtrip. repeat constructor; compute_done. Defined.

(** The words [split] returns are non-empty and without whitespace,
    and together they are the characters of the text that are not
    whitespace, in their order: nothing else is dropped (line 151). *)
Theorem split_words_wellformed (s : str) :
  Forall is_word (split s) ∧ concat (split s) = List.filter nonspace s.
Proof. split; [apply split_words|apply concat_split]. Qed.

(** The guard of the button and the word count agree: the stripped
    text is non-empty (line 154) exactly when the text has at least one
    word (line 151). *)
Theorem guard_iff_words (s : str) :
  truthy (strip s) = true ↔ (0 < word_count s)%nat.
Proof.
  unfold truthy. rewrite bool_decide_eq_true, <-split_nil_iff_strip. lia.
Qed.

(** stripping twice is stripping once, and the word count does not
    see the whitespace [strip] removes. *)
Theorem strip_idempotent (s : str) :
  strip (strip s) = strip s ∧ word_count (strip s) = word_count s.
Proof. unfold word_count. by rewrite strip_idemp, split_strip. Qed.
