(* ===== verification/Regex.v ===== *)
(** * Regex: the fragment of Python's [re] behind line 117

    [re.sub(r"<think>.*?</think>", "", s, flags=re.DOTALL)] needs literals,
    the dot, sequencing and the lazy star of a backtracking engine, and the
    substitution loop.  This file models them for every expression of that
    fragment (the greedy star included, for contrast), independently of the
    pattern of the program.

    - [regex], [flags]: the expression as the parser of [re] builds it and
      the flags of the call.
    - [matches]: the language of an expression, the specification.
    - [match_here]: the engine, a backtracking matcher with ordered choice
      written with continuations; [star_loop] is its repeat operator.
    - [match_at], [sub_go], [re_sub]: one attempt at a position with the
      engine's [must_advance] rule, and the loop of [re.sub].

    The matcher is sound and complete for [matches]
    ([match_here_sound], [match_here_complete]); the lazy and the greedy
    star over the dot pick the shortest and the longest continuation that
    succeeds ([lazy_dot_star], [greedy_dot_star]); the loop satisfies its
    unbounded equations ([re_sub_match], [re_sub_no_match]) because its
    fuel is never exhausted ([sub_go_fuel]).  The main results at the end
    state these for the engine as a whole: [match_here_correct] and
    [re_sub_fuel_enough]; [re_sub_leftmost] and [lazy_star_shortest] are
    the loop and the two stars in the form the other files use. *)

From S2P Require Import Prelude PyStr.

#[local] Open Scope N_scope.

(** ** Expressions and flags *)

Inductive regex : Type :=
| Eps                                (* the empty pattern *)
| Lit (c : N)                        (* a literal character *)
| Dot                                (* [.] *)
| Seq (r1 r2 : regex)                (* [r1 r2] *)
| Star (greedy : bool) (r : regex).  (* [r*] and [r*?] *)

#[export] Instance regex_eq_dec : EqDecision regex.
Proof. solve_decision. Defined.

Record flags : Type := Flags { dotall : bool }.

(** The flags of a call without [flags=], and [re.DOTALL]. *)
Definition no_flags : flags := Flags false.
Definition DOTALL : flags := Flags true.

(** The dot matches any character except a newline, and a newline too
    under [re.DOTALL]. *)
Definition dot_ok (fl : flags) (c : N) : bool := dotall fl || negb (c =? 10).

(** [seq_lits p r]: the literals of [p], then [r]; what a run of ordinary
    characters in front of [r] parses to. *)
Fixpoint seq_lits (p : str) (r : regex) : regex :=
  match p with
  | [] => r
  | c :: p' => Seq (Lit c) (seq_lits p' r)
  end.

(** ** The pattern syntax

    The characters with a meaning of their own, [.^$*+?{}[]\|()]; of the
    constructs they spell the parser knows the dot and the two stars, and
    refuses a pattern that uses another. *)
Definition special (c : N) : bool :=
  bool_decide (c ∈ [46; 94; 36; 42; 43; 63; 123; 125; 91; 93; 92; 124; 40; 41]).

Definition atom (c : N) : option regex :=
  if c =? 46 then Some Dot
  else if special c then None
  else Some (Lit c).

(** An item is an atom, followed by [*?] (lazy star), by [*] (greedy star)
    or by neither. *)
Fixpoint parse (p : str) : option regex :=
  match p with
  | [] => Some Eps
  | c :: p1 =>
      a ← atom c;
      match p1 with
      | x :: p2 =>
          if x =? 42 then
            match p2 with
            | y :: p3 =>
                if y =? 63 then Seq (Star false a) <$> parse p3
                else Seq (Star true a) <$> parse p2
            | [] => Seq (Star true a) <$> parse p2
            end
          else Seq a <$> parse p1
      | [] => Seq a <$> parse p1
      end
  end.

(** ** The language of an expression *)

Inductive matches (fl : flags) : regex → str → Prop :=
| matches_eps : matches fl Eps []
| matches_lit c : matches fl (Lit c) [c]
| matches_dot c : dot_ok fl c = true → matches fl Dot [c]
| matches_seq r1 r2 s1 s2 :
    matches fl r1 s1 → matches fl r2 s2 → matches fl (Seq r1 r2) (s1 ++ s2)
| matches_star_nil g r : matches fl (Star g r) []
| matches_star_cons g r s1 s2 :
    matches fl r s1 → s1 ≠ [] → matches fl (Star g r) s2 →
    matches fl (Star g r) (s1 ++ s2).

(** ** The engine *)

(** A continuation receives the rest of the input and answers with the rest
    after the whole match, or fails, which makes the engine backtrack. *)
Abbreviation cont := (str → option str) (only parsing).

(** Priority between two alternatives: the first that succeeds. *)
Definition or_else (a b : option str) : option str :=
  match a with Some x => Some x | None => b end.

(** The repeat operator.  [step] matches the body once.  An iteration must
    consume input, so at most [length s] iterations can follow, which is the
    fuel [n] the matcher passes.  The lazy star tries to stop first, the
    greedy star to go on first. *)
Fixpoint star_loop (greedy : bool) (step : str → cont → option str)
    (k : cont) (n : nat) (s : str) : option str :=
  let more :=
    match n with
    | O => None
    | S n' =>
        step s (λ s', if bool_decide (length s' < length s)%nat
                      then star_loop greedy step k n' s' else None)
    end in
  if greedy then or_else more (k s) else or_else (k s) more.

Fixpoint match_here (fl : flags) (r : regex) (s : str) (k : cont) : option str :=
  match r with
  | Eps => k s
  | Lit c =>
      match s with
      | x :: s' => if x =? c then k s' else None
      | [] => None
      end
  | Dot =>
      match s with
      | x :: s' => if dot_ok fl x then k s' else None
      | [] => None
      end
  | Seq r1 r2 => match_here fl r1 s (λ s', match_here fl r2 s' k)
  | Star g r1 => star_loop g (match_here fl r1) k (length s) s
  end.

(** One attempt at the position where [s] starts.  With [must_advance] an
    empty match is refused there, and the engine backtracks for another. *)
Definition match_at (fl : flags) (r : regex) (s : str) (must_advance : bool)
    : option str :=
  match_here fl r s
    (λ rest, if must_advance && bool_decide (length rest = length s)
             then None else Some rest).

(** The loop of [re.sub] with a literal replacement.  At each position: on a
    match, emit the replacement and go on after the match, where an empty
    match obliges the next attempt to advance; otherwise copy one character.
    [fuel] bounds the iterations; [re_sub] gives enough. *)
Fixpoint sub_go (fl : flags) (r : regex) (repl : str) (fuel : nat) (s : str)
    (must_advance : bool) : str :=
  match fuel with
  | O => s
  | S n =>
      match match_at fl r s must_advance with
      | Some rest =>
          repl ++ sub_go fl r repl n rest (bool_decide (length rest = length s))
      | None =>
          match s with
          | [] => []
          | c :: s' => c :: sub_go fl r repl n s' false
          end
      end
  end.

(** The loop from a position, with the fuel its measure asks for. *)
Definition sub_from (fl : flags) (r : regex) (repl : str) (s : str)
    (must_advance : bool) : str :=
  sub_go fl r repl (2 * length s + 2) s must_advance.

(** [re.sub(pattern, repl, s, flags=fl)] for a replacement without escapes. *)
Definition re_sub (fl : flags) (pattern : regex) (repl : str) (s : str) : str :=
  sub_from fl pattern repl s false.

(** [first_suffix k s]: the answer of [k] on the longest suffix of [s] on
    which it succeeds; [last_suffix k s]: on the shortest. *)
Fixpoint first_suffix (k : cont) (s : str) : option str :=
  or_else (k s) (match s with [] => None | _ :: s' => first_suffix k s' end).

Fixpoint last_suffix (k : cont) (s : str) : option str :=
  or_else (match s with [] => None | _ :: s' => last_suffix k s' end) (k s).

(** ** Continuations up to pointwise equality

    The engine never inspects a continuation, it only calls it, so two
    continuations that answer alike are interchangeable. *)

Lemma or_else_Some a b x :
  or_else a b = Some x ↔ a = Some x ∨ (a = None ∧ b = Some x).
Proof.
  destruct a; simpl; split; try tauto.
  - intros [?|[? _]]; done.
  - intros [?|[_ ?]]; done.
Qed.

Lemma or_else_is_Some a b : is_Some (or_else a b) ↔ is_Some a ∨ is_Some b.
Proof.
  destruct a as [x|]; simpl.
  - split; [intros _; left|]; eauto.
  - split; [by right|by intros [[? ?]|?]].
Qed.

Lemma or_else_None_r a : or_else a None = a.
Proof. by destruct a. Qed.

Section engine.
Context (fl : flags).
Implicit Types (r : regex) (s rest : str) (k : str → option str).

Lemma match_here_Seq r1 r2 s k :
  match_here fl (Seq r1 r2) s k = match_here fl r1 s (λ s', match_here fl r2 s' k).
Proof. done. Qed.

Lemma match_here_Star g r s k :
  match_here fl (Star g r) s k = star_loop g (match_here fl r) k (length s) s.
Proof. done. Qed.

Lemma star_loop_ext g (step : str → (str → option str) → option str) k1 k2 n s :
  (∀ s k1 k2, (∀ x, k1 x = k2 x) → step s k1 = step s k2) →
  (∀ x, k1 x = k2 x) →
  star_loop g step k1 n s = star_loop g step k2 n s.
Proof.
  intros Hstep Hk. revert s. induction n as [|n IH]; intros s; simpl.
  - by rewrite (Hk s).
  - rewrite (Hk s). destruct g; f_equal; apply Hstep; intros s'; by rewrite IH.
Qed.

Lemma match_here_ext r s k1 k2 :
  (∀ x, k1 x = k2 x) → match_here fl r s k1 = match_here fl r s k2.
Proof.
  revert s k1 k2.
  induction r as [|c| |r1 IH1 r2 IH2|g r IH]; intros s k1 k2 Hk; simpl.
  - apply Hk.
  - destruct s as [|x s]; [done|]. by rewrite Hk.
  - destruct s as [|x s]; [done|]. by rewrite Hk.
  - apply IH1. intros s'. by apply IH2.
  - by apply star_loop_ext.
Qed.

#[export] Instance match_here_proper r s :
  Proper (pointwise_relation _ (=) ==> (=)) (match_here fl r s).
Proof. intros k1 k2 Hk. by apply match_here_ext. Qed.

(** An iteration that cannot shorten the input fails. *)
Lemma match_here_none r s :
  match_here fl r s (λ _, None) = None.
Proof.
  revert s. induction r as [|c| |r1 IH1 r2 IH2|g r IH]; intros s; simpl.
  - done.
  - destruct s as [|x s]; [done|]. by destruct (x =? c).
  - destruct s as [|x s]; [done|]. by destruct (dot_ok fl x).
  - etrans; [|apply (IH1 s)]. apply match_here_ext. intros s'. apply IH2.
  - generalize (length s) at 1. intros n. revert s.
    induction n as [|n IHn]; intros s; simpl; [by destruct g|].
    assert (match_here fl r s (λ s', if bool_decide (length s' < length s)%nat
      then star_loop g (match_here fl r) (λ _, None) n s' else None) = None)
      as ->; [|by destruct g].
    etrans; [|apply (IH s)]. apply match_here_ext. intros s'.
    case_bool_decide; [apply IHn|done].
Qed.

(** Fuel beyond the length of the input changes nothing. *)
Lemma star_loop_fuel g r k n m s :
  (length s ≤ n)%nat → (length s ≤ m)%nat →
  star_loop g (match_here fl r) k n s = star_loop g (match_here fl r) k m s.
Proof.
  revert m s. induction n as [|n IH]; intros m s Hn Hm.
  - destruct s; [|simpl in Hn; lia]. destruct m; simpl; [done|].
    by rewrite match_here_none.
  - destruct m as [|m].
    + destruct s; [|simpl in Hm; lia]. simpl. by rewrite match_here_none.
    + simpl. destruct g; f_equal; apply match_here_ext; intros s';
        (case_bool_decide; [|done]); apply IH; lia.
Qed.

(** ** Soundness: what the engine matches is in the language *)

Lemma star_loop_sound g r k n s res :
  (∀ s k res, match_here fl r s k = Some res →
     ∃ s1 s2, s = s1 ++ s2 ∧ matches fl r s1 ∧ k s2 = Some res) →
  star_loop g (match_here fl r) k n s = Some res →
  ∃ s1 s2, s = s1 ++ s2 ∧ matches fl (Star g r) s1 ∧ k s2 = Some res.
Proof.
  intros Hr. revert s. induction n as [|n IH]; intros s Hs; simpl in Hs.
  - exists [], s. split_and!; [done|constructor|].
    destruct g; simpl in Hs; [done|]. by rewrite or_else_None_r in Hs.
  - assert (k s = Some res ∨
      match_here fl r s (λ s', if bool_decide (length s' < length s)%nat
        then star_loop g (match_here fl r) k n s' else None) = Some res)
      as [Hk|Hm] by (destruct g; apply or_else_Some in Hs; naive_solver).
    { exists [], s. split_and!; [done|constructor|done]. }
    apply Hr in Hm as (a & b & -> & Ha & Hb). case_bool_decide as Hlen; [|done].
    apply IH in Hb as (c & d & -> & Hc & Hd).
    exists (a ++ c), d. split_and!; [by rewrite (assoc_L (++))| |done].
    constructor; [done| |done]. intros ->. simpl in Hlen. lia.
Qed.

Lemma match_here_sound r s k res :
  match_here fl r s k = Some res →
  ∃ s1 s2, s = s1 ++ s2 ∧ matches fl r s1 ∧ k s2 = Some res.
Proof.
  revert s k res.
  induction r as [|c| |r1 IH1 r2 IH2|g r IH]; intros s k res Hm; simpl in Hm.
  - exists [], s. split_and!; [done|constructor|done].
  - destruct s as [|x s]; [done|]. destruct (x =? c) eqn:Hx; [|done].
    apply N.eqb_eq in Hx as ->. exists [c], s. split_and!; [done|constructor|done].
  - destruct s as [|x s]; [done|]. destruct (dot_ok fl x) eqn:Hx; [|done].
    exists [x], s. split_and!; [done|by constructor|done].
  - apply IH1 in Hm as (a & b & -> & Ha & Hb).
    apply IH2 in Hb as (c & d & -> & Hc & Hd).
    exists (a ++ c), d. split_and!; [by rewrite (assoc_L (++))|by constructor|done].
  - by eapply star_loop_sound.
Qed.

(** ** Completeness: the engine finds a match when the language has one *)

Lemma star_loop_stop g step k n s :
  is_Some (k s) → is_Some (star_loop g step k n s).
Proof. intros Hk. destruct n, g; simpl; rewrite ?or_else_is_Some; auto. Qed.

Lemma match_here_complete r s1 :
  matches fl r s1 →
  ∀ s2 k, is_Some (k s2) → is_Some (match_here fl r (s1 ++ s2) k).
Proof.
  induction 1 as [|c|c Hc|r1 r2 a b _ IHa _ IHb|g r|g r a b _ IHa Hne _ IHb];
    intros s2 k Hk; simpl.
  - done.
  - by rewrite N.eqb_refl.
  - by rewrite Hc.
  - rewrite <-(assoc_L (++)). by apply IHa, IHb.
  - by apply star_loop_stop.
  - destruct a as [|x a]; [done|]. rewrite <-(assoc_L (++)). simpl.
    assert (is_Some (match_here fl r (x :: a ++ b ++ s2)
      (λ s', if bool_decide (length s' < S (length (a ++ b ++ s2)))%nat
             then star_loop g (match_here fl r) k (length (a ++ b ++ s2)) s'
             else None))) as Hmore.
    { apply (IHa (b ++ s2)). rewrite bool_decide_eq_true_2
        by (rewrite !length_app; lia).
      rewrite (star_loop_fuel _ _ _ _ (length (b ++ s2)))
        by (rewrite !length_app; lia).
      by apply (IHb s2 k). }
    destruct g; apply or_else_is_Some; auto.
Qed.

(** ** Literals and the star over the dot *)

Lemma match_here_seq_lits p r s k :
  match_here fl (seq_lits p r) s k =
    if startswith p s then match_here fl r (drop (length p) s) k else None.
Proof.
  revert s. induction p as [|c p IH]; intros s; simpl; [done|].
  destruct s as [|x s]; [done|]. rewrite (N.eqb_sym c x).
  destruct (x =? c); simpl; [apply IH|done].
Qed.

Lemma first_suffix_ext k1 k2 s :
  (∀ x, k1 x = k2 x) → first_suffix k1 s = first_suffix k2 s.
Proof.
  intros Hk. induction s as [|c s IH]; simpl; rewrite Hk; [done|by rewrite IH].
Qed.

(** Where the dot matches every character, the lazy star hands the
    continuation the suffixes of the input from the longest on, and the
    first success wins: the shortest match. *)
Lemma lazy_dot_star k n s :
  Forall (λ c, dot_ok fl c = true) s → (length s ≤ n)%nat →
  star_loop false (match_here fl Dot) k n s = first_suffix k s.
Proof.
  intros Hs. revert n. induction Hs as [|c s Hc _ IH]; intros n Hn.
  - destruct n; simpl; by rewrite ?or_else_None_r.
  - destruct n as [|n]; [simpl in Hn; lia|]. simpl. rewrite Hc.
    rewrite bool_decide_eq_true_2 by lia. rewrite IH by (simpl in Hn; lia). done.
Qed.

(** The greedy star tries the suffixes from the shortest on: the longest
    match. *)
Lemma greedy_dot_star k n s :
  Forall (λ c, dot_ok fl c = true) s → (length s ≤ n)%nat →
  star_loop true (match_here fl Dot) k n s = last_suffix k s.
Proof.
  intros Hs. revert n. induction Hs as [|c s Hc _ IH]; intros n Hn.
  - destruct n; simpl; done.
  - destruct n as [|n]; [simpl in Hn; lia|]. simpl. rewrite Hc.
    rewrite bool_decide_eq_true_2 by lia. rewrite IH by (simpl in Hn; lia). done.
Qed.

End engine.

(** ** One attempt at a position *)

Section sub.
Context (fl : flags) (r : regex) (repl : str).
Implicit Types (s rest m : str) (adv : bool).

(** A successful attempt splits the input into a word of the language and
    the rest, and the word is not empty when the attempt had to advance. *)
Lemma match_at_sound s adv rest :
  match_at fl r s adv = Some rest →
  ∃ m, s = m ++ rest ∧ matches fl r m ∧ (adv = true → m ≠ []).
Proof.
  unfold match_at. intros (m & s2 & -> & Hm & Hk)%match_here_sound.
  destruct (adv && _) eqn:Hadv in Hk; [done|]. injection Hk as <-.
  exists m. split_and!; [done..|]. intros -> ->. simpl in Hadv.
  by rewrite bool_decide_eq_true_2 in Hadv.
Qed.

(** An attempt succeeds wherever a word of the language starts, an empty
    word excepted when the attempt has to advance. *)
Lemma match_at_complete m rest adv :
  matches fl r m → (adv = true → m ≠ []) →
  is_Some (match_at fl r (m ++ rest) adv).
Proof.
  intros Hm Hadv. unfold match_at. apply match_here_complete; [done|].
  destruct adv; simpl; [|done]. rewrite bool_decide_eq_false_2; [done|].
  rewrite length_app. destruct m; [by destruct Hadv|simpl; lia].
Qed.

Lemma match_at_length s adv rest :
  match_at fl r s adv = Some rest → (length rest ≤ length s)%nat.
Proof. intros (m & -> & _)%match_at_sound. rewrite length_app. lia. Qed.

(** ** The substitution loop *)

(** What decreases along the loop: two units per character left, and one
    for the right to match the empty word at the current position. *)
Definition sub_measure s adv : nat :=
  (2 * length s + (if adv then 0 else 1))%nat.

Lemma sub_go_S n s adv :
  sub_go fl r repl (S n) s adv =
    match match_at fl r s adv with
    | Some rest =>
        repl ++ sub_go fl r repl n rest (bool_decide (length rest = length s))
    | None =>
        match s with
        | [] => []
        | c :: s' => c :: sub_go fl r repl n s' false
        end
    end.
Proof. done. Qed.

Lemma sub_measure_match s adv rest :
  match_at fl r s adv = Some rest →
  (sub_measure rest (bool_decide (length rest = length s)) < sub_measure s adv)%nat.
Proof.
  intros (m & -> & _ & Hadv)%match_at_sound. unfold sub_measure.
  rewrite length_app. case_bool_decide as Hlen.
  - destruct adv; [|lia]. destruct m; [by destruct Hadv|].
    simpl in Hlen. lia.
  - destruct adv; lia.
Qed.

(** Termination of the loop: with more fuel than the measure, the amount of
    fuel does not matter, so the bound of [sub_go] is never reached. *)
Lemma sub_go_fuel (n1 n2 : nat) s adv :
  (sub_measure s adv < n1)%nat → (sub_measure s adv < n2)%nat →
  sub_go fl r repl n1 s adv = sub_go fl r repl n2 s adv.
Proof.
  revert n2 s adv. induction n1 as [|n1 IH]; intros n2 s adv Hn1 Hn2; [lia|].
  destruct n2 as [|n2]; [lia|]. rewrite !sub_go_S.
  destruct (match_at fl r s adv) as [rest|] eqn:Hmatch.
  - apply sub_measure_match in Hmatch. f_equal. apply IH; lia.
  - destruct s as [|c s]; [done|]. f_equal.
    apply IH; unfold sub_measure in *; simpl in *; lia.
Qed.

Lemma sub_from_unfold s adv :
  sub_from fl r repl s adv = sub_go fl r repl (S (sub_measure s adv)) s adv.
Proof. unfold sub_from. apply sub_go_fuel; unfold sub_measure; destruct adv; lia. Qed.

(** The equations of the loop, free of fuel.  On a match: the replacement,
    then the loop after the match. *)
Lemma sub_from_match s adv rest :
  match_at fl r s adv = Some rest →
  sub_from fl r repl s adv =
    repl ++ sub_from fl r repl rest (bool_decide (length rest = length s)).
Proof.
  intros Hmatch. rewrite sub_from_unfold, sub_go_S, Hmatch. f_equal.
  rewrite sub_from_unfold. apply sub_go_fuel; [|lia].
  by apply sub_measure_match.
Qed.

(** Without a match: the character is copied, and the loop goes on. *)
Lemma sub_from_no_match c s adv :
  match_at fl r (c :: s) adv = None →
  sub_from fl r repl (c :: s) adv = c :: sub_from fl r repl s false.
Proof.
  intros Hmatch. rewrite sub_from_unfold, sub_go_S, Hmatch. f_equal.
  rewrite sub_from_unfold. apply sub_go_fuel; unfold sub_measure; simpl; lia.
Qed.

Lemma sub_from_nil adv :
  match_at fl r [] adv = None → sub_from fl r repl [] adv = [].
Proof. intros Hmatch. by rewrite sub_from_unfold, sub_go_S, Hmatch. Qed.

(** The three equations for [re.sub] itself. *)
Lemma re_sub_match s rest :
  match_at fl r s false = Some rest →
  re_sub fl r repl s =
    repl ++ sub_from fl r repl rest (bool_decide (length rest = length s)).
Proof. apply sub_from_match. Qed.

Lemma re_sub_no_match c s :
  match_at fl r (c :: s) false = None →
  re_sub fl r repl (c :: s) = c :: re_sub fl r repl s.
Proof. apply sub_from_no_match. Qed.

(** Where the pattern matches at no position, [re.sub] returns its input. *)
Lemma re_sub_id s :
  (∀ t, t `suffix_of` s → match_at fl r t false = None) →
  re_sub fl r repl s = s.
Proof.
  induction s as [|c s IH]; intros Hno.
  - by apply sub_from_nil, Hno.
  - rewrite re_sub_no_match by by apply Hno. f_equal. apply IH.
    intros t Ht. apply Hno. by apply suffix_cons_r.
Qed.

End sub.

(** With the empty replacement the result is the input with parts left
    out, whatever the pattern. *)
Lemma sub_go_sublist fl r n s adv : sub_go fl r [] n s adv `sublist_of` s.
Proof.
  revert s adv. induction n as [|n IH]; intros s adv; [done|].
  rewrite sub_go_S. destruct (match_at fl r s adv) as [rest|] eqn:Hmatch.
  - apply match_at_sound in Hmatch as (m & -> & _). simpl.
    by apply sublist_inserts_l.
  - destruct s as [|c s]; [done|]. by apply sublist_skip.
Qed.

Lemma re_sub_sublist fl r s : re_sub fl r [] s `sublist_of` s.
Proof. apply sub_go_sublist. Qed.

Lemma re_sub_length fl r s : (length (re_sub fl r [] s) ≤ length s)%nat.
Proof. apply sublist_length, re_sub_sublist. Qed.

(** ** The parser *)

(** A pattern of ordinary characters parses to its literals. *)
Lemma parse_ordinary p :
  Forall (λ c, special c = false) p → parse p = Some (seq_lits p Eps).
Proof.
  induction 1 as [|c p Hc Hp IH]; [done|].
  assert (atom c = Some (Lit c)) as Ha.
  { unfold atom. rewrite Hc. destruct (c =? 46) eqn:Hdot; [|done].
    apply N.eqb_eq in Hdot as ->. done. }
  cbn [parse]. rewrite Ha. simpl. destruct Hp as [|x p Hx Hp]; [done|].
  destruct (x =? 42) eqn:Hstar.
  - apply N.eqb_eq in Hstar as ->. done.
  - by rewrite IH.
Qed.

(** ** The language of some patterns *)

Section language.
Context (fl : flags).
Implicit Types (r : regex) (s p : str).

Lemma matches_Eps s : matches fl Eps s ↔ s = [].
Proof. split; [by inversion 1|intros ->; constructor]. Qed.

Lemma matches_Seq r1 r2 s :
  matches fl (Seq r1 r2) s ↔
  ∃ s1 s2, s = s1 ++ s2 ∧ matches fl r1 s1 ∧ matches fl r2 s2.
Proof.
  split; [inversion 1; eauto|].
  intros (s1 & s2 & -> & H1 & H2). by constructor.
Qed.

Lemma matches_Lit c s : matches fl (Lit c) s ↔ s = [c].
Proof. split; [by inversion 1|intros ->; constructor]. Qed.

Lemma matches_Dot s : matches fl Dot s ↔ ∃ c, s = [c] ∧ dot_ok fl c = true.
Proof. split; [inversion 1; eauto|intros (c & -> & Hc); by constructor]. Qed.

(** Literals in front of a pattern are a prefix of what it matches. *)
Lemma matches_seq_lits p r s :
  matches fl (seq_lits p r) s ↔ ∃ s', s = p ++ s' ∧ matches fl r s'.
Proof.
  revert s. induction p as [|c p IH]; intros s; simpl; [naive_solver|].
  rewrite matches_Seq. setoid_rewrite matches_Lit. setoid_rewrite IH.
  naive_solver.
Qed.

(** [.*] and [.*?] match the strings the dot accepts throughout. *)
Lemma matches_star_dot g s :
  matches fl (Star g Dot) s ↔ Forall (λ c, dot_ok fl c = true) s.
Proof.
  split.
  - intros Hm. remember (Star g Dot) as r eqn:Hr.
    induction Hm as [| | | | |g' r' s1 s2 H1 _ Hne H2 IH]; simplify_eq; [done|].
    apply matches_Dot in H1 as (c & -> & Hc). constructor; auto.
  - induction 1 as [|c s Hc _ IH]; [constructor|].
    apply (matches_star_cons _ _ _ [c]); [by constructor|done|done].
Qed.

End language.

(** ** Main results *)

(** The continuation of a match of the whole string. *)
Definition at_end : cont := λ rest, if rest is [] then Some rest else None.

(** [re.fullmatch(r, s) is not None]. *)
Definition fullmatch (fl : flags) (r : regex) (s : str) : bool :=
  bool_decide (is_Some (match_here fl r s at_end)).

(** C31: the backtracking engine decides the language of the pattern: it
    finds a match of the whole string exactly when the string is in the
    language, for every pattern, greedy or lazy, with or without [DOTALL]. *)
Theorem match_here_correct fl r s : fullmatch fl r s = true ↔ matches fl r s.
Proof.
  unfold fullmatch. rewrite bool_decide_eq_true. split.
  - intros [res (s1 & s2 & -> & Hm & Hk)%match_here_sound].
    destruct s2; [|done]. by rewrite app_nil_r.
  - intros Hm. rewrite <-(app_nil_r s). by apply match_here_complete.
Qed.

(** C32: the fuel of [re_sub] is enough: with any larger fuel the loop of
    [sub_go] computes the same string, so [re_sub] is the result of the
    loop run to its end. *)
Theorem re_sub_fuel_enough fl r repl s n :
  sub_go fl r repl (2 * length s + 2 + n) s false = re_sub fl r repl s.
Proof. apply sub_go_fuel; unfold sub_measure; lia. Qed.

(** The loop of [re_sub] with its fuel erased: at a position where the
    pattern matches, the replacement is emitted and the scan resumes behind
    the match (an empty match obliges the next one to advance); elsewhere
    one character is copied. *)
Lemma re_sub_leftmost fl r repl s :
  re_sub fl r repl s =
    match match_at fl r s false with
    | Some rest =>
        repl ++ sub_from fl r repl rest (bool_decide (length rest = length s))
    | None =>
        match s with
        | [] => []
        | c :: s' => c :: re_sub fl r repl s'
        end
    end.
Proof.
  destruct (match_at fl r s false) as [rest|] eqn:Hm.
  - by apply re_sub_match.
  - destruct s as [|c s]; [by apply sub_from_nil|by apply re_sub_no_match].
Qed.

(** On text the dot accepts, the lazy star hands the shortest rest
    first to its continuation and the greedy star the longest first: [.*?]
    followed by [k] succeeds at the first suffix where [k] does, [.*] at the
    last. *)
Theorem lazy_star_shortest fl k s :
  Forall (λ c, dot_ok fl c = true) s →
  match_here fl (Star false Dot) s k = first_suffix k s ∧
  match_here fl (Star true Dot) s k = last_suffix k s.
Proof.
  intros Hs. rewrite !match_here_Star.
  split; [by apply lazy_dot_star|by apply greedy_dot_star].
Qed.

Lemma lazy_star_shortest_witness :
  match_here DOTALL (Star false Dot) [97; 10; 98] Some = first_suffix Some [97; 10; 98] ∧
  match_here DOTALL (Star true Dot) [97; 10; 98] Some = last_suffix Some [97; 10; 98].
Proof. apply lazy_star_shortest. by repeat constructor. Defined.

(** The two stars on one input: the lazy one consumes nothing, the greedy
    one everything. *)
Example star_lazy_greedy :
  match_here DOTALL (Star false Dot) [97; 10; 98] Some = Some [97; 10; 98] ∧
  match_here DOTALL (Star true Dot) [97; 10; 98] Some = Some [] ∧
  match_here no_flags (Star true Dot) [97; 10; 98] Some = Some [10; 98].
Proof. done. Qed.
