(* ===== verification/Prompt.v ===== *)
(** * Prompt: [create_humanization_prompt] (lines 36-88)

    The method builds a dictionary of six style templates, looks the
    requested style up with the template of "conversational" as the
    default, and frames the user's text with it in an f-string.

    - [style_prompts] is the dictionary literal of lines 38-81, built by
      [dict_literal] in the order Python evaluates it.
    - [getitem] and [dict_get] are the subscript [d[k]], which raises
      [KeyError], and [d.get(k, default)], which does not.  The default is
      evaluated first, as Python evaluates arguments.
    - [base_prompt] is line 82 as written: the subscript
      [style_prompts["conversational"]], which may raise, then [get].
    - [resolve] is the "template resolver" of the specification, a total
      function that line 82 is compared with ([base_prompt_ok]).
    - [create_humanization_prompt] is the method, and
      [create_humanization_prompt_call] a call of it that may leave
      [style] out.

    The main results: the method never raises and returns template, frame
    and text ([create_prompt_shape]); line 82 never raises and answers
    with the template of "conversational" exactly for that key and for the
    strings that are no key ([resolve_fallback]); a key resolves to its own
    template ([resolve_own_template]); the templates are non-empty and pairwise
    distinct ([templates_distinct_nonempty]); template and text can be read
    back from the prompt ([create_prompt_text_recoverable]). *)

From stdpp Require Import strings gmap.
From S2P Require Import Prelude PyStr.

(** ** The templates (lines 39-79), character for character *)

Definition conversational_prompt : str :=
  lit "Transform the following text to sound more conversational and human-like:
- Use natural speech patterns
- Add appropriate contractions (don't, won't, can't)
- Include casual transitions and connectors
- Make it sound like someone is actually talking
- Keep the core meaning intact".

Definition professional_prompt : str :=
  lit "Rewrite the following text to sound more professional yet human:
- Use polished but natural language
- Maintain professionalism while adding warmth
- Include appropriate business-friendly expressions
- Make it sound like an expert speaking naturally
- Keep the technical accuracy intact".

Definition friendly_prompt : str :=
  lit "Transform the following text to sound more friendly and approachable:
- Use warm, welcoming language
- Add encouraging phrases where appropriate
- Make it sound like a helpful friend explaining something
- Include empathetic expressions
- Keep the information accurate and helpful".

Definition storytelling_prompt : str :=
  lit "Rewrite the following text in a storytelling style:
- Use narrative elements where appropriate
- Add descriptive language and examples
- Make it engaging and relatable
- Include personal touches and anecdotes if suitable
- Maintain the factual content".

Definition layman_terms_prompt : str :=
  lit "Rewrite the following text in simple, layman-friendly language:
- Avoid technical terms and jargon
- Use everyday examples or analogies
- Break down complex ideas into plain language
- Use short, clear sentences
- Make it easy for someone with no background knowledge to understand".

Definition indian_english_prompt : str :=
  lit "Rewrite the following text in Indian English:
- Use sentence structures common in Indian usage
- Include polite and respectful expressions (e.g., 'kindly', 'please do the needful') where suitable
- Reflect a slightly formal but approachable tone
- Use Indian expressions or culturally familiar terms where appropriate
- Keep the original meaning intact while sounding locally natural".

(** The dictionary literal, in source order. *)
Definition style_items : list (str * str) :=
  [(lit "conversational", conversational_prompt);
   (lit "professional", professional_prompt);
   (lit "friendly", friendly_prompt);
   (lit "storytelling", storytelling_prompt);
   (lit "layman_terms", layman_terms_prompt);
   (lit "indian_english", indian_english_prompt)].

(** ** Dictionaries *)

(** A dictionary literal inserts its items from left to right, so that of
    two items with one key the later stays. *)
Definition dict_literal (items : list (str * str)) : gmap str str :=
  foldl (λ d kv, <[kv.1 := kv.2]> d) ∅ items.

(** [d.get(k, dflt)] *)
Definition dict_get (d : gmap str str) (k dflt : str) : str :=
  default dflt (d !! k).

(** [d[k]], which raises [KeyError(k)] when [k] is absent. *)
Definition getitem `{PyExn} (d : gmap str str) (k : str) : result exn str :=
  of_option (KeyError k) (d !! k).

(** ** The method *)

Definition style_prompts : gmap str str := dict_literal style_items.

(** The keys the selector of [main] offers. *)
Definition style_keys : list str := style_items.*1.
Definition templates : list str := style_items.*2.

(** The template resolver of the specification: the template of a style
    that is a key, the template of "conversational" for any other string.
    It is the reference that line 82 is compared with ([base_prompt_ok]),
    not a translation of the line. *)
Definition resolve (style : str) : str :=
  dict_get style_prompts style conversational_prompt.

(** The f-string of lines 83-88 after the template. *)
Definition frame (text : str) : str :=
  lit "

Original text:
" ++ text ++ lit "

Humanized version:".

(** Line 82, [style_prompts.get(style, style_prompts["conversational"])].
    The default is an argument of [get]: the subscript is evaluated first,
    whatever the style, and raises [KeyError] if the dictionary has no such
    key. *)
Definition base_prompt `{PyExn} (style : str) : result exn str :=
  dflt ← getitem style_prompts (lit "conversational");
  mret (dict_get style_prompts style dflt).

(** Lines 36-88. *)
Definition create_humanization_prompt `{PyExn} (text style : str)
    : result exn str :=
  template ← base_prompt style;
  mret (template ++ frame text).

(** The default of the parameter [style] (line 36; line 90 repeats it). *)
Definition style_default : str := lit "conversational".

(** A call of the method as Python binds its arguments: a [style] left
    out is the default of line 36. *)
Definition create_humanization_prompt_call `{PyExn} (text : str)
    (style : option str) : result exn str :=
  create_humanization_prompt text (default style_default style).

(** ** Dictionary literals *)

Section dict.
Implicit Types (items : list (str * str)) (k v : str).

Lemma dict_literal_snoc items k v :
  dict_literal (items ++ [(k, v)]) = <[k := v]> (dict_literal items).
Proof. unfold dict_literal. by rewrite foldl_app. Qed.

(** With distinct keys the literal holds exactly its items. *)
Lemma dict_literal_lookup items k v :
  NoDup items.*1 → dict_literal items !! k = Some v ↔ (k, v) ∈ items.
Proof.
  induction items as [|[k' v'] items IH] using rev_ind; intros Hnd.
  - unfold dict_literal. simpl. rewrite lookup_empty, elem_of_nil. naive_solver.
  - rewrite fmap_app in Hnd. apply NoDup_app in Hnd as (Hnd & Hfresh & _).
    rewrite dict_literal_snoc, elem_of_app, list_elem_of_singleton.
    destruct (decide (k' = k)) as [->|Hne].
    + rewrite lookup_insert_eq. split; [intros [= ->]; by right|].
      intros [Hin|[= ->]]; [|done]. exfalso. eapply Hfresh.
      * apply list_elem_of_fmap. by exists (k, v).
      * simpl. apply list_elem_of_singleton. done.
    + rewrite lookup_insert_ne by done. rewrite IH by done. naive_solver.
Qed.

Lemma dict_literal_lookup_None items k :
  dict_literal items !! k = None ↔ k ∉ items.*1.
Proof.
  induction items as [|[k' v'] items IH] using rev_ind.
  - unfold dict_literal. simpl. rewrite lookup_empty, elem_of_nil. naive_solver.
  - rewrite dict_literal_snoc, fmap_app, elem_of_app. simpl.
    rewrite list_elem_of_singleton. destruct (decide (k' = k)) as [->|Hne].
    + rewrite lookup_insert_eq. naive_solver.
    + rewrite lookup_insert_ne by done. rewrite IH. naive_solver.
Qed.

Lemma dict_get_Some d k dflt v : d !! k = Some v → dict_get d k dflt = v.
Proof. unfold dict_get. by intros ->. Qed.

Lemma dict_get_None d k dflt : d !! k = None → dict_get d k dflt = dflt.
Proof. unfold dict_get. by intros ->. Qed.

End dict.

(** ** The style dictionary *)

Lemma style_keys_NoDup : NoDup style_keys.
Proof. compute_done. Qed.

Lemma style_keys_eq :
  style_keys = lit <$> ["conversational"; "professional"; "friendly";
                        "storytelling"; "layman_terms"; "indian_english"]%string.
Proof. reflexivity. Qed.

Lemma style_prompts_lookup k v :
  style_prompts !! k = Some v ↔ (k, v) ∈ style_items.
Proof. apply dict_literal_lookup, style_keys_NoDup. Qed.

Lemma style_prompts_conversational :
  style_prompts !! lit "conversational" = Some conversational_prompt.
Proof. apply style_prompts_lookup. by left. Qed.

(** The templates are six distinct non-empty strings. *)
Lemma templates_NoDup : NoDup templates.
Proof. compute_done. Qed.

Lemma templates_nonempty : Forall (λ t, t ≠ []) templates.
Proof. compute_done. Qed.

Lemma templates_length : length <$> templates = [280; 286; 280; 251; 281; 383]%nat.
Proof. by vm_compute. Qed.

(** No template begins with another: where one ends can be read off a
    text that starts with it. *)
Lemma templates_prefix_free :
  Forall (λ t1, Forall (λ t2, t1 `prefix_of` t2 → t1 = t2) templates) templates.
Proof. compute_done. Qed.

Lemma templates_prefix_free_app t1 t2 r1 r2 :
  t1 ∈ templates → t2 ∈ templates → t1 ++ r1 = t2 ++ r2 → t1 = t2.
Proof.
  intros H1 H2 Heq. pose proof templates_prefix_free as Hpf.
  rewrite Forall_forall in Hpf.
  pose proof (Hpf _ H1) as Hp1. pose proof (Hpf _ H2) as Hp2.
  rewrite Forall_forall in Hp1, Hp2.
  destruct (prefix_weak_total t1 t2 (t1 ++ r1)) as [Hp|Hp];
    [by eexists|rewrite Heq; by eexists|by apply Hp1|symmetry; by apply Hp2].
Qed.

(** ** The resolver *)

Lemma resolve_known k v : (k, v) ∈ style_items → resolve k = v.
Proof. intros Hin. by apply dict_get_Some, style_prompts_lookup. Qed.

Lemma resolve_key k : k ∈ style_keys → (k, resolve k) ∈ style_items.
Proof.
  intros ([k' v] & -> & Hin)%list_elem_of_fmap. simpl.
  by rewrite (resolve_known _ _ Hin).
Qed.

(** A style the dictionary does not have resolves as "conversational". *)
Lemma resolve_unknown style :
  style ∉ style_keys → resolve style = resolve (lit "conversational").
Proof.
  intros Hk. unfold resolve at 1.
  rewrite dict_get_None by by apply dict_literal_lookup_None.
  symmetry. apply resolve_known. by left.
Qed.

(** The resolver is total and answers with one of the six templates. *)
Lemma resolve_in_templates style : resolve style ∈ templates.
Proof.
  unfold resolve, dict_get. destruct (style_prompts !! style) as [v|] eqn:Hv.
  - apply style_prompts_lookup in Hv. apply list_elem_of_fmap. by exists (style, v).
  - by left.
Qed.

Lemma resolve_nonempty style : resolve style ≠ [].
Proof.
  pose proof templates_nonempty as Hne. rewrite Forall_forall in Hne.
  apply Hne, resolve_in_templates.
Qed.

(** Each key resolves to its own template. *)
Lemma resolve_keys : resolve <$> style_keys = templates.
Proof.
  unfold style_keys, templates. rewrite <-list_fmap_compose.
  apply list_fmap_ext. intros i [k v] Hi. simpl.
  apply resolve_known. by eapply list_elem_of_lookup_2.
Qed.

(** Different keys have different templates: the resolver is injective on
    the known styles. *)
Lemma resolve_inj_known k1 k2 :
  k1 ∈ style_keys → k2 ∈ style_keys → resolve k1 = resolve k2 → k1 = k2.
Proof.
  intros (i & Hi)%list_elem_of_lookup_1 (j & Hj)%list_elem_of_lookup_1 Heq.
  assert (templates !! i = Some (resolve k1)) as Hti
    by (rewrite <-resolve_keys, list_lookup_fmap, Hi; done).
  assert (templates !! j = Some (resolve k2)) as Htj
    by (rewrite <-resolve_keys, list_lookup_fmap, Hj; done).
  rewrite Heq in Hti.
  assert (i = j) as -> by (eapply NoDup_lookup; eauto using templates_NoDup).
  congruence.
Qed.

(** ** The prompt *)

#[export] Instance frame_inj : Inj (=) (=) frame.
Proof.
  intros t1 t2 Heq. unfold frame in Heq.
  by apply app_inv_head, app_inv_tail in Heq.
Qed.

Lemma frame_length text : length (frame text) = (length text + 37)%nat.
Proof. unfold frame. rewrite !length_app. simpl. lia. Qed.

Section create.
Context `{PyExn}.

(** The method never raises: the default key is in the dictionary.  Its
    value is the template followed by the framed text. *)
(** Line 82 never raises, the key of the default being in the dictionary,
    and computes the resolver of the specification. *)
Lemma base_prompt_ok style : base_prompt style = Ok (resolve style).
Proof. unfold base_prompt, getitem. by rewrite style_prompts_conversational. Qed.

Lemma create_prompt_ok text style :
  create_humanization_prompt text style = Ok (resolve style ++ frame text).
Proof. unfold create_humanization_prompt. by rewrite base_prompt_ok. Qed.

(** Leaving [style] out is asking for "conversational", and so is any
    style the dictionary does not have. *)
Lemma create_prompt_call_default text :
  create_humanization_prompt_call text None
  = Ok (conversational_prompt ++ frame text).
Proof.
  unfold create_humanization_prompt_call. simpl. rewrite create_prompt_ok.
  by rewrite (resolve_known _ conversational_prompt) by by left.
Qed.

Lemma create_prompt_length text style :
  ∃ p, create_humanization_prompt text style = Ok p ∧
       length p = (length (resolve style) + length text + 37)%nat.
Proof.
  eexists. split; [apply create_prompt_ok|].
  rewrite length_app, frame_length. lia.
Qed.

(** An unknown style builds the prompt of "conversational". *)
Lemma create_prompt_unknown text style :
  style ∉ style_keys →
  create_humanization_prompt text style
    = create_humanization_prompt text (lit "conversational").
Proof. intros Hk. by rewrite !create_prompt_ok, resolve_unknown. Qed.

End create.

(** ** Main results *)

Section results.
Context `{PyExn}.
Implicit Types (text style : str).

(** C6: [create_humanization_prompt] never raises, whatever the text and
    the style.  It returns one of the six templates, then ["Original
    text:"] between blank lines, the text unchanged, and ["Humanized
    version:"]; the template is the one the dictionary has for the style,
    and the template of "conversational" for a style it has not
    (lines 36-88). *)
Theorem create_prompt_shape text style :
  ∃ template,
    create_humanization_prompt text style
    = Ok (template ++ lit "

Original text:
" ++ text ++ lit "

Humanized version:") ∧
    template ∈ templates ∧
    (∀ v, (style, v) ∈ style_items → template = v) ∧
    (style ∉ style_keys → template = conversational_prompt).
Proof.
  exists (resolve style). split_and!.
  - apply create_prompt_ok.
  - apply resolve_in_templates.
  - intros v Hv. by apply resolve_known.
  - intros Hk. rewrite resolve_unknown by done. apply resolve_known. by left.
Qed.

(** C7: the lookup of line 82 is total and falls back on "conversational"
    only.  For every string the expression
    [style_prompts.get(style, style_prompts["conversational"])] returns a
    template: the subscript that computes the default never raises
    [KeyError].  The template is the one of "conversational" exactly when
    the style is none of the six keys or is "conversational" itself: the
    fallback catches every unknown style, and no other key shares the
    template. *)
Theorem resolve_fallback style :
  ∃ template,
    base_prompt style = Ok template ∧
    (template = conversational_prompt
     ↔ style ∉ style_keys ∨ style = lit "conversational").
Proof.
  exists (resolve style). split; [apply base_prompt_ok|].
  assert (resolve (lit "conversational") = conversational_prompt) as Hconv
    by (apply resolve_known; by left).
  rewrite <-Hconv. split.
  - intros Heq. destruct (decide (style ∈ style_keys)) as [Hk|Hk]; [right|by left].
    apply resolve_inj_known; [done|by left|done].
  - intros [Hk| ->]; [by apply resolve_unknown|done].
Qed.

(** A style the selector does not offer, and the six it offers. *)
Example base_prompt_styles :
  base_prompt (H := message_exn) (lit "formal") = Ok conversational_prompt ∧
  base_prompt (H := message_exn) <$> style_keys = Ok <$> templates.
Proof. split; reflexivity. Qed.

(** Two different keys never resolve to the same template. *)
Corollary resolve_own_template :
  ∀ k1 k2, k1 ∈ style_keys → k2 ∈ style_keys → resolve k1 = resolve k2 → k1 = k2.
Proof. apply resolve_inj_known. Qed.

(** C38: the dictionary has six keys, all different; they resolve, in the
    order of the dictionary, to the six templates, which are all different
    and none empty. *)
Theorem templates_distinct_nonempty :
  length style_keys = 6%nat ∧ NoDup style_keys ∧
  resolve <$> style_keys = templates ∧
  NoDup templates ∧ Forall (λ t, t ≠ []) templates.
Proof.
  split_and!; [done|apply style_keys_NoDup|apply resolve_keys|apply templates_NoDup
              |apply templates_nonempty].
Qed.

(** C39: template and text can be read back from the prompt: two calls
    that build the same prompt used the same template and the same text.
    No template is a prefix of another, and the frame is fixed. *)
Theorem create_prompt_text_recoverable text1 style1 text2 style2 :
  create_humanization_prompt text1 style1
    = create_humanization_prompt text2 style2 →
  resolve style1 = resolve style2 ∧ text1 = text2.
Proof.
  rewrite !create_prompt_ok. intros [= Heq].
  assert (resolve style1 = resolve style2) as Hr
    by (eapply templates_prefix_free_app; eauto using resolve_in_templates).
  split; [done|]. rewrite Hr in Heq. by apply app_inv_head, (inj frame) in Heq.
Qed.

End results.

Lemma create_prompt_text_recoverable_witness :
  resolve (lit "formal") = resolve (lit "conversational") ∧ lit "hi" = lit "hi".
Proof.
  apply (create_prompt_text_recoverable (H := message_exn)). reflexivity.
Defined.
