(* ===== verification/Sanitize.v ===== *)
(** * Sanitize: the post-processing of line 117

    [re.sub(r"<think>.*?</think>", "", response.content, flags=re.DOTALL).strip()]

    - [think_pattern] is the pattern; [think_pattern_language] checks that
      the pattern string of the source parses to it and describes what it
      matches.
    - [remove_think] is the call of [re.sub], on the engine of [Regex];
      [clean_response] adds [.strip()].
    - [scan] is a direct scanner for the same task, written without the
      engine: at a position where a span starts it skips the span, otherwise
      it copies the character.  [sub_from_think_scan] proves that the engine
      computes what the scanner computes, from any position and under
      either obligation to advance.

    From this: removal of the leftmost shortest spans
    ([remove_think_span], [remove_think_cons], [remove_think_before_open]);
    text without a closing marker is unchanged ([remove_think_no_close]), so
    an unclosed span stays; the result is the input with parts left out
    ([clean_response_sublist]) and has no outer whitespace.  The main
    results at the end state the behaviour of the sanitizer on complete
    spans, on unclosed ones, its canonical form, that it removes spans and
    nothing else ([only_spans_removed], [remove_think_spans_only]), and
    when a second pass changes nothing and when it does: exactly when a
    complete span ([has_span]) is left ([clean_response_idempotent_iff],
    [clean_response_idempotence_fails]). *)

From stdpp Require Import strings.
From S2P Require Import Prelude PyStr Regex.

(** ** The pattern and the call *)

Definition think_open : str := lit "<think>".
Definition think_close : str := lit "</think>".

(** [<think>.*?</think>] as the parser of [re] reads it. *)
Definition think_pattern : regex :=
  seq_lits think_open (Seq (Star false Dot) (seq_lits think_close Eps)).

Definition remove_think (content : str) : str :=
  re_sub DOTALL think_pattern [] content.

(** The value of [cleaned_response]. *)
Definition clean_response (content : str) : str := strip (remove_think content).

(** ** A direct scanner *)

(** [span_end s]: when a span starts at the head of [s], its length: the
    opening marker, the text up to the first closing marker, and the
    closing marker. *)
Definition span_end (s : str) : option nat :=
  if startswith think_open s
  then (λ i, length think_open + i + length think_close)%nat
         <$> find think_close (drop (length think_open) s)
  else None.

(** [scan skip s]: drop [skip] characters, then copy characters, skipping
    each span met. *)
Fixpoint scan (skip : nat) (s : str) : str :=
  match s with
  | [] => []
  | c :: s' =>
      match skip with
      | S k => scan k s'
      | O =>
          match span_end s with
          | Some n => scan (n - 1) s'
          | None => c :: scan 0 s'
          end
      end
  end.


(** A complete span in a text: an opening marker with a closing marker
    somewhere behind it. *)
Definition has_span (t : str) : Prop :=
  ∃ pre body rest, t = pre ++ think_open ++ body ++ think_close ++ rest.

(** [only_spans_removed s t]: [t] is [s] with spans left out, each from an
    opening marker to the first closing marker behind it, and nothing else
    is missing, added or moved. *)
Inductive only_spans_removed : str → str → Prop :=
  | removed_nil : only_spans_removed [] []
  | removed_keep c s t :
      only_spans_removed s t → only_spans_removed (c :: s) (c :: t)
  | removed_span body s t :
      find think_close body = None →
      only_spans_removed s t →
      only_spans_removed (think_open ++ body ++ think_close ++ s) t.

(** ** The engine on the pattern *)

Section engine.
Implicit Types (s t rest : str) (k : str → option str).

Lemma dotall_ok s : Forall (λ c, dot_ok DOTALL c = true) s.
Proof. by apply Forall_true. Qed.

(** The lazy star followed by a literal stops at the first occurrence of
    the literal, when the continuation accepts what follows it. *)
Lemma first_suffix_find sub k t :
  (∀ x, x `suffix_of` t → startswith sub x = true →
     k (drop (length sub) x) = Some (drop (length sub) x)) →
  first_suffix (λ x, if startswith sub x then k (drop (length sub) x) else None) t
  = (λ i, drop (i + length sub) t) <$> find sub t.
Proof.
  induction t as [|c t IH]; intros Hk; simpl.
  - destruct (startswith sub []) eqn:Hs; [|done]. by rewrite Hk.
  - destruct (startswith sub (c :: t)) eqn:Hs; [by rewrite Hk|]. simpl.
    rewrite IH by (intros x Hx; apply Hk; by apply suffix_cons_r).
    by destruct (find sub t).
Qed.

Lemma span_end_bounds s n :
  span_end s = Some n → (15 ≤ n ≤ length s)%nat.
Proof.
  unfold span_end. destruct (startswith think_open s) eqn:Hs; [|done].
  apply startswith_drop, (f_equal length) in Hs. rewrite length_app in Hs.
  destruct (find _ _) as [i|] eqn:Hf; [|done]. intros [= <-].
  apply find_Some_occurs in Hf as (b & Hb & Hi). apply (f_equal length) in Hb.
  rewrite !length_app, length_take in Hb. simpl in *. lia.
Qed.

(** One attempt of the engine at a position succeeds exactly when a span
    starts there, and consumes the span. *)
Lemma match_at_think s adv :
  match_at DOTALL think_pattern s adv = (λ n, drop n s) <$> span_end s.
Proof.
  unfold match_at, think_pattern, span_end. rewrite match_here_seq_lits.
  destruct (startswith think_open s) eqn:Hs; [|done].
  rewrite match_here_Seq, match_here_Star, lazy_dot_star by auto using dotall_ok.
  set (k := λ rest : str, if adv && bool_decide (length rest = length s)
                          then None else Some rest).
  rewrite (first_suffix_ext _ (λ x, if startswith think_close x
    then k (drop (length think_close) x) else None))
    by (intros x; apply match_here_seq_lits).
  rewrite first_suffix_find.
  - destruct (find _ _) as [i|]; [|done]. simpl. f_equal.
    rewrite drop_drop. f_equal; lia.
  - intros x Hx _. unfold k. rewrite andb_false_intro2; [done|].
    apply bool_decide_eq_false. apply suffix_length in Hx.
    rewrite length_drop in *. apply startswith_drop in Hs.
    apply (f_equal length) in Hs. rewrite length_app in Hs. simpl in *. lia.
Qed.

End engine.

(** ** The scanner *)

Section scan.
Implicit Types (s t body rest : str) (n : nat).

Lemma scan_skip n s : scan n s = scan 0 (drop n s).
Proof.
  revert n. induction s as [|c s IH]; intros [|n]; try done. simpl. apply IH.
Qed.

Lemma scan_span s n : span_end s = Some n → scan 0 s = scan 0 (drop n s).
Proof.
  intros Hn. pose proof (span_end_bounds _ _ Hn) as Hb.
  destruct s as [|c s]; [simpl in Hb; lia|]. cbn [scan]. rewrite Hn, scan_skip.
  destruct n as [|n]; [lia|]. simpl. by rewrite Nat.sub_0_r.
Qed.

Lemma scan_cons c s : span_end (c :: s) = None → scan 0 (c :: s) = c :: scan 0 s.
Proof. intros Hn. cbn [scan]. by rewrite Hn. Qed.

(** The engine and the scanner agree, from every position and whatever the
    obligation to advance: a span is never empty. *)
Lemma sub_from_think_scan s adv :
  sub_from DOTALL think_pattern [] s adv = scan 0 s.
Proof.
  revert adv. induction s as [s IH] using (induction_ltof1 _ length).
  unfold ltof in IH. intros adv.
  destruct (span_end s) as [n|] eqn:Hn.
  - rewrite (sub_from_match _ _ _ _ _ (drop n s))
      by (by rewrite match_at_think, Hn).
    apply span_end_bounds in Hn as Hb. simpl.
    rewrite IH by (rewrite length_drop; lia). symmetry. by apply scan_span.
  - destruct s as [|c s].
    + apply sub_from_nil. by rewrite match_at_think, Hn.
    + rewrite sub_from_no_match by (by rewrite match_at_think, Hn).
      rewrite IH by (simpl; lia). symmetry. by apply scan_cons.
Qed.

End scan.

(** [to_scan H] turns the substitutions of the goal into runs of the
    scanner, by the equation [H] of the two. *)
Ltac to_scan H := unfold remove_think, re_sub; rewrite ?H.

(** ** What [remove_think] removes *)

Section remove.
Implicit Types (s body rest : str).

Lemma remove_think_nil : remove_think [] = [].
Proof. done. Qed.

(** Where no span starts, the character is kept. *)
Lemma remove_think_cons c s :
  span_end (c :: s) = None → remove_think (c :: s) = c :: remove_think s.
Proof. to_scan sub_from_think_scan. apply scan_cons. Qed.

(** A span at the head is removed up to the first closing marker: the
    shortest span, not the longest. *)
Lemma remove_think_span body rest :
  find think_close (body ++ think_close ++ rest) = Some (length body) →
  remove_think (think_open ++ body ++ think_close ++ rest) = remove_think rest.
Proof.
  intros Hf. to_scan sub_from_think_scan.
  rewrite (scan_span _ (length think_open + length body + length think_close)).
  - f_equal. rewrite <-!Nat.add_assoc, <-!drop_drop.
    rewrite (drop_app_length think_open), (drop_app_length body).
    apply (drop_app_length think_close).
  - unfold span_end. rewrite startswith_app, drop_app_length, Hf. done.
Qed.

(** Text without a closing marker is returned as it is. *)
Lemma remove_think_no_close s : find think_close s = None → remove_think s = s.
Proof.
  intros Hf. induction s as [|c s IH]; [done|].
  rewrite remove_think_cons.
  - f_equal. apply IH. by apply (find_None_drop _ (c :: s) 1).
  - unfold span_end. destruct (startswith think_open (c :: s)); [|done].
    by rewrite find_None_drop.
Qed.

(** Likewise text without an opening marker. *)
Lemma remove_think_no_open s : find think_open s = None → remove_think s = s.
Proof.
  intros Hf. induction s as [|c s IH]; [done|].
  rewrite remove_think_cons.
  - f_equal. apply IH. by apply (find_None_drop _ (c :: s) 1).
  - unfold span_end. destruct (startswith think_open (c :: s)) eqn:Hs; [|done].
    apply startswith_prefix in Hs as [k Hk].
    by destruct (proj1 (find_None _ _) Hf [] k).
Qed.

(** The closing marker does not overlap the opening one: an opening marker
    in front adds no occurrence of the closing marker. *)
Lemma find_close_open s :
  find think_close (think_open ++ s) = None ↔ find think_close s = None.
Proof.
  split; [apply find_None_app_r|]. intros Hf. simpl. by rewrite Hf.
Qed.

(** An opening marker that is never closed stays, with what follows it. *)
Lemma remove_think_unclosed s :
  find think_close s = None → remove_think (think_open ++ s) = think_open ++ s.
Proof. intros Hf. by apply remove_think_no_close, find_close_open. Qed.

(** Characters in front of which no span starts are kept. *)
Lemma remove_think_keep pre s :
  (∀ x y, pre = y ++ x → x ≠ [] → startswith think_open (x ++ s) = false) →
  remove_think (pre ++ s) = pre ++ remove_think s.
Proof.
  induction pre as [|c pre IH]; intros Hpre; [done|]. simpl.
  rewrite remove_think_cons.
  - f_equal. apply IH. intros x y -> Hx. by apply (Hpre x (c :: y)).
  - unfold span_end. change (c :: pre ++ s) with ((c :: pre) ++ s).
    by rewrite (Hpre (c :: pre) []).
Qed.

(** The opening marker has no border: an occurrence that starts before
    another one lies before it entirely. *)
Lemma think_open_straddle x s :
  x ≠ [] → startswith think_open (x ++ think_open ++ s) = true →
  ∃ k, x = think_open ++ k.
Proof.
  intros Hx [k Hk]%startswith_prefix.
  do 7 (destruct x as [|? x]; simplify_eq/=). by exists x.
Qed.

(** The text before the first opening marker is kept. *)
Lemma remove_think_before_open pre s :
  find think_open pre = None →
  remove_think (pre ++ think_open ++ s) = pre ++ remove_think (think_open ++ s).
Proof.
  intros Hf. apply remove_think_keep. intros x y -> Hx.
  destruct (startswith think_open _) eqn:Hs; [|done].
  apply think_open_straddle in Hs as [k ->]; [|done].
  by destruct (proj1 (find_None _ _) Hf y k).
Qed.

Lemma remove_think_sublist s : remove_think s `sublist_of` s.
Proof. apply re_sub_sublist. Qed.

(** The text in front of the first occurrence holds none. *)
Lemma find_take_None sub s i :
  sub ≠ [] → find sub s = Some i → find sub (take i s) = None.
Proof.
  intros Hsub Hf. apply find_None. intros a b Heq.
  assert (length a < i)%nat as Ha.
  { apply (f_equal length) in Heq. rewrite !length_app, length_take in Heq.
    destruct sub; [done|]. simpl in *. lia. }
  pose proof (find_Some_first _ _ _ _ Hf Ha) as Hs.
  rewrite <-(take_drop i s), Heq, <-!(assoc_L (++)), drop_app_length in Hs.
  by rewrite startswith_app in Hs.
Qed.

(** A span at the head, taken apart. *)
Lemma span_end_split s n :
  span_end s = Some n →
  ∃ body, s = think_open ++ body ++ think_close ++ drop n s ∧
          find think_close body = None.
Proof.
  unfold span_end. destruct (startswith think_open s) eqn:Hs; [|done].
  apply startswith_drop in Hs.
  destruct (find _ _) as [i|] eqn:Hf; [|done]. intros [= <-].
  exists (take i (drop (length think_open) s)).
  split; [|by apply find_take_None].
  apply find_Some_occurs in Hf as Hocc. destruct Hocc as (b & Hb & Hi).
  rewrite Hs at 1. f_equal. rewrite Hb at 1. do 2 f_equal.
  transitivity (drop (length think_close) (drop i (drop (length think_open) s))).
  - rewrite Hb at 1. rewrite drop_app_length' by (rewrite length_take; lia).
    by rewrite drop_app_length.
  - rewrite !drop_drop. by f_equal.
Qed.

(** Where a complete span starts, the scanner finds one. *)
Lemma span_end_span body rest :
  is_Some (span_end (think_open ++ body ++ think_close ++ rest)).
Proof.
  unfold span_end. rewrite startswith_app, drop_app_length.
  destruct (find_occurs think_close body rest) as (i & -> & _). by eexists.
Qed.

(** What is removed are spans, each up to the first closing marker. *)
Lemma remove_think_removed s : only_spans_removed s (remove_think s).
Proof.
  to_scan sub_from_think_scan.
  induction s as [s IH] using (induction_ltof1 _ length). unfold ltof in IH.
  destruct (span_end s) as [n|] eqn:Hn.
  - rewrite (scan_span _ _ Hn). apply span_end_bounds in Hn as Hb.
    destruct (span_end_split _ _ Hn) as (body & Hs & Hbody). rewrite Hs at 1.
    apply removed_span; [done|]. apply IH. rewrite length_drop. lia.
  - destruct s as [|c s]; [constructor|]. rewrite scan_cons by done.
    constructor. apply IH. simpl. lia.
Qed.

(** A text without a complete span is returned as it is; a text with one
    gets shorter. *)
Lemma has_span_cons c t : has_span t → has_span (c :: t).
Proof. intros (pre & body & rest & ->). by exists (c :: pre), body, rest. Qed.

Lemma has_span_tail c t :
  has_span (c :: t) → span_end (c :: t) = None → has_span t.
Proof.
  intros ([|c' pre] & body & rest & Heq) Hn.
  - rewrite app_nil_l in Heq. destruct (span_end_span body rest) as [n Hn'].
    rewrite <-Heq in Hn'. congruence.
  - simplify_eq/=. by exists pre, body, rest.
Qed.

Lemma remove_think_no_span t : ¬ has_span t → remove_think t = t.
Proof.
  induction t as [|c t IH]; intros Hno; [done|].
  destruct (span_end (c :: t)) as [n|] eqn:Hn.
  - destruct (span_end_split _ _ Hn) as (body & Hs & _).
    destruct Hno. by exists [], body, (drop n (c :: t)).
  - rewrite remove_think_cons by done. f_equal. apply IH.
    intros Hspan. by apply Hno, has_span_cons.
Qed.

Lemma remove_think_span_lt t :
  has_span t → (length (remove_think t) < length t)%nat.
Proof.
  induction t as [|c t IH]; intros Hspan.
  { destruct Hspan as ([|] & ? & ? & ?); done. }
  destruct (span_end (c :: t)) as [n|] eqn:Hn.
  - apply span_end_bounds in Hn as Hb. revert Hn. to_scan sub_from_think_scan.
    intros Hn. rewrite (scan_span _ _ Hn), <-sub_from_think_scan with (adv := false).
    pose proof (sublist_length _ _ (remove_think_sublist (drop n (c :: t)))) as Hle.
    unfold remove_think, re_sub in Hle. rewrite length_drop in Hle. lia.
  - rewrite remove_think_cons by done. simpl.
    apply Nat.succ_lt_mono in IH; [done|]. by eapply has_span_tail.
Qed.

Lemma remove_think_id_iff t : remove_think t = t ↔ ¬ has_span t.
Proof.
  split; [|apply remove_think_no_span].
  intros Heq Hspan%remove_think_span_lt. rewrite Heq in Hspan. lia.
Qed.

End remove.

(** ** The cleaned response *)

Section clean.
Implicit Types (s : str).

Lemma strip_sublist s : strip s `sublist_of` s.
Proof.
  destruct (strip_decompose s) as (l & r & Hs & _). rewrite Hs at 2.
  apply sublist_inserts_l, sublist_inserts_r. done.
Qed.

(** The cleaned response is the raw response with parts left out: nothing
    is added, reordered or changed. *)
Lemma clean_response_sublist s : clean_response s `sublist_of` s.
Proof.
  unfold clean_response. etrans; [apply strip_sublist|apply remove_think_sublist].
Qed.

Lemma clean_response_length s : length (clean_response s) ≤ length s.
Proof. apply sublist_length, clean_response_sublist. Qed.

(** It neither starts nor ends with whitespace. *)
Lemma clean_response_stripped s : stripped (clean_response s).
Proof. apply strip_stripped. Qed.

(** A response without closing marker is only stripped. *)
Lemma clean_response_no_close s :
  find think_close s = None → clean_response s = strip s.
Proof. intros Hf. unfold clean_response. by rewrite remove_think_no_close. Qed.

(** Cleaning twice is cleaning once when no closing marker is left. *)
Lemma clean_response_idemp s :
  find think_close (clean_response s) = None →
  clean_response (clean_response s) = clean_response s.
Proof.
  intros Hf. rewrite clean_response_no_close by done. apply strip_idemp.
Qed.

End clean.

(** ** Concrete responses *)

(** Two spans: each is removed, and the text between them stays. *)
Example clean_response_two_spans :
  clean_response (lit "<think>a</think> B <think>c</think>D ") = lit "B D".
Proof. reflexivity. Qed.

(** A response cut off inside its reasoning keeps the reasoning. *)
Example clean_response_truncated :
  clean_response (lit "<think>the user wants") = lit "<think>the user wants".
Proof. reflexivity. Qed.

(** A span over several lines is removed because of [re.DOTALL]; without
    the flag the dot stops at the newline and the span stays. *)
Example remove_think_multiline :
  remove_think (lit "<think>a
b</think>c") = lit "c"
  ∧ re_sub no_flags think_pattern [] (lit "<think>a
b</think>c") = lit "<think>a
b</think>c".
Proof. split; reflexivity. Qed.

#[export] Hint Resolve remove_think_sublist strip_sublist : py.

(** ** Main results *)

(** C3: a complete reasoning span is removed together with its markers,
    and the text before it is kept: where [pre] holds no opening marker and
    the first closing marker after the opening one is the one shown, the
    result is [pre] followed by what the rest of the text becomes.  The span
    removed is the shortest one, the match is the leftmost one
    (line 117). *)
Theorem think_span_removed pre body rest :
  find think_open pre = None →
  find think_close (body ++ think_close ++ rest) = Some (length body) →
  remove_think (pre ++ think_open ++ body ++ think_close ++ rest)
  = pre ++ remove_think rest.
Proof.
  intros Hpre Hbody. rewrite remove_think_before_open by done.
  by rewrite remove_think_span.
Qed.

(** The example of the specification, ["A<think>B</think>C"]. *)
Lemma think_span_removed_witness :
  remove_think (lit "A" ++ think_open ++ lit "B" ++ think_close ++ lit "C")
  = lit "A" ++ remove_think (lit "C").
Proof. apply think_span_removed; reflexivity. Defined.

(** C4: [re.sub] with the pattern and the flag of the program computes
    what the one-pass scanner [scan] computes: the backtracking search for
    the closing marker and the rule on empty matches add nothing to a scan
    that skips from an opening marker to the end of the first closing
    marker behind it. *)
Theorem remove_think_is_scan s : remove_think s = scan 0 s.
Proof. by to_scan sub_from_think_scan. Qed.

(** C8: the cleaned response is the span-free text without the whitespace
    around it, and without anything else missing: it neither starts nor ends
    with whitespace, and the span-free text is the cleaned response between
    two runs of whitespace (line 117, [.strip()]). *)
Theorem clean_response_canonical s :
  stripped (clean_response s) ∧
  ∃ l r, remove_think s = l ++ clean_response s ++ r ∧
         blank l = true ∧ blank r = true.
Proof. split; [apply clean_response_stripped|apply strip_decompose]. Qed.

(** C34: the pattern string of line 117 parses to [think_pattern], and
    with [re.DOTALL] the pattern matches exactly the strings that begin with
    the opening marker and end with the closing one, whatever lies between,
    newlines included. *)
Theorem think_pattern_language :
  parse (lit "<think>.*?</think>") = Some think_pattern ∧
  ∀ m, matches DOTALL think_pattern m ↔ ∃ body, m = think_open ++ body ++ think_close.
Proof.
  split; [reflexivity|]. intros m. unfold think_pattern.
  rewrite matches_seq_lits. setoid_rewrite matches_Seq.
  setoid_rewrite matches_seq_lits. setoid_rewrite matches_Eps.
  setoid_rewrite matches_star_dot. split.
  - intros (? & -> & body & ? & -> & _ & ? & -> & ->).
    exists body. by rewrite app_nil_r.
  - intros (body & ->). eexists. split; [done|]. exists body, think_close.
    split_and!; [done|apply dotall_ok|]. exists []. by rewrite app_nil_r.
Qed.

(** C15: cleaning a cleaned response changes nothing when the cleaned
    response holds no closing marker, or no opening one. *)
Theorem clean_response_idempotent_when s :
  find think_close (clean_response s) = None ∨
  find think_open (clean_response s) = None →
  clean_response (clean_response s) = clean_response s.
Proof.
  intros [Hf|Hf]; [by apply clean_response_idemp|].
  unfold clean_response at 1. rewrite remove_think_no_open by done.
  unfold clean_response. apply strip_idemp.
Qed.

Lemma clean_response_idempotent_when_witness :
  clean_response (clean_response (lit " a<think>b</think> c "))
  = clean_response (lit " a<think>b</think> c ").
Proof. apply clean_response_idempotent_when. left. reflexivity. Defined.

(** C35: cleaning is not idempotent.  Removing a span can join the two
    pieces of an opening marker that stood around it, and a second pass
    then removes a span that the first pass created: for every [x], [y] and
    [z] as below, the response ["<thi<think>" x "</think>nk>" y "</think>" z]
    is cleaned to ["<think>" y "</think>" z], and cleaning that leaves [z]
    only.  The specification states the contrary for every response. *)
Theorem clean_response_idempotence_fails x y z :
  find think_close (x ++ think_close ++ lit "nk>" ++ y ++ think_close ++ z)
    = Some (length x) →
  find think_open (lit "nk>" ++ y ++ think_close ++ z) = None →
  find think_close (y ++ think_close ++ z) = Some (length y) →
  stripped (think_open ++ y ++ think_close ++ z) →
  let s := lit "<thi" ++ think_open ++ x ++ think_close
           ++ lit "nk>" ++ y ++ think_close ++ z in
  clean_response s = think_open ++ y ++ think_close ++ z ∧
  clean_response (clean_response s) = strip z ∧
  clean_response (clean_response s) ≠ clean_response s.
Proof.
  intros Hx Hopen Hy Hstripped s.
  assert (clean_response s = think_open ++ y ++ think_close ++ z) as Hs.
  { unfold clean_response, s. rewrite remove_think_keep.
    - rewrite remove_think_span, remove_think_no_open by done.
      by apply strip_stripped_id.
    - intros a b Hab Ha. destruct (startswith think_open _) eqn:Hsw; [|done].
      apply think_open_straddle in Hsw as [k ->]; [|done].
      apply (f_equal length) in Hab. rewrite !length_app in Hab. simpl in Hab. lia. }
  assert (clean_response (clean_response s) = strip z) as Hss.
  { rewrite Hs. unfold clean_response at 1. rewrite remove_think_span by done.
    rewrite remove_think_no_open; [done|].
    by do 3 apply find_None_app_r in Hopen. }
  split_and!; [done..|]. rewrite Hss, Hs. intros Heq%(f_equal length).
  pose proof (strip_length z). rewrite !length_app in Heq. simpl in Heq. lia.
Qed.

(** The response ["<thi<think>x</think>nk>y</think>z"]. *)
Lemma clean_response_idempotence_fails_witness :
  let s := lit "<thi" ++ think_open ++ lit "x" ++ think_close
           ++ lit "nk>" ++ lit "y" ++ think_close ++ lit "z" in
  clean_response s = think_open ++ lit "y" ++ think_close ++ lit "z" ∧
  clean_response (clean_response s) = strip (lit "z") ∧
  clean_response (clean_response s) ≠ clean_response s.
Proof.
  apply (clean_response_idempotence_fails (lit "x") (lit "y") (lit "z"));
    [reflexivity..|]. split; intros c [= <-]; reflexivity.
Defined.

(** C21: a second pass changes the cleaned response exactly when a
    complete span is left in it, an opening marker with a closing marker
    behind it: [sanitize(sanitize(x)) == sanitize(x)] holds for the
    responses whose cleaned form holds no such span, and for no other. *)
Theorem clean_response_idempotent_iff s :
  clean_response (clean_response s) = clean_response s
  ↔ ¬ has_span (clean_response s).
Proof.
  split.
  - intros Heq Hspan%remove_think_span_lt. apply (f_equal length) in Heq.
    unfold clean_response at 1 in Heq.
    pose proof (strip_length (remove_think (clean_response s))). lia.
  - intros Hno. unfold clean_response at 1. rewrite remove_think_no_span by done.
    unfold clean_response. apply strip_idemp.
Qed.

(** C33: the substitution removes reasoning spans and nothing else.  What
    [re.sub] returns is the response with spans left out, each running from
    an opening marker to the first closing marker behind it, every other
    character kept in its place; and it is the response itself exactly when
    the response holds no complete span (line 117). *)
Theorem remove_think_spans_only s :
  only_spans_removed s (remove_think s) ∧
  (remove_think s = s ↔ ¬ has_span s).
Proof. split; [apply remove_think_removed|apply remove_think_id_iff]. Qed.

(** Two spans, the second with a closing marker of the first kind inside:
    what is removed ends at the first closing marker. *)
Example remove_think_spans_only_run :
  remove_think (lit "a<think>b</think>c</think>d") = lit "ac</think>d" ∧
  ¬ has_span (lit "ac</think>d").
Proof.
  split; [reflexivity|]. by rewrite <-remove_think_id_iff.
Qed.

(** C36: a reasoning span that is never closed is not removed: the text
    from the opening marker on is returned, stripped only. *)
Theorem unclosed_think_kept pre s :
  find think_open pre = None →
  find think_close s = None →
  clean_response (pre ++ think_open ++ s) = strip (pre ++ think_open ++ s).
Proof.
  intros Hpre Hs. unfold clean_response.
  by rewrite remove_think_before_open, remove_think_unclosed.
Qed.

Lemma unclosed_think_kept_witness :
  clean_response (lit "Sure. " ++ think_open ++ lit "the user wants ")
  = strip (lit "Sure. " ++ think_open ++ lit "the user wants ").
Proof. apply unclosed_think_kept; reflexivity. Defined.
