(* ===== verification/JsEscape.v ===== *)
(** * JsEscape: the copy button (lines 170-210)

    When a humanized text is on the page, [main] adds a button whose script
    copies the text to the clipboard.  The script is built by an f-string:
    the text is put between backticks, as a JavaScript template literal,
    after four calls of [str.replace] that escape the backtick, the sequence
    [${], the line feed and the carriage return (line 193).

    - [replace] is [str.replace] with two arguments.
    - [js_escape] is the chain of line 193 and [copy_html] the whole
      f-string, character for character.
    - [js_template] is what a JavaScript engine reads from the character
      after the opening backtick on: the value of the literal and the rest
      of the script, or the reason why there is no value.  It follows the
      grammar of template literals of ECMAScript (TemplateCharacters,
      escape sequences, line terminator normalisation).  A JavaScript
      string is a sequence of UTF-16 code units; here it is a sequence of
      code points, which is the same text as long as no escape sequence
      writes a lone surrogate.
    - [esc] is a one-pass escaper, the reference the chain is compared
      with.

    The library: the chain equals the one-pass escaper ([js_escape_esc]);
    the engine reads a text without backslash back from what the escaper
    wrote ([js_template_esc]); a literal that is closed leaves a shorter
    script ([js_template_rest]); a backslash of the text makes the value
    read differ from the text ([backslash_script], [read_back_neq]).

    The main results: the copy button copies the text exactly if and only
    if the text holds no backslash ([copy_exact_iff]); the escaped text is
    at most twice as long as the text ([js_escape_length]); [replace]
    satisfies the equations of a left-to-right scan
    ([replace_equations]).  [copy_html_backslash] runs three texts with a
    backslash through the script. *)

From stdpp Require Import strings sets.
From S2P Require Import Prelude PyStr.

#[local] Open Scope N_scope.

(** ** [str.replace] *)

(** The scan of [s.replace(old, new)] for a non-empty [old]: at an
    occurrence emit [new] and skip the occurrence, elsewhere copy.  [skip]
    counts the characters of an occurrence still to pass. *)
Fixpoint replace_go (old new : str) (skip : nat) (s : str) : str :=
  match s with
  | [] => []
  | c :: s' =>
      match skip with
      | S k => replace_go old new k s'
      | O =>
          if startswith old s
          then new ++ replace_go old new (length old - 1) s'
          else c :: replace_go old new 0 s'
      end
  end.

(** [s.replace(old, new)].  An empty [old] matches before every character
    and at the end. *)
Definition replace (old new s : str) : str :=
  match old with
  | [] => new ++ flat_map (λ c, c :: new) s
  | _ => replace_go old new 0 s
  end.

(** ** The f-string of lines 172-209 *)

(** The expression of line 193.  In the source the replacements are
    written ['\\`'], ['\\${'], ['\\n'] and ['\\r']: a backslash and the
    character. *)
Definition js_escape (text : str) : str :=
  replace [13] (lit "\r")
    (replace [10] (lit "\n")
       (replace (lit "${") (lit "\${")
          (replace (lit "`") (lit "\`") text))).

(** The text before the expression, up to and with the opening backtick. *)
Definition copy_html_prefix : str :=
  lit "
                <div style="
  ++ [34]
  ++ lit "position: relative; margin-top: -40px; margin-bottom: 20px; text-align: right; margin-right: 10px;"
  ++ [34]
  ++ lit ">
                    <button onclick="
  ++ [34]
  ++ lit "copyToClipboard()"
  ++ [34]
  ++ lit " style="
  ++ [34]
  ++ lit "
                        background: transparent;
                        border: none;
                        cursor: pointer;
                        font-size: 18px;
                        color: #666;
                        padding: 5px;
                        border-radius: 3px;
                        transition: color 0.2s;
                    "
  ++ [34]
  ++ lit " 
                    onmouseover="
  ++ [34]
  ++ lit "this.style.color='#333'"
  ++ [34]
  ++ lit "
                    onmouseout="
  ++ [34]
  ++ lit "this.style.color='#666'"
  ++ [34]
  ++ lit "
                    title="
  ++ [34]
  ++ lit "Copy to clipboard"
  ++ [34]
  ++ lit ">
                        "
  ++ [128203]
  ++ lit "
                    </button>
                </div>
                
                <script>
                function copyToClipboard() {
                    const text = `".

(** The text after the expression, from the closing backtick on. *)
Definition copy_html_suffix : str :=
  lit "`;
                    navigator.clipboard.writeText(text).then(function() {
                        // Show success message
                        const button = event.target;
                        const originalText = button.innerHTML;
                        button.innerHTML = '"
  ++ [9989]
  ++ lit "';
                        button.style.color = '#28a745';
                        setTimeout(function() {
                            button.innerHTML = originalText;
                            button.style.color = '#666';
                        }, 1500);
                    }).catch(function(err) {
                        alert("
  ++ [34]
  ++ lit "Failed to copy text. Please copy manually."
  ++ [34]
  ++ lit ");
                    });
                }
                </script>
                ".

Definition copy_html (humanized_text : str) : str :=
  copy_html_prefix ++ js_escape humanized_text ++ copy_html_suffix.

(** ** Template literals of JavaScript *)

(** What the engine finds after an opening backtick. *)
Inductive js_result : Type :=
| Closed (cooked rest : str)          (* a literal, and the script behind it *)
| Interpolation (cooked rest : str)   (* an unescaped [${]: code follows *)
| Invalid                             (* an escape sequence that is none *)
| Unterminated.                       (* the script ends inside the literal *)

#[export] Instance js_result_eq_dec : EqDecision js_result.
Proof. solve_decision. Defined.

(** One more character in front of the value. *)
Definition cook (c : N) (r : js_result) : js_result :=
  match r with
  | Closed k rest => Closed (c :: k) rest
  | Interpolation k rest => Interpolation (c :: k) rest
  | Invalid => Invalid
  | Unterminated => Unterminated
  end.

Definition hex_digit (c : N) : option N :=
  if in_range 48 57 c then Some (c - 48)
  else if in_range 97 102 c then Some (c - 87)
  else if in_range 65 70 c then Some (c - 55)
  else None.

(** The value of a run of hexadecimal digits, digit by digit. *)
Definition hex_step (acc : option N) (d : N) : option N :=
  a ← acc; h ← hex_digit d; Some (16 * a + h).
Definition hex_value (ds : list N) : option N := foldl hex_step (Some 0) ds.

(** The character a single-character escape stands for:
    [\n \r \t \b \v \f], and itself for every other character that is
    neither a digit, [x], [u] nor a line terminator. *)
Definition single_escape (e : N) : N :=
  if e =? 110 then 10 else if e =? 114 then 13 else if e =? 116 then 9
  else if e =? 98 then 8 else if e =? 118 then 11 else if e =? 102 then 12
  else e.

Definition line_terminator (c : N) : bool :=
  bool_decide (c ∈ [10; 13; 8232; 8233]).

(** [\u{...}] from the character after the brace on: the digits up to the
    closing brace, at least one, with a value that is a code point; [k]
    reads on behind it. *)
Definition braces (k : str → js_result) : list N → str → js_result :=
  fix go (ds : list N) (l : str) : js_result :=
    match l with
    | [] => Invalid
    | h :: l' =>
        if h =? 125 then
          match ds, hex_value (rev ds) with
          | _ :: _, Some v => if v <=? 1114111 then cook v (k l') else Invalid
          | _, _ => Invalid
          end
        else go (h :: ds) l'
    end.

(** The literal from the character after the opening backtick on. *)
Fixpoint js_template (s : str) : js_result :=
  match s with
  | [] => Unterminated
  | c :: s1 =>
      if c =? 96 then Closed [] s1
      else if c =? 36 then
        match s1 with
        | d :: s2 => if d =? 123 then Interpolation [] s2 else cook 36 (js_template s1)
        | [] => cook 36 (js_template s1)
        end
      else if c =? 13 then
        (* a carriage return, alone or before a line feed, is a line feed *)
        match s1 with
        | d :: s2 => cook 10 (js_template (if d =? 10 then s2 else s1))
        | [] => cook 10 (js_template s1)
        end
      else if c =? 92 then
        match s1 with
        | [] => Unterminated
        | e :: s2 =>
            if e =? 13 then
              (* a line continuation *)
              match s2 with
              | d :: s3 => js_template (if d =? 10 then s3 else s2)
              | [] => js_template s2
              end
            else if line_terminator e then js_template s2
            else if e =? 48 then
              match s2 with
              | d :: _ => if in_range 48 57 d then Invalid else cook 0 (js_template s2)
              | [] => cook 0 (js_template s2)
              end
            else if in_range 49 57 e then Invalid
            else if e =? 120 then
              match s2 with
              | h1 :: h2 :: s4 =>
                  match hex_value [h1; h2] with
                  | Some v => cook v (js_template s4)
                  | None => Invalid
                  end
              | _ => Invalid
              end
            else if e =? 117 then
              match s2 with
              | h1 :: s3 =>
                  if h1 =? 123 then braces js_template [] s3
                  else
                    match s3 with
                    | h2 :: h3 :: h4 :: s6 =>
                        match hex_value [h1; h2; h3; h4] with
                        | Some v => cook v (js_template s6)
                        | None => Invalid
                        end
                    | _ => Invalid
                    end
              | [] => Invalid
              end
            else cook (single_escape e) (js_template s2)
        end
      else cook c (js_template s1)
  end.

(** ** A one-pass escaper *)

(** What the chain of line 193 computes, in one pass over the text: a
    backslash goes in front of a backtick, of a dollar sign that stands
    before a brace, and the two line ends are written [\n] and [\r]. *)
Fixpoint esc (s : str) : str :=
  match s with
  | [] => []
  | c :: s1 =>
      if c =? 96 then 92 :: 96 :: esc s1
      else if c =? 10 then 92 :: 110 :: esc s1
      else if c =? 13 then 92 :: 114 :: esc s1
      else if (c =? 36) && bool_decide (head s1 = Some 123) then 92 :: 36 :: esc s1
      else c :: esc s1
  end.

(** ** The equations of [str.replace] *)

Section replace.
Context (old new : str).
Implicit Types (s : str) (c : N).

Lemma replace_go_skip k s :
  replace_go old new k s = replace_go old new 0 (drop k s).
Proof.
  revert k. induction s as [|c s IH]; intros [|k]; by simpl.
Qed.

Lemma replace_unfold s : old ≠ [] → replace old new s = replace_go old new 0 s.
Proof. by destruct old. Qed.

Lemma replace_nil : old ≠ [] → replace old new [] = [].
Proof. by destruct old. Qed.

(** At an occurrence the replacement is emitted and the scan resumes
    behind the occurrence. *)
Lemma replace_hit s :
  old ≠ [] → startswith old s = true →
  replace old new s = new ++ replace old new (drop (length old) s).
Proof.
  intros Hold Hs. rewrite !replace_unfold by done.
  destruct s as [|c s]; [by destruct old|]. simpl. rewrite Hs, replace_go_skip.
  destruct old; [done|]. simpl. by rewrite Nat.sub_0_r.
Qed.

(** Elsewhere one character is copied. *)
Lemma replace_miss c s :
  startswith old (c :: s) = false →
  replace old new (c :: s) = c :: replace old new s.
Proof.
  intros Hs. destruct old; [done|]. unfold replace. simpl in *. by rewrite Hs.
Qed.

End replace.

(** Replacing one character is a map over the characters. *)
Lemma replace_single (c : N) (new s : str) :
  replace [c] new s = flat_map (λ x, if x =? c then new else [x]) s.
Proof.
  induction s as [|x s IH]; [done|]. simpl flat_map.
  destruct (N.eqb_spec x c) as [->|Hx].
  - rewrite replace_hit; [|done|by simpl; rewrite N.eqb_refl].
    change (drop (length [c]) (c :: s)) with s. by rewrite IH.
  - rewrite replace_miss, IH; [done|]. simpl.
    by destruct (N.eqb_spec c x) as [->|].
Qed.

Lemma startswith_cons_ne (p c : N) (pre s : str) :
  p ≠ c → startswith (p :: pre) (c :: s) = false.
Proof. intros Hpc. cbn [startswith]. by rewrite (proj2 (N.eqb_neq p c)). Qed.

(** ** The chain of line 193, character by character *)

Section chain.
Implicit Types (t : str) (c : N).

(** The first and the last two replacements as maps. *)
Lemma js_escape_maps t :
  js_escape t =
    flat_map (λ x, if x =? 13 then lit "\r" else [x])
      (flat_map (λ x, if x =? 10 then lit "\n" else [x])
         (replace (lit "${") (lit "\${")
            (flat_map (λ x, if x =? 96 then lit "\`" else [x]) t))).
Proof.
  unfold js_escape.
  by rewrite (replace_single 13), (replace_single 10), (replace_single 96).
Qed.

Lemma js_escape_nil : js_escape [] = [].
Proof. done. Qed.

Lemma js_escape_backtick t : js_escape (96 :: t) = 92 :: 96 :: js_escape t.
Proof.
  rewrite !js_escape_maps. cbn [flat_map N.eqb Pos.eqb lit app].
  by rewrite !replace_miss by done.
Qed.

Lemma js_escape_ordinary c t :
  c ∉ [96; 36; 10; 13] → js_escape (c :: t) = c :: js_escape t.
Proof.
  intros Hc. rewrite !js_escape_maps. cbn [flat_map].
  assert (c ≠ 96 ∧ c ≠ 36 ∧ c ≠ 10 ∧ c ≠ 13) as (H1 & H2 & H3 & H4)
    by (rewrite !not_elem_of_cons in Hc; naive_solver).
  rewrite (proj2 (N.eqb_neq c 96)) by done. cbn [app].
  rewrite replace_miss by (by apply startswith_cons_ne).
  cbn [flat_map]. rewrite (proj2 (N.eqb_neq c 10)) by done. cbn [app flat_map].
  by rewrite (proj2 (N.eqb_neq c 13)) by done.
Qed.

Lemma js_escape_lf t : js_escape (10 :: t) = 92 :: 110 :: js_escape t.
Proof.
  rewrite !js_escape_maps. cbn [flat_map N.eqb Pos.eqb lit app].
  by rewrite !replace_miss by done.
Qed.

Lemma js_escape_cr t : js_escape (13 :: t) = 92 :: 114 :: js_escape t.
Proof.
  rewrite !js_escape_maps. cbn [flat_map N.eqb Pos.eqb lit app].
  by rewrite !replace_miss by done.
Qed.

(** A dollar sign before a brace: both are passed, with a backslash in
    front. *)
Lemma js_escape_dollar_brace t :
  js_escape (36 :: 123 :: t) = 92 :: 36 :: 123 :: js_escape t.
Proof.
  rewrite !js_escape_maps. cbn [flat_map N.eqb Pos.eqb lit app].
  by rewrite replace_hit by done.
Qed.

(** A dollar sign before anything else is copied. *)
Lemma js_escape_dollar t :
  head t ≠ Some 123 → js_escape (36 :: t) = 36 :: js_escape t.
Proof.
  intros Ht. rewrite !js_escape_maps. cbn [flat_map N.eqb Pos.eqb app].
  rewrite replace_miss; [done|].
  destruct t as [|d t]; [done|]. cbn [flat_map].
  destruct (N.eqb_spec d 96) as [->|_]; [done|].
  change (lit "${") with [36; 123]. cbn [startswith app].
  destruct (N.eqb_spec 123 d) as [<-|_]; [by destruct Ht|done].
Qed.

End chain.

(** [esc] one character further. *)
Lemma esc_ordinary (c : N) (t : str) :
  c ∉ [96; 36; 10; 13] → esc (c :: t) = c :: esc t.
Proof.
  rewrite !not_elem_of_cons. intros (H1 & H2 & H3 & H4 & _). cbn [esc].
  by rewrite !(proj2 (N.eqb_neq c _)) by done.
Qed.

Lemma esc_dollar (t : str) : head t ≠ Some 123 → esc (36 :: t) = 36 :: esc t.
Proof. intros Ht. cbn. by rewrite bool_decide_eq_false_2. Qed.

(** ** A text as the escaper reads it *)

(** The cases of the escaper: the end, one of the three characters it
    escapes, a dollar sign with a brace behind it (two characters at once),
    a dollar sign without, and any other character. *)
Inductive text_view : str → Prop :=
| view_nil : text_view []
| view_backtick t : text_view (96 :: t)
| view_lf t : text_view (10 :: t)
| view_cr t : text_view (13 :: t)
| view_dollar_brace t : text_view (36 :: 123 :: t)
| view_dollar t : head t ≠ Some 123 → text_view (36 :: t)
| view_ordinary c t : c ∉ [96; 36; 10; 13] → text_view (c :: t).

Lemma text_viewP (t : str) : text_view t.
Proof.
  destruct t as [|c t]; [constructor|].
  destruct (decide (c ∈ [96; 36; 10; 13])) as [Hin|Hout]; [|by constructor].
  rewrite !elem_of_cons, elem_of_nil in Hin.
  destruct Hin as [->|[->|[->|[->|[]]]]]; [constructor| |constructor..].
  destruct t as [|d t]; [by constructor|].
  destruct (decide (d = 123)) as [->|Hd]; constructor. simpl. congruence.
Qed.

(** Induction along the view. *)
Lemma text_ind (P : str → Prop) :
  P [] →
  (∀ t, P t → P (96 :: t)) →
  (∀ t, P t → P (10 :: t)) →
  (∀ t, P t → P (13 :: t)) →
  (∀ t, P t → P (36 :: 123 :: t)) →
  (∀ t, head t ≠ Some 123 → P t → P (36 :: t)) →
  (∀ c t, c ∉ [96; 36; 10; 13] → P t → P (c :: t)) →
  ∀ t, P t.
Proof.
  intros Hnil Hbt Hlf Hcr Hdb Hd Hc t.
  induction t as [t IH] using (induction_ltof1 _ length). unfold ltof in IH.
  destruct (text_viewP t); auto with lia.
  all: (apply Hdb || apply Hd || apply Hc); try done; apply IH; simpl; lia.
Qed.

(** The chain of four replacements is the one-pass escaper. *)
Lemma js_escape_esc (t : str) : js_escape t = esc t.
Proof.
  induction t as [|t IH|t IH|t IH|t IH|t Ht IH|c t Hc IH] using text_ind.
  - done.
  - by rewrite js_escape_backtick, IH.
  - by rewrite js_escape_lf, IH.
  - by rewrite js_escape_cr, IH.
  - by rewrite js_escape_dollar_brace, IH.
  - by rewrite js_escape_dollar, esc_dollar, IH.
  - by rewrite js_escape_ordinary, esc_ordinary, IH.
Qed.

(** ** Reading the escaped text *)

(** Several characters in front of the value. *)
Definition cooks (k : str) (r : js_result) : js_result := foldr cook r k.

Section read.
Implicit Types (t s k tail : str) (c : N) (r : js_result).

Lemma cooks_Closed k k' rest : cooks k (Closed k' rest) = Closed (k ++ k') rest.
Proof. induction k as [|c k IH]; simpl; [done|]. by rewrite IH. Qed.

Lemma cooks_app k1 k2 r : cooks (k1 ++ k2) r = cooks k1 (cooks k2 r).
Proof. apply foldr_app. Qed.

Lemma cook_Closed_inv c r k rest :
  cook c r = Closed k rest → ∃ k', k = c :: k' ∧ r = Closed k' rest.
Proof. destruct r; naive_solver. Qed.

Lemma cooks_Closed_inv k0 r k rest :
  cooks k0 r = Closed k rest → ∃ k', k = k0 ++ k' ∧ r = Closed k' rest.
Proof.
  revert k. induction k0 as [|c k0 IH]; intros k; simpl; [by eauto|].
  intros (k1 & -> & (k2 & -> & ->)%IH)%cook_Closed_inv. eauto.
Qed.

(** The engine on the four sequences the escaper writes. *)
Lemma js_template_escaped c s :
  c ∈ [96; 36] → js_template (92 :: c :: s) = cook c (js_template s).
Proof. rewrite !elem_of_cons, elem_of_nil. by intros [->|[->|[]]]. Qed.

Lemma js_template_lf s : js_template (92 :: 110 :: s) = cook 10 (js_template s).
Proof. done. Qed.

Lemma js_template_cr s : js_template (92 :: 114 :: s) = cook 13 (js_template s).
Proof. done. Qed.

(** A character that means nothing to the engine is part of the value. *)
Lemma js_template_ordinary c s :
  c ∉ [96; 36; 13; 92] → js_template (c :: s) = cook c (js_template s).
Proof.
  rewrite !not_elem_of_cons. intros (H1 & H2 & H3 & H4 & _). cbn [js_template].
  by rewrite !(proj2 (N.eqb_neq c _)) by done.
Qed.

Lemma js_template_dollar s :
  head s ≠ Some 123 → js_template (36 :: s) = cook 36 (js_template s).
Proof.
  intros Hs. cbn [js_template N.eqb Pos.eqb].
  destruct s as [|d s]; [done|].
  destruct (N.eqb_spec d 123) as [->|Hd]; [done|done].
Qed.

(** The escaper never writes a brace first, unless it reads one. *)
Lemma esc_head t s :
  head t ≠ Some 123 → head s ≠ Some 123 → head (esc t ++ s) ≠ Some 123.
Proof.
  destruct t as [|c t]; [done|]. intros Hc _. cbn [esc].
  repeat case_match; simpl in *; congruence.
Qed.

(** The escaper commutes with concatenation, except between a dollar sign
    and a brace. *)
Lemma esc_app t u : head u ≠ Some 123 → esc (t ++ u) = esc t ++ esc u.
Proof.
  intros Hu.
  induction t as [|t IH|t IH|t IH|t IH|t Ht IH|c t Hc IH] using text_ind;
    try (cbn; by rewrite ?IH).
  - rewrite <-app_comm_cons, !esc_dollar, IH; [done..|].
    by destruct t.
  - by rewrite <-app_comm_cons, !esc_ordinary, IH.
Qed.

(** The engine reads a text without backslash back from what the escaper
    wrote. *)
Lemma js_template_esc t s :
  92 ∉ t → head s ≠ Some 123 →
  js_template (esc t ++ s) = cooks t (js_template s).
Proof.
  intros Ht Hs. revert Ht.
  induction t as [|t IH|t IH|t IH|t IH|t Hb IH|c t Hc IH] using text_ind;
    rewrite ?not_elem_of_cons; intros Ht; [done|..].
  - change (cook 96 (js_template (esc t ++ s)) = cook 96 (cooks t (js_template s))).
    by rewrite IH by tauto.
  - change (cook 10 (js_template (esc t ++ s)) = cook 10 (cooks t (js_template s))).
    by rewrite IH by tauto.
  - change (cook 13 (js_template (esc t ++ s)) = cook 13 (cooks t (js_template s))).
    by rewrite IH by tauto.
  - change (cook 36 (cook 123 (js_template (esc t ++ s)))
            = cook 36 (cook 123 (cooks t (js_template s)))).
    by rewrite IH by tauto.
  - rewrite esc_dollar by done. cbn [app cooks foldr].
    rewrite js_template_dollar by (by apply esc_head). by rewrite IH by tauto.
  - rewrite esc_ordinary by done. cbn [app cooks foldr].
    rewrite js_template_ordinary, IH; [done|tauto|].
    rewrite !not_elem_of_cons in Hc |- *. naive_solver.
Qed.

End read.

(** ** Where a literal ends *)

Section rest.
Implicit Types (s l k rest : str) (ds : list N).

(** A [\u{...}] that is read hands a shorter rest to what reads on. *)
Lemma braces_Closed (kf : str → js_result) ds l k rest :
  braces kf ds l = Closed k rest →
  ∃ l' v k', kf l' = Closed k' rest ∧ k = v :: k' ∧ (length l' < length l)%nat.
Proof.
  revert ds. induction l as [|h l IH]; intros ds; [done|]. cbn [braces].
  destruct (h =? 125).
  - repeat case_match; try done.
    intros (k' & -> & Hk)%cook_Closed_inv. exists l. simpl. eauto 10 with lia.
  - intros (l' & v & k' & ? & ? & ?)%IH. exists l', v, k'. simpl. eauto with lia.
Qed.

(** The script behind a literal is shorter than the script from the
    literal on: the closing backtick, at least, is gone. *)
Lemma js_template_rest s k rest :
  js_template s = Closed k rest → (length rest < length s)%nat.
Proof.
  revert k. induction s as [s IH] using (induction_ltof1 _ length).
  unfold ltof in IH. intros k. destruct s as [|c s]; [done|]. cbn [js_template].
  repeat case_match; try done;
    repeat match goal with
      | |- cook _ _ = Closed _ _ → _ => intros (? & -> & ?)%cook_Closed_inv
      | |- braces _ _ _ = Closed _ _ → _ =>
          intros (? & ? & ? & ? & -> & ?)%braces_Closed
      | |- Closed _ _ = Closed _ _ → _ => intros [= <- <-]
      | |- js_template _ = Closed _ _ → _ => intros ?
      end;
    simplify_eq; cbn [length] in *; try lia;
    match goal with
    | H : js_template ?x = Closed _ _ |- _ =>
        apply IH in H; cbn [length] in *; lia
    end.
Qed.

End rest.

(** ** Escape sequences that the text brings along

    A backslash of the text is written as it is, so the engine reads it with
    the character behind it as an escape sequence.  [script t] is what the
    engine sees of a text [t]: the escaped text, the closing backtick and
    the rest of the script. *)

Section backslash.
Context (tail : str).
Implicit Types (t s k : str) (c h : N) (ds : list N).

#[local] Abbreviation script t := (esc t ++ 96 :: tail).

Lemma esc_backtick t : esc (96 :: t) = 92 :: 96 :: esc t.
Proof. done. Qed.
Lemma esc_lf t : esc (10 :: t) = 92 :: 110 :: esc t.
Proof. done. Qed.
Lemma esc_cr t : esc (13 :: t) = 92 :: 114 :: esc t.
Proof. done. Qed.
Lemma esc_dollar_brace t : esc (36 :: 123 :: t) = 92 :: 36 :: 123 :: esc t.
Proof. done. Qed.

(** A character at the head of the script that the escaper does not write
    by itself is the head of the text. *)
Lemma script_head h t s :
  h ∉ [92; 96; 36] → script t = h :: s →
  ∃ t', t = h :: t' ∧ s = script t' ∧ esc t = h :: esc t'.
Proof.
  rewrite !not_elem_of_cons. intros (H1 & H2 & H3 & _).
  destruct (text_viewP t) as [|t|t|t|t|t Ht|c t Hc];
    rewrite ?esc_backtick, ?esc_lf, ?esc_cr, ?esc_dollar_brace, ?esc_dollar,
      ?esc_ordinary by done; intros [= <- <-]; try done.
  by exists t.
Qed.

Lemma hex_digit_ordinary h : is_Some (hex_digit h) → h ∉ [92; 96; 36].
Proof.
  intros Hh. rewrite !not_elem_of_cons.
  split_and!; [intros ->; by destruct Hh..|apply not_elem_of_nil].
Qed.

(** [shorter IH]: what holds with a text shorter than [t] holds with one
    shorter than a text that ends with [t]. *)
Ltac shorter IH :=
  let t' := fresh "t'" in
  intros (t' & ? & ? & ? & ? & ?)%IH; exists t'; simpl; eauto 10 with lia.

(** A [\u{...}] over the script either ends in the text, at a brace of the
    text, or runs over the closing backtick and is not closed where the
    literal should end. *)
Lemma braces_script ds t k :
  braces js_template ds (script t) = Closed k tail →
  ∃ t' v k', (length t' < length t)%nat ∧
             js_template (script t') = Closed k' tail ∧ k = v :: k'.
Proof.
  revert ds.
  induction t as [|t IH|t IH|t IH|t IH|t Ht IH|c t Hc IH] using text_ind;
    intros ds;
    rewrite ?esc_backtick, ?esc_lf, ?esc_cr, ?esc_dollar_brace, ?esc_dollar,
      ?esc_ordinary by done;
    cbn [app braces N.eqb Pos.eqb].
  1: { intros (l' & v & k' & Hl'%js_template_rest & _ & ?)%braces_Closed.
       simpl in *. lia. }
  6: { destruct (c =? 125); [|by shorter IH].
       repeat case_match; try done.
       intros (k' & -> & Hk)%cook_Closed_inv. exists t. simpl. eauto 10 with lia. }
  all: by shorter IH.
Qed.

Lemma hex_step_None (hs : list N) : foldl hex_step None hs = None.
Proof. by induction hs. Qed.

Lemma hex_value_digits (hs : list N) acc v :
  foldl hex_step acc hs = Some v → Forall (λ h, is_Some (hex_digit h)) hs.
Proof.
  revert acc. induction hs as [|h hs IH]; intros acc; [done|]. simpl.
  destruct acc as [a|]; simpl; [|by rewrite hex_step_None].
  destruct (hex_digit h) eqn:Hh; simpl; [|by rewrite hex_step_None].
  intros Hv%IH. constructor; [by rewrite Hh|done].
Qed.

(** Hexadecimal digits at the head of the script are digits of the text. *)
Lemma script_digits hs t s v :
  hex_value hs = Some v → script t = hs ++ s →
  ∃ t', t = hs ++ t' ∧ s = script t'.
Proof.
  intros Hv%hex_value_digits. revert t.
  induction Hv as [|h hs Hh%hex_digit_ordinary _ IH]; intros t; [by eauto|].
  intros (t1 & -> & Hs & _)%script_head; [|done].
  symmetry in Hs. apply IH in Hs as (t' & -> & ->). by exists t'.
Qed.

(** A backslash of the text before a character the escaper copies: the
    engine reads an escape sequence, and goes on reading at a later place
    of the text with at most one character read. *)
Lemma escape_script c t k :
  c ∉ [96; 36; 10; 13] →
  js_template (92 :: c :: script t) = Closed k tail →
  ∃ t' k', (length t' ≤ length t)%nat ∧
           js_template (script t') = Closed k' tail ∧
           (length k ≤ S (length k'))%nat.
Proof.
  rewrite !not_elem_of_cons. intros (_ & _ & _ & Hc & _).
  cbn [js_template N.eqb Pos.eqb].
  rewrite (proj2 (N.eqb_neq c 13)) by done.
  destruct (line_terminator c); [intros ?; exists t, k; eauto with lia|].
  destruct (c =? 48).
  { destruct (script t) as [|d s] eqn:Hs; [by destruct (esc t)|].
    rewrite <-Hs. destruct (in_range 48 57 d); [done|].
    intros (k' & -> & Hk)%cook_Closed_inv. exists t, k'. eauto with lia. }
  destruct (in_range 49 57 c); [done|].
  destruct (c =? 120).
  { destruct (script t) as [|h1 [|h2 s4]] eqn:Hs; try done.
    destruct (hex_value [h1; h2]) as [v|] eqn:Hv; [|done].
    apply (script_digits [h1; h2]) with (v := v) in Hs as (t' & -> & ->); [|done].
    intros (k' & -> & Hk)%cook_Closed_inv. exists t', k'. simpl. eauto with lia. }
  destruct (c =? 117);
    [|intros (k' & -> & Hk)%cook_Closed_inv; exists t, k'; eauto with lia].
  destruct (script t) as [|h1 s3] eqn:Hs; [done|].
  destruct (N.eqb_spec h1 123) as [->|_].
  - apply script_head in Hs as (t1 & -> & -> & _); [|compute_done].
    intros (t' & v & k' & ? & ? & ->)%braces_script.
    exists t', k'. simpl. eauto with lia.
  - destruct s3 as [|h2 [|h3 [|h4 s6]]]; try done.
    destruct (hex_value [h1; h2; h3; h4]) as [v|] eqn:Hv; [|done].
    apply (script_digits [h1; h2; h3; h4]) with (v := v) in Hs
      as (t' & -> & ->); [|done].
    intros (k' & -> & Hk)%cook_Closed_inv. exists t', k'. simpl. eauto with lia.
Qed.

(** The first backslash of a text.  Whatever follows it, the value read
    is not the text: the backslash is gone, or a character is misread, or
    the literal does not end where it should. *)
Lemma backslash_script t k :
  (∀ u k', (length u ≤ length t)%nat →
     js_template (script u) = Closed k' tail → (length k' ≤ length u)%nat) →
  js_template (92 :: script t) = Closed k tail →
  (length k ≤ S (length t))%nat ∧ k ≠ 92 :: t.
Proof.
  intros IH. destruct (text_viewP t) as [|t|t|t|t|t Ht|c t Hc].
  - change (js_template _) with (cook 96 (js_template tail)).
    intros (k' & -> & Hk%js_template_rest)%cook_Closed_inv. lia.
  - change (js_template _) with (Closed [92] (script t)).
    intros [= <- Hs%(f_equal length)]. rewrite length_app in Hs. simpl in Hs. lia.
  - change (js_template _) with (cook 92 (cook 110 (js_template (script t)))).
    intros (? & -> & (k' & -> & Hk%IH)%cook_Closed_inv)%cook_Closed_inv;
      simpl in *; [split; [lia|congruence]|lia].
  - change (js_template _) with (cook 92 (cook 114 (js_template (script t)))).
    intros (? & -> & (k' & -> & Hk%IH)%cook_Closed_inv)%cook_Closed_inv;
      simpl in *; [split; [lia|congruence]|lia].
  - done.
  - rewrite esc_dollar by done. cbn [app].
    rewrite js_template_escaped by set_solver.
    intros (k' & -> & Hk%IH)%cook_Closed_inv;
      simpl in *; [split; [lia|congruence]|lia].
  - rewrite esc_ordinary by done.
    intros (t' & k' & Hle & Hk%IH & Hlen)%escape_script; simpl in *; [|lia|done].
    split; [lia|]. intros ->. simpl in Hlen. lia.
Qed.

(** A text that does not begin with a backslash: the engine reads its
    first one or two characters back and goes on behind them. *)
Lemma script_peel t :
  t ≠ [] → head t ≠ Some 92 →
  ∃ cs t', t = cs ++ t' ∧ cs ≠ [] ∧ (92 ∉ cs) ∧
           js_template (script t) = cooks cs (js_template (script t')).
Proof.
  intros Hne Hhead. destruct (text_viewP t) as [|t|t|t|t|t Ht|c t Hc]; [done|..].
  - exists [96], t. split_and!; [done|done|set_solver|done].
  - exists [10], t. split_and!; [done|done|set_solver|done].
  - exists [13], t. split_and!; [done|done|set_solver|done].
  - exists [36; 123], t. split_and!; [done|done|set_solver|done].
  - exists [36], t. split_and!; [done|done|set_solver|].
    rewrite esc_dollar by done. apply js_template_dollar. by apply esc_head.
  - exists [c], t. split_and!; [done|done|set_solver|].
    rewrite esc_ordinary by done. apply js_template_ordinary. set_solver.
Qed.

(** The value read is never longer than the text. *)
Lemma read_back_length t k :
  js_template (script t) = Closed k tail → (length k ≤ length t)%nat.
Proof.
  revert k. induction t as [t IH] using (induction_ltof1 _ length).
  unfold ltof in IH. intros k. destruct t as [|c t]; [by intros [= <-]|].
  destruct (decide (c = 92)) as [->|Hc].
  - rewrite esc_ordinary by set_solver.
    intros [? _]%backslash_script; [done|]. intros u k' ?. apply IH. simpl. lia.
  - destruct (script_peel (c :: t)) as (cs & t' & Ht & Hcs & _ & ->);
      [done|simpl; congruence|].
    intros (k' & -> & Hk%IH)%cooks_Closed_inv;
      rewrite Ht, !length_app in *; destruct cs; simpl in *; (done || lia).
Qed.

(** With a backslash in the text, the value read is not the text. *)
Lemma read_back_neq t k :
  92 ∈ t → js_template (script t) = Closed k tail → k ≠ t.
Proof.
  revert k. induction t as [t IH] using (induction_ltof1 _ length).
  unfold ltof in IH. intros k Hin. destruct t as [|c t]; [set_solver|].
  destruct (decide (c = 92)) as [->|Hc].
  - rewrite esc_ordinary by set_solver.
    intros [_ ?]%backslash_script; [done|]. intros u k' _. apply read_back_length.
  - destruct (script_peel (c :: t)) as (cs & t' & Ht & Hcs & Hbs & ->);
      [done|simpl; congruence|].
    rewrite Ht in *. intros (k' & -> & Hk)%cooks_Closed_inv Heq%app_inv_head.
    revert Heq. apply IH; [|set_solver|done].
    rewrite length_app. destruct cs; simpl; (done || lia).
Qed.

End backslash.

(** ** Main results *)

(** The script behind the literal. *)
Definition copy_html_rest : str := drop 1 copy_html_suffix.

Lemma copy_html_script (t : str) :
  drop (length copy_html_prefix) (copy_html t)
  = js_escape t ++ 96 :: copy_html_rest.
Proof. unfold copy_html. by rewrite drop_app_length. Qed.

Lemma esc_length (t : str) :
  (length t ≤ length (esc t) ≤ 2 * length t)%nat.
Proof.
  induction t as [|t IH|t IH|t IH|t IH|t Ht IH|c t Hc IH] using text_ind;
    rewrite ?esc_dollar, ?esc_ordinary by done; simpl; lia.
Qed.

(** The script reads a text without backslash back. *)
Lemma copy_html_read (t : str) :
  92 ∉ t →
  js_template (drop (length copy_html_prefix) (copy_html t))
  = Closed t copy_html_rest.
Proof.
  intros Hin. rewrite copy_html_script, js_escape_esc, js_template_esc by done.
  change (js_template _) with (Closed [] copy_html_rest).
  by rewrite cooks_Closed, app_nil_r.
Qed.

(** C11: the copy button copies the text exactly if and only if the text
    holds no backslash.  The script of [copy_html] puts the escaped text
    between backticks; the engine reads the text back, followed by the rest
    of the script, exactly when no backslash occurs in it: the chain of
    line 193 escapes the backtick, [${] and the line ends, and not the
    backslash itself. *)
Theorem copy_exact_iff (t : str) :
  js_template (drop (length copy_html_prefix) (copy_html t))
  = Closed t copy_html_rest ↔ 92 ∉ t.
Proof.
  split; [|apply copy_html_read].
  rewrite copy_html_script, js_escape_esc.
  intros Hread Hin. by eapply read_back_neq.
Qed.

(** The escaped text is at least as long as the text and at most
    twice as long. *)
Theorem js_escape_length (t : str) :
  (length t ≤ length (js_escape t) ≤ 2 * length t)%nat.
Proof. rewrite js_escape_esc. apply esc_length. Qed.

(** [str.replace] with a non-empty pattern scans from the left: at
    an occurrence of the pattern it writes the replacement and resumes
    behind the occurrence, so occurrences do not overlap and the
    replacement is not searched again; elsewhere it copies one character. *)
Theorem replace_equations (old new s : str) :
  old ≠ [] →
  replace old new s =
    match s with
    | [] => []
    | c :: s' =>
        if startswith old s
        then new ++ replace old new (drop (length old) s)
        else c :: replace old new s'
    end.
Proof.
  intros Hold. destruct s as [|c s]; [by apply replace_nil|].
  destruct (startswith old (c :: s)) eqn:Hs;
    [by apply replace_hit|by apply replace_miss].
Qed.

Lemma replace_equations_witness :
  replace (lit "aa") (lit "a") (lit "aaa") = lit "a" ++ replace (lit "aa") (lit "a") (lit "a").
Proof. apply (replace_equations (lit "aa")). done. Defined.

(** A text that ends with a backslash: the closing backtick is read as an
    escaped backtick and the literal runs on into the script. *)
Lemma trailing_backslash (t tail : str) :
  92 ∉ t →
  js_template (js_escape (t ++ [92]) ++ 96 :: tail)
  = cooks t (cook 96 (js_template tail)).
Proof.
  intros Ht. rewrite js_escape_esc, esc_app by done.
  rewrite <-(assoc_L (++)). by rewrite js_template_esc.
Qed.

(** Three texts with a backslash, through the script of the program: a
    Windows path is copied with a line feed in it, a text that ends with a
    backslash leaves the script without an end of the literal, and a
    backslash before a backtick ends the literal early. *)
Example copy_html_backslash :
  js_template (drop (length copy_html_prefix) (copy_html (lit "C:\new")))
  = Closed (lit "C:
ew") copy_html_rest ∧
  js_template (drop (length copy_html_prefix) (copy_html (lit "a\")))
  = Unterminated ∧
  ∃ rest, js_template (drop (length copy_html_prefix) (copy_html (lit "\`;x`")))
          = Closed (lit "\") rest ∧ take 3 rest = lit ";x\".
Proof. split_and!; [by vm_compute..|]. eexists. by vm_compute. Qed.
