(* ===== verification/Html.v ===== *)
(** * Html: the script element of the copy button (lines 190-208)

    [st.components.v1.html] hands the string [copy_html] to the browser as
    a document of its own.  The humanized text sits in it inside a
    [<script>] element, and before the JavaScript engine reads a character
    of it the HTML parser has decided where the element ends.  This file
    models that decision.

    - [tokenizer_state], [tokenizer_step] and [tokenize] are the tokenizer
      of the HTML standard between [<script>] and the end of the element:
      the script data states, the escaped states that [<!--] opens and the
      double escaped states that [<script] opens inside them.  The text of
      the element is what the tokenizer emits; the element ends at
      [</script] before a character that ends a tag name.
    - [script_of] is the script element of a document whose markup before
      the first [<script>] holds no script, as that of [copy_html] does.
    - [js_head], [js_tail] and [html_tail] are the fixed text of
      [copy_html] around the expression of line 193: the script up to the
      opening backtick, the script from the closing backtick on, and what
      follows the end tag.

    The library: a text in which no [<] stands before [/] or [!] passes
    the tokenizer unchanged but for NUL ([tokenize_tag_free]); an end tag
    in any case of letters ends the element ([tokenize_end_tag]); the
    escaper of line 193 writes no carriage return and no NUL of its own,
    and leaves every [<] with the character behind it ([esc_no_cr],
    [elem_of_esc], [tag_free_esc]); what the tokenizer emits and what it
    leaves are the input around an end tag ([tokenize_split]).

    The main results: a text that holds an end tag of a script element
    ends the element inside the literal, the script is not run and the
    rest of the text is markup of the page ([script_injection]); the
    tokenizer neither loses nor invents a character
    ([tokenize_conserves]).  [script_intact] is the other case: the element
    is the script as written, and the literal is read back, for a text
    without NUL and backslash in which no [<] stands before [/] or [!]. *)

From stdpp Require Import strings sets.
From S2P Require Import Prelude PyStr JsEscape.

#[local] Open Scope N_scope.

(** ** Characters *)

Definition ascii_upper (c : N) : bool := in_range 65 90 c.
Definition ascii_lower (c : N) : bool := in_range 97 122 c.
Definition ascii_alpha (c : N) : bool := ascii_upper c || ascii_lower c.
Definition to_lower (c : N) : N := if ascii_upper c then c + 32 else c.

(** A NUL of the input becomes U+FFFD. *)
Definition replaced (c : N) : N := if c =? 0 then 65533 else c.

(** The characters that end a tag name: tab, line feed, form feed, space,
    solidus, greater-than. *)
Definition tag_end (c : N) : bool := bool_decide (c ∈ [9; 10; 12; 32; 47; 62]).

(** An end tag is appropriate when its name is that of the element. *)
Definition is_script (name : str) : bool := bool_decide (name = lit "script").

(** Newlines are normalised before the tokenizer runs. *)
Fixpoint normalize_newlines (s : str) : str :=
  match s with
  | [] => []
  | c :: s1 =>
      if c =? 13 then
        10 :: match s1 with
              | d :: s2 => if d =? 10 then normalize_newlines s2 else normalize_newlines s1
              | [] => []
              end
      else c :: normalize_newlines s1
  end.

(** ** The tokenizer inside a script element *)

(** The states of the tokenizer that concern a script element, with the
    names of the standard.  The end tag name states carry the characters of
    the name read so far, as written; the double escape states carry the
    temporary buffer, in lower case. *)
Inductive tokenizer_state : Type :=
| ScriptData
| ScriptDataLessThanSign
| ScriptDataEndTagOpen
| ScriptDataEndTagName (buf : str)
| ScriptDataEscapeStart
| ScriptDataEscapeStartDash
| ScriptDataEscaped
| ScriptDataEscapedDash
| ScriptDataEscapedDashDash
| ScriptDataEscapedLessThanSign
| ScriptDataEscapedEndTagOpen
| ScriptDataEscapedEndTagName (buf : str)
| ScriptDataDoubleEscapeStart (buf : str)
| ScriptDataDoubleEscaped
| ScriptDataDoubleEscapedDash
| ScriptDataDoubleEscapedDashDash
| ScriptDataDoubleEscapedLessThanSign
| ScriptDataDoubleEscapeEnd (buf : str).

#[export] Instance tokenizer_state_eq_dec : EqDecision tokenizer_state.
Proof. solve_decision. Defined.

(** What one character does: the tokenizer goes on in a state and emits
    characters of the element's text, or it has read an appropriate end tag
    up to the character [delim]. *)
Inductive action : Type :=
| Go (s : tokenizer_state) (out : str)
| EndTag (delim : N).

(** Emit [pre], then act as [a]: a state that gives a character back to
    another state after emitting what it held. *)
Definition emitting (pre : str) (a : action) : action :=
  match a with
  | Go s out => Go s (pre ++ out)
  | EndTag d => EndTag d
  end.

(** The script data state. *)
Definition in_script_data (c : N) : action :=
  if c =? 60 then Go ScriptDataLessThanSign [] else Go ScriptData [replaced c].

(** The script data escaped state: behind [<!--]. *)
Definition in_escaped (c : N) : action :=
  if c =? 45 then Go ScriptDataEscapedDash [45]
  else if c =? 60 then Go ScriptDataEscapedLessThanSign []
  else Go ScriptDataEscaped [replaced c].

(** The script data double escaped state: behind [<script] inside
    [<!--].  Here [<] is emitted at once and [</script>] ends nothing. *)
Definition in_double_escaped (c : N) : action :=
  if c =? 45 then Go ScriptDataDoubleEscapedDash [45]
  else if c =? 60 then Go ScriptDataDoubleEscapedLessThanSign [60]
  else Go ScriptDataDoubleEscaped [replaced c].

(** The two end tag name states, [name] for the state itself and [back]
    for the state the characters go back to when this is no end tag: the
    name ends at a tab, line feed, form feed, space, solidus or
    greater-than sign, and the tag counts when the name is [script] in any
    case of letters. *)
Definition in_end_tag_name (name : str → tokenizer_state) (back : N → action)
    (buf : str) (c : N) : action :=
  if tag_end c && is_script (to_lower <$> buf) then EndTag c
  else if ascii_alpha c then Go (name (buf ++ [c])) []
  else emitting (60 :: 47 :: buf) (back c).

(** The double escape start and end states: the characters are emitted as
    they come, and a name [script] changes the state to [inside], any other
    name to [outside]. *)
Definition in_double_escape (inside outside : tokenizer_state)
    (name : str → tokenizer_state) (back : N → action) (buf : str) (c : N) : action :=
  if tag_end c then Go (if is_script buf then inside else outside) [c]
  else if ascii_alpha c then Go (name (buf ++ [to_lower c])) [c]
  else back c.

(** One character in one state. *)
Definition tokenizer_step (s : tokenizer_state) (c : N) : action :=
  match s with
  | ScriptData => in_script_data c
  | ScriptDataLessThanSign =>
      if c =? 47 then Go ScriptDataEndTagOpen []
      else if c =? 33 then Go ScriptDataEscapeStart [60; 33]
      else emitting [60] (in_script_data c)
  | ScriptDataEndTagOpen =>
      if ascii_alpha c then in_end_tag_name ScriptDataEndTagName in_script_data [] c
      else emitting [60; 47] (in_script_data c)
  | ScriptDataEndTagName buf =>
      in_end_tag_name ScriptDataEndTagName in_script_data buf c
  | ScriptDataEscapeStart =>
      if c =? 45 then Go ScriptDataEscapeStartDash [45] else in_script_data c
  | ScriptDataEscapeStartDash =>
      if c =? 45 then Go ScriptDataEscapedDashDash [45] else in_script_data c
  | ScriptDataEscaped => in_escaped c
  | ScriptDataEscapedDash =>
      if c =? 45 then Go ScriptDataEscapedDashDash [45] else in_escaped c
  | ScriptDataEscapedDashDash =>
      if c =? 45 then Go ScriptDataEscapedDashDash [45]
      else if c =? 62 then Go ScriptData [62]
      else in_escaped c
  | ScriptDataEscapedLessThanSign =>
      if c =? 47 then Go ScriptDataEscapedEndTagOpen []
      else if ascii_alpha c then
        emitting [60]
          (in_double_escape ScriptDataDoubleEscaped ScriptDataEscaped
             ScriptDataDoubleEscapeStart in_escaped [] c)
      else emitting [60] (in_escaped c)
  | ScriptDataEscapedEndTagOpen =>
      if ascii_alpha c then in_end_tag_name ScriptDataEscapedEndTagName in_escaped [] c
      else emitting [60; 47] (in_escaped c)
  | ScriptDataEscapedEndTagName buf =>
      in_end_tag_name ScriptDataEscapedEndTagName in_escaped buf c
  | ScriptDataDoubleEscapeStart buf =>
      in_double_escape ScriptDataDoubleEscaped ScriptDataEscaped
        ScriptDataDoubleEscapeStart in_escaped buf c
  | ScriptDataDoubleEscaped => in_double_escaped c
  | ScriptDataDoubleEscapedDash =>
      if c =? 45 then Go ScriptDataDoubleEscapedDashDash [45] else in_double_escaped c
  | ScriptDataDoubleEscapedDashDash =>
      if c =? 45 then Go ScriptDataDoubleEscapedDashDash [45]
      else if c =? 62 then Go ScriptData [62]
      else in_double_escaped c
  | ScriptDataDoubleEscapedLessThanSign =>
      if c =? 47 then Go (ScriptDataDoubleEscapeEnd []) [47] else in_double_escaped c
  | ScriptDataDoubleEscapeEnd buf =>
      in_double_escape ScriptDataEscaped ScriptDataDoubleEscaped
        ScriptDataDoubleEscapeEnd in_double_escaped buf c
  end.

(** What has been read and not yet emitted. *)
Definition pending (s : tokenizer_state) : str :=
  match s with
  | ScriptDataLessThanSign | ScriptDataEscapedLessThanSign => [60]
  | ScriptDataEndTagOpen | ScriptDataEscapedEndTagOpen => [60; 47]
  | ScriptDataEndTagName buf | ScriptDataEscapedEndTagName buf => 60 :: 47 :: buf
  | _ => []
  end.

(** What the parser makes of the input behind [<script>]: an element with
    its text, the character that ended the name of the end tag ([>] ends
    the tag too, otherwise the tag goes on to the next [>]) and the input
    behind that character; or an element that the input never closes, whose
    script is not run. *)
Inductive script_element : Type :=
| Element (text : str) (delim : N) (rest : str)
| Unclosed (text : str).

#[export] Instance script_element_eq_dec : EqDecision script_element.
Proof. solve_decision. Defined.

Definition intact (e : script_element) : bool :=
  match e with Element _ _ _ => true | Unclosed _ => false end.

Definition emit (out : str) (e : script_element) : script_element :=
  match e with
  | Element text d rest => Element (out ++ text) d rest
  | Unclosed text => Unclosed (out ++ text)
  end.

(** The tokenizer from a state to the end tag or the end of the input. *)
Fixpoint tokenize (s : tokenizer_state) (input : str) : script_element :=
  match input with
  | [] => Unclosed (pending s)
  | c :: input' =>
      match tokenizer_step s c with
      | Go s' out => emit out (tokenize s' input')
      | EndTag d => Element [] d input'
      end
  end.

(** The names the end tag name states hold are made of letters. *)
Definition wf (s : tokenizer_state) : Prop :=
  match s with
  | ScriptDataEndTagName buf | ScriptDataEscapedEndTagName buf =>
      Forall (λ c, ascii_alpha c = true) buf
  | _ => True
  end.

(** A [<] starts something only before a solidus or an exclamation mark;
    [next] is the character behind it, if any. *)
Definition opens (next : option N) : bool := bool_decide (next ∈ [Some 47; Some 33]).

(** A text in which no [<] starts anything. *)
Fixpoint tag_free (t : str) : bool :=
  match t with
  | [] => true
  | c :: t1 => negb ((c =? 60) && opens (head t1)) && tag_free t1
  end.

(** The text behind the first [<script>]: the markup of [copy_html] before
    it is a [div] and a [button] (lines 172-188), so this is where the
    parser switches to the script data state. *)
Definition script_start (html : str) : option str :=
  i ← find (lit "<script>") html ; Some (drop (i + 8) html).

(** The script element of a document. *)
Definition script_of (html : str) : option script_element :=
  tokenize ScriptData <$> script_start (normalize_newlines html).

(** ** The fixed text of the script *)

(** Lines 190-193, from behind [<script>] up to and with the opening
    backtick. *)
Definition js_head : str :=
  lit "
                function copyToClipboard() {
                    const text = `".

(** Lines 193-207, from the closing backtick up to the end tag. *)
Definition js_tail : str :=
  lit "`;
                    navigator.clipboard.writeText(text).then(function() {
                        // Show success message
                        const button = event.target;
                        const originalText = button.innerHTML;
                        button.innerHTML = '"
  ++ [9989]
  ++ lit "';
                        button.style.color = '#28a745';
                        setTimeout(function() {
                            button.innerHTML = originalText;
                            button.style.color = '#666';
                        }, 1500);
                    }).catch(function(err) {
                        alert("
  ++ [34]
  ++ lit "Failed to copy text. Please copy manually."
  ++ [34]
  ++ lit ");
                    });
                }
                ".

(** Lines 208-209, behind the end tag. *)
Definition html_tail : str :=
  lit "
                ".

(** ** What passes the tokenizer unchanged *)

Section plain.
Implicit Types (c d : N) (t u raw rest input : str) (s : tokenizer_state)
  (e : script_element).

Lemma emit_nil e : emit [] e = e.
Proof. by destruct e. Qed.

Lemma emit_app t u e : emit (t ++ u) e = emit t (emit u e).
Proof. destruct e; simpl; by rewrite (assoc_L (++)). Qed.

Lemma replaced_id t : 0 ∉ t → replaced <$> t = t.
Proof.
  induction t as [|c t IH]; [done|]. rewrite not_elem_of_cons. intros [Hc Ht].
  cbn. rewrite IH by done. unfold replaced. by destruct (N.eqb_spec c 0).
Qed.

Lemma normalize_newlines_id t : 13 ∉ t → normalize_newlines t = t.
Proof.
  induction t as [|c t IH]; [done|]. rewrite not_elem_of_cons. intros [Hc Ht].
  cbn. destruct (N.eqb_spec c 13); [done|]. by rewrite IH.
Qed.

(** Outside an end tag and a comment, a character other than [<] is
    emitted and changes nothing. *)
Lemma tokenize_plain t rest :
  60 ∉ t →
  tokenize ScriptData (t ++ rest) = emit (replaced <$> t) (tokenize ScriptData rest).
Proof.
  induction t as [|c t IH]; [by rewrite emit_nil|].
  rewrite not_elem_of_cons. intros [Hc Ht]. cbn. unfold in_script_data.
  destruct (N.eqb_spec c 60); [done|]. by rewrite IH, <-emit_app.
Qed.

(** Behind a [<] that starts nothing the tokenizer is back in the script
    data state. *)
Lemma less_than_plain input :
  opens (head input) = false →
  tokenize ScriptDataLessThanSign input = emit [60] (tokenize ScriptData input).
Proof.
  destruct input as [|c x]; [done|]. unfold opens. rewrite bool_decide_eq_false.
  rewrite !elem_of_cons, elem_of_nil. intros Hc. cbn.
  destruct (N.eqb_spec c 47) as [->|_]; [destruct Hc; by left|].
  destruct (N.eqb_spec c 33) as [->|_]; [destruct Hc; by right; left|].
  unfold in_script_data. destruct (c =? 60); cbn [emitting]; by rewrite emit_app.
Qed.

Lemma opens_head_app t rest :
  opens (head rest) = false → opens (head t) = false → opens (head (t ++ rest)) = false.
Proof. by destruct t. Qed.

(** A text in which no [<] starts anything is emitted as it is, when what
    follows it does not complete a [<] at its end. *)
Lemma tokenize_tag_free t rest :
  tag_free t = true → opens (head rest) = false →
  tokenize ScriptData (t ++ rest) = emit (replaced <$> t) (tokenize ScriptData rest).
Proof.
  intros Ht Hrest. induction t as [|c t IH]; [by rewrite emit_nil|].
  cbn [tag_free] in Ht. apply andb_true_iff in Ht as [Hc Ht].
  cbn. unfold in_script_data. destruct (N.eqb_spec c 60) as [->|_].
  - rewrite less_than_plain, IH by (by apply opens_head_app, negb_true_iff || done).
    by rewrite emit_nil, <-emit_app.
  - by rewrite IH, <-emit_app.
Qed.

Lemma tag_free_plain t : 60 ∉ t → tag_free t = true.
Proof.
  induction t as [|c t IH]; [done|]. rewrite not_elem_of_cons. intros [Hc Ht].
  cbn. rewrite IH by done. by destruct (N.eqb_spec c 60).
Qed.

End plain.

Section end_tag.
Implicit Types (c d : N) (buf name rest : str).

(** ** End tags *)

(** A name that is [script] in lower case is made of letters. *)
Lemma lower_alpha c : ascii_lower (to_lower c) = true → ascii_alpha c = true.
Proof.
  unfold to_lower, ascii_alpha. destruct (ascii_upper c); [done|]. by intros ->.
Qed.

Lemma script_letters name :
  to_lower <$> name = lit "script" → Forall (λ c, ascii_alpha c = true) name.
Proof.
  intros Hn. apply Forall_forall. intros c Hc. apply lower_alpha.
  assert (to_lower c ∈ lit "script") as Hl by (rewrite <-Hn; by apply list_elem_of_fmap_2).
  revert Hl. generalize (to_lower c). intros l Hl.
  repeat (apply elem_of_cons in Hl as [->|Hl]; [done|]). by apply elem_of_nil in Hl.
Qed.

Lemma alpha_not_tag_end c : ascii_alpha c = true → tag_end c = false.
Proof.
  intros Hc. apply bool_decide_eq_false. intros Hd.
  repeat (apply elem_of_cons in Hd as [->|Hd]; [done|]). by apply elem_of_nil in Hd.
Qed.

(** The end tag name state reads a name to its end. *)
Lemma end_tag_name name : ∀ buf d rest,
  Forall (λ c, ascii_alpha c = true) name →
  to_lower <$> (buf ++ name) = lit "script" → tag_end d = true →
  tokenize (ScriptDataEndTagName buf) (name ++ d :: rest) = Element [] d rest.
Proof.
  induction name as [|c name IH]; intros buf d rest Hn Hs Hd.
  - rewrite app_nil_r in Hs. cbn -[ascii_alpha tag_end]. unfold in_end_tag_name, is_script.
    by rewrite Hd, Hs, bool_decide_eq_true_2.
  - apply Forall_cons in Hn as [Hc Hn]. cbn -[ascii_alpha tag_end].
    unfold in_end_tag_name. rewrite alpha_not_tag_end, Hc by done. cbn -[ascii_alpha tag_end].
    rewrite emit_nil. apply IH; [done| |done]. by rewrite <-(assoc_L (++)).
Qed.

(** An end tag in any case of letters, before any character that ends a
    tag name, ends the element. *)
Lemma tokenize_end_tag name d rest :
  to_lower <$> name = lit "script" → tag_end d = true →
  tokenize ScriptData (lit "</" ++ name ++ d :: rest) = Element [] d rest.
Proof.
  intros Hs Hd. pose proof (script_letters _ Hs) as Hn.
  destruct name as [|c name]; [done|]. apply Forall_cons in Hn as [Hc Hn].
  change (lit "</") with [60; 47].
  cbn -[ascii_alpha tag_end]. rewrite Hc. unfold in_end_tag_name.
  rewrite alpha_not_tag_end, Hc by done.
  cbn -[ascii_alpha tag_end]. rewrite !emit_nil. by apply end_tag_name.
Qed.

End end_tag.

(** ** What the escaper writes *)

Section escaper.
Implicit Types (c : N) (t u : str).

(** The escaper writes characters of the text, backslashes and the letters
    [n] and [r]. *)
Lemma elem_of_esc c t : c ∈ esc t → c ∈ t ∨ c ∈ [92; 110; 114].
Proof.
  induction t as [|d t IH]; [set_solver|]. cbn [esc].
  rewrite !elem_of_cons in IH |- *.
  repeat case_match; rewrite !elem_of_cons;
    rewrite ?andb_true_iff, ?N.eqb_eq in *; intuition (subst; tauto).
Qed.

(** It writes no carriage return: newline normalisation finds nothing to
    do in [copy_html]. *)
Lemma esc_no_cr t : 13 ∉ esc t.
Proof.
  induction t as [|d t IH]; [set_solver|]. cbn [esc].
  repeat case_match; rewrite !not_elem_of_cons;
    rewrite ?andb_true_iff, ?N.eqb_eq, ?N.eqb_neq in *; intuition (subst; done).
Qed.

Lemma esc_keeps c t : c ∉ t → c ∉ [92; 110; 114] → c ∉ esc t.
Proof. intros ?? [?|?]%elem_of_esc; done. Qed.

(** In particular it writes no NUL of its own, and it leaves a [<] and the
    character behind it as they are. *)
Lemma opens_esc t : opens (head (esc t)) = opens (head t).
Proof.
  destruct t as [|c t]; [done|]. cbn [esc].
  repeat case_match; rewrite ?andb_true_iff, ?N.eqb_eq in *;
    destruct_and?; by subst.
Qed.

Lemma tag_free_esc t : tag_free (esc t) = tag_free t.
Proof.
  induction t as [|c t IH]; [done|]. cbn [esc tag_free]. rewrite <-IH, <-opens_esc.
  repeat case_match; rewrite ?andb_true_iff, ?N.eqb_eq in *; destruct_and?; subst;
    cbn [tag_free head]; done.
Qed.

(** It leaves letters and the characters that end a tag name, but for
    the line feed. *)
Lemma esc_letters name x :
  Forall (λ c, ascii_alpha c = true) name → esc (name ++ x) = name ++ esc x.
Proof.
  induction 1 as [|c name Hc _ IH]; [done|].
  rewrite <-app_comm_cons, esc_ordinary, IH; [done|].
  intros Hd. repeat (apply elem_of_cons in Hd as [->|Hd]; [done|]). by apply elem_of_nil in Hd.
Qed.

Lemma esc_tag_end d x : d ∈ [9; 12; 32; 47; 62] → esc (d :: x) = d :: esc x.
Proof.
  intros Hd. apply esc_ordinary. intros Hd'.
  repeat (apply elem_of_cons in Hd as [->|Hd]; [set_solver|]). by apply elem_of_nil in Hd.
Qed.

Lemma esc_no_nul t : 0 ∉ t → 0 ∉ esc t.
Proof. intros. apply esc_keeps; [done|compute_done]. Qed.

End escaper.

(** ** The tokenizer keeps the input *)

Section conserve.
Implicit Types (c d : N) (buf raw name input rest text : str) (s : tokenizer_state).

(** Boolean tests of the step function as equations. *)
Ltac bools :=
  repeat match goal with
  | H : (_ =? _) = true |- _ => apply N.eqb_eq in H; subst
  | H : (_ =? _) = false |- _ => apply N.eqb_neq in H
  | H : _ && _ = true |- _ => apply andb_true_iff in H as [? ?]
  end.

Lemma replaced_ne c : c ≠ 0 → replaced c = c.
Proof. unfold replaced. by destruct (N.eqb_spec c 0). Qed.

Lemma alpha_ne c : ascii_alpha c = true → c ≠ 0.
Proof. by intros ? ->. Qed.

Lemma tag_end_ne c : tag_end c = true → c ≠ 0.
Proof. by intros ? ->. Qed.

Lemma replaced_letters buf :
  Forall (λ c, ascii_alpha c = true) buf → replaced <$> buf = buf.
Proof.
  induction 1 as [|c buf Hc _ IH]; [done|].
  cbn. by rewrite IH, replaced_ne by by apply alpha_ne.
Qed.

(** One character: what was held and the character are what is emitted
    and what is held afterwards. *)
Lemma step_conserves s c s' out :
  wf s → tokenizer_step s c = Go s' out →
  wf s' ∧ ∃ raw, pending s ++ [c] = raw ++ pending s' ∧ out = replaced <$> raw.
Proof.
  intros Hs.
  destruct s; cbn [tokenizer_step];
    unfold in_end_tag_name, in_double_escape, in_script_data, in_escaped,
      in_double_escaped, emitting;
    repeat case_match; intros ?; simplify_eq; bools.
  all: split; [try done; by apply Forall_app, conj, Forall_singleton ||
                           by apply Forall_singleton|].
  all: match goal with |- ∃ raw, ?p ++ [?c] = _ ∧ _ =>
    first [by exists [] | exists p; split; [done|] | exists (p ++ [c]); split; [by rewrite app_nil_r|]]
  end.
  all: cbn; rewrite ?fmap_app, ?app_nil_r, ?replaced_letters by done; cbn;
    rewrite ?replaced_ne by first [done | by apply alpha_ne | by apply tag_end_ne]; done.
Qed.

(** An end tag is found on a character that ends a tag name, behind
    [</] and a name that is [script] in lower case. *)
Lemma step_end s c d :
  wf s → tokenizer_step s c = EndTag d →
  d = c ∧ tag_end c = true ∧
  ∃ name, pending s = 60 :: 47 :: name ∧ to_lower <$> name = lit "script".
Proof.
  intros Hs.
  destruct s; cbn [tokenizer_step];
    unfold in_end_tag_name, in_double_escape, in_script_data, in_escaped,
      in_double_escaped, emitting;
    repeat case_match; intros ?; simplify_eq; bools.
  all: split_and!; [done..|eexists; split; [done|]].
  all: by match goal with H : is_script _ = true |- _ => apply bool_decide_eq_true in H end.
Qed.

(** An element that is closed: its text is the input before an end tag,
    and the rest the input behind it. *)
Lemma tokenize_split input : ∀ s text d rest,
  wf s → tokenize s input = Element text d rest →
  ∃ raw name,
    pending s ++ input = raw ++ 60 :: 47 :: name ++ d :: rest ∧
    text = replaced <$> raw ∧ to_lower <$> name = lit "script" ∧ tag_end d = true.
Proof.
  induction input as [|c input IH]; intros s text d rest Hs; [done|].
  cbn [tokenize]. destruct (tokenizer_step s c) as [s' out|d'] eqn:Hstep.
  - destruct (step_conserves _ _ _ _ Hs Hstep) as (Hs' & raw & Hraw & ->).
    destruct (tokenize s' input) as [text' d'' rest'|] eqn:Htok; [|done].
    intros [= <- <- <-].
    destruct (IH _ _ _ _ Hs' Htok) as (raw' & name & Hin & -> & Hname & Hd).
    exists (raw ++ raw'), name. split_and!; [|by rewrite fmap_app|done..].
    by rewrite (cons_middle c), (assoc_L (++)), Hraw, <-!(assoc_L (++)), Hin.
  - destruct (step_end _ _ _ Hs Hstep) as (-> & Hd & name & Hp & Hname).
    intros [= <- <- <-]. exists [], name. by rewrite Hp.
Qed.

(** An element that is not closed: its text is the whole input. *)
Lemma tokenize_unclosed input : ∀ s text,
  wf s → tokenize s input = Unclosed text →
  text = replaced <$> (pending s ++ input).
Proof.
  induction input as [|c input IH]; intros s text Hs.
  - intros [= <-]. rewrite app_nil_r.
    destruct s; cbn; try done; by rewrite replaced_letters.
  - cbn [tokenize]. destruct (tokenizer_step s c) as [s' out|d'] eqn:Hstep; [|done].
    destruct (step_conserves _ _ _ _ Hs Hstep) as (Hs' & raw & Hraw & ->).
    destruct (tokenize s' input) as [|text'] eqn:Htok; [done|].
    intros [= <-]. rewrite (IH _ _ Hs' Htok), <-fmap_app.
    by rewrite (cons_middle c), !(assoc_L (++)), Hraw.
Qed.

End conserve.

(** ** The script of [copy_html] *)

Section copy.
Implicit Types (t pre post x : str).

(** The markup of lines 172-189 ends with the only [<script>] of the
    document. *)
Lemma copy_html_script_start x :
  script_start (copy_html_prefix ++ x) = Some (js_head ++ x).
Proof. by vm_compute. Qed.

Lemma copy_html_suffix_split :
  copy_html_suffix = js_tail ++ lit "</script>" ++ html_tail.
Proof. done. Qed.

Lemma copy_html_no_cr t : 13 ∉ copy_html t.
Proof.
  unfold copy_html. rewrite js_escape_esc, !not_elem_of_app.
  split_and!; [compute_done|apply esc_no_cr|
               compute_done].
Qed.

(** The script element of the document, from the tokenizer on what
    follows the opening of the literal. *)
Lemma script_of_copy_html t :
  script_of (copy_html t)
  = Some (emit js_head (tokenize ScriptData (esc t ++ copy_html_suffix))).
Proof.
  unfold script_of. rewrite normalize_newlines_id by apply copy_html_no_cr.
  unfold copy_html. rewrite copy_html_script_start, js_escape_esc. cbn [fmap option_fmap option_map].
  rewrite (tokenize_plain js_head) by compute_done.
  by rewrite replaced_id by compute_done.
Qed.

(** The script behind the literal is closed by the end tag of line 208. *)
Lemma tokenize_js_tail :
  tokenize ScriptData copy_html_suffix = Element js_tail 62 html_tail.
Proof. by vm_compute. Qed.

(** A text in which no [<] starts anything, and without NUL, leaves the
    script as written. *)
Lemma script_of_plain t :
  tag_free t = true → 0 ∉ t →
  script_of (copy_html t)
  = Some (Element (js_head ++ js_escape t ++ js_tail) 62 html_tail).
Proof.
  intros Hlt Hnul. rewrite script_of_copy_html, js_escape_esc.
  rewrite tokenize_tag_free, tokenize_js_tail by (by rewrite ?tag_free_esc).
  by rewrite replaced_id by (by apply esc_no_nul).
Qed.

(** A text that holds an end tag ends the element where the tag stands. *)
Lemma script_of_end_tag pre name d post :
  tag_free pre = true → 0 ∉ pre →
  to_lower <$> name = lit "script" → d ∈ [9; 12; 32; 47; 62] →
  script_of (copy_html (pre ++ lit "</" ++ name ++ d :: post))
  = Some (Element (js_head ++ js_escape pre) d (js_escape post ++ copy_html_suffix)).
Proof.
  intros Hlt Hnul Hname Hd. rewrite script_of_copy_html, !js_escape_esc.
  assert (tag_end d = true) as Hend
    by (apply bool_decide_eq_true; set_solver).
  rewrite esc_app by done. change (lit "</") with [60; 47].
  rewrite <-!app_comm_cons, 2!esc_ordinary by compute_done. cbn [app].
  rewrite esc_letters, esc_tag_end by (done || by apply script_letters).
  rewrite <-!(assoc_L (++)), tokenize_tag_free by (by rewrite ?tag_free_esc).
  change ((60 :: 47 :: ?x) ++ ?y) with (lit "</" ++ x ++ y).
  rewrite <-(assoc_L (++)), <-app_comm_cons, tokenize_end_tag by done.
  rewrite replaced_id by (by apply esc_no_nul). cbn [emit]. by rewrite app_nil_r.
Qed.

(** The engine finds the closing backtick at the head of [js_tail], and
    before it the text, when the text holds no backslash. *)
Lemma js_template_script t :
  92 ∉ t → js_template (js_escape t ++ js_tail) = Closed t (drop 1 js_tail).
Proof.
  intros Hb. rewrite js_escape_esc, js_template_esc by done.
  change (js_template js_tail) with (Closed [] (drop 1 js_tail)).
  by rewrite cooks_Closed, app_nil_r.
Qed.

(** A script that stops inside the literal does not parse. *)
Lemma js_template_cut t : 92 ∉ t → js_template (js_escape t) = Unterminated.
Proof.
  intros Hb. rewrite js_escape_esc, <-(app_nil_r (esc t)), js_template_esc by done.
  change (js_template []) with Unterminated. clear Hb. unfold cooks.
  induction t as [|c t IH]; [done|]. cbn. by rewrite IH.
Qed.

End copy.

(** ** Main results *)

Section results.
Implicit Types (t pre post input : str).

(** for a text in which no [<] stands before a solidus or an
    exclamation mark, and without NUL, the script element of the
    document is the script as written in lines 190-207 around the escaped
    text, closed by the end tag of line 208; and when the text holds no
    backslash either, the literal of that script is read back as the text:
    the button copies what the page shows. *)
Theorem script_intact t :
  tag_free t = true → 0 ∉ t →
  script_of (copy_html t)
  = Some (Element (js_head ++ js_escape t ++ js_tail) 62 html_tail) ∧
  (92 ∉ t → js_template (js_escape t ++ js_tail) = Closed t (drop 1 js_tail)).
Proof. intros Hlt Hnul. split; [by apply script_of_plain|apply js_template_script]. Qed.

(** C29: a text that holds an end tag of a script element, in any case of
    letters and before any character that ends a tag name, ends the script
    element inside the literal.  The script the browser gets stops at the
    end of the text before the tag, so its literal is never closed and the
    script is not run; what follows the tag in the text is handed to the
    HTML parser as markup of the document, before the rest of the
    script. *)
Theorem script_injection pre name d post :
  tag_free pre = true → 0 ∉ pre →
  to_lower <$> name = lit "script" → d ∈ [9; 12; 32; 47; 62] →
  script_of (copy_html (pre ++ lit "</" ++ name ++ d :: post))
  = Some (Element (js_head ++ js_escape pre) d (js_escape post ++ copy_html_suffix)) ∧
  (92 ∉ pre → js_template (js_escape pre) = Unterminated).
Proof.
  intros Hlt Hnul Hname Hd. split; [by apply script_of_end_tag|apply js_template_cut].
Qed.

(** C37: the tokenizer neither loses nor invents a character.  The text
    of a closed element and the rest are the input around an end tag whose
    name is [script] in some case of letters, and the text of an element
    that is not closed is the whole input; in both a NUL is replaced. *)
Theorem tokenize_conserves input :
  match tokenize ScriptData input with
  | Element text d rest =>
      ∃ raw name,
        input = raw ++ lit "</" ++ name ++ d :: rest ∧ text = replaced <$> raw ∧
        to_lower <$> name = lit "script" ∧ tag_end d = true
  | Unclosed text => text = replaced <$> input
  end.
Proof.
  destruct (tokenize ScriptData input) as [text d rest|text] eqn:Htok.
  - by apply (tokenize_split input ScriptData).
  - by apply (tokenize_unclosed input ScriptData).
Qed.

End results.

(** ** Witnesses and examples *)

Lemma script_intact_witness :
  script_of (copy_html (lit "1 < 2"))
  = Some (Element (js_head ++ js_escape (lit "1 < 2") ++ js_tail) 62 html_tail) ∧
  (92 ∉ lit "1 < 2" →
   js_template (js_escape (lit "1 < 2") ++ js_tail) = Closed (lit "1 < 2") (drop 1 js_tail)).
Proof. apply script_intact; compute_done. Defined.

Lemma script_injection_witness :
  script_of (copy_html (lit "Done." ++ lit "</" ++ lit "Script" ++ 62
                          :: lit "<img src=x onerror=alert(1)>"))
  = Some (Element (js_head ++ js_escape (lit "Done.")) 62
            (js_escape (lit "<img src=x onerror=alert(1)>") ++ copy_html_suffix)) ∧
  (92 ∉ lit "Done." → js_template (js_escape (lit "Done.")) = Unterminated).
Proof. apply script_injection; compute_done. Defined.

(** The markup that follows the tag in the text reaches the parser as it
    is: the escaper changes none of its characters. *)
Example injected_markup :
  js_escape (lit "<img src=x onerror=alert(1)>") = lit "<img src=x onerror=alert(1)>".
Proof. done. Qed.

(** A text can also keep the element open: behind [<!--<script>] the end
    tag of line 208 closes nothing, and the script is never run. *)
Example script_never_closed :
  intact <$> script_of (copy_html (lit "a <!--<script> b")) = Some false.
Proof. by vm_compute. Qed.
