(* ===== verification/Humanizer.v ===== *)
(** * Humanizer: the class [TextHumanizerRAG] (lines 17-121)

    - [TextHumanizerRAG] holds the four fields of the object; [ChatGroq] is
      a client, which is what its constructor was given; [message] is a
      chat message.
    - [Remote] is the interface of the remote library: constructing a
      client (lines 30-34) and invoking it (line 116), over a world [W]
      that the development never inspects.  Both may raise.
    - [update_model_settings], [init] (the method [__init__]) and
      [humanize_text] are the three methods, programs of [prog] over the
      object and the world; [humanize_text_call] is a call of the last
      with the arguments it may leave out (line 90).
    - [logged] wraps any implementation of [Remote] so that it records the
      calls it receives, the test double the specification asks for, and
      [logged_refines] shows that recording changes nothing else.

    - [humanize_spec] is the contract of one call of [humanize_text], one
      rule for each way the call can go, and [coherent] the invariant that
      the client is the one the fields describe.
    - [double] is a small implementation of [Remote] on which the results
      are run.

    The main results: [humanize_text] never raises
    ([humanize_text_total]) and implements its contract
    ([humanize_text_refines]); it returns ["Error: " ++ str(e)] or the
    cleaned answer ([humanize_text_output]); it sends the system message
    and the prompt and nothing else ([humanize_text_trace]), to a client
    with the requested temperature when the object is coherent
    ([humanize_text_temperature]); it changes neither key nor model
    ([humanize_text_frame]); [coherent] is established by [init]
    ([init_establishes]) and preserved while the constructor returns
    ([humanize_text_keeps_coherent]); a constructor that raises leaves the
    object incoherent and the next call answers from the old client
    ([stale_client_after_failure]); a call that leaves style and
    temperature out, on a new object, invokes the client of [__init__]
    with the "conversational" template ([humanize_text_defaults]). *)

From Stdlib Require Import PrimFloat FloatAxioms SpecFloat.
From stdpp Require Import strings.
From S2P Require Import Prelude PyStr Regex Sanitize Prompt.

(** ** Floats as Python compares them *)

(** [a != b] on floats: IEEE inequality, so [nan != nan]. *)
Definition float_ne (a b : float) : bool := negb (PrimFloat.eqb a b).

#[export] Instance float_eq_dec : EqDecision float.
Proof.
  intros x y. destruct (Leibniz.eqb x y) eqn:Heq.
  - left. by apply Leibniz.eqb_spec.
  - right. intros Hxy%Leibniz.eqb_spec. congruence.
Defined.

(** A float that is ordered with another is not a NaN, and Python finds
    it equal to itself. *)
Lemma float_ne_ordered (a t : float) :
  PrimFloat.leb a t = true → float_ne t t = false.
Proof.
  unfold float_ne. rewrite FloatAxioms.leb_spec, FloatAxioms.eqb_spec.
  unfold SFleb, SFeqb.
  destruct (FloatOps.Prim2SF t) as [s|s| |s m e];
    [done|by destruct s|by destruct (FloatOps.Prim2SF a)|].
  intros _. cbn [SFcompare].
  destruct s; by rewrite Z.compare_refl, Pos.compare_cont_refl.
Qed.

(** [0.7], the binary64 number the literal of line 23 denotes. *)
Definition default_temperature : float := 0x1.6666666666666p-1%float.

(** ** Data *)

(** [langchain.schema] messages: a role and a content. *)
Inductive message : Type :=
| SystemMessage (content : str)
| HumanMessage (content : str).

#[export] Instance message_eq_dec : EqDecision message.
Proof. solve_decision. Defined.

(** A client is determined by the arguments of [ChatGroq(...)]. *)
Record ChatGroq : Type := {
  cg_model : str;
  cg_temperature : float;
  cg_api_key : str;
}.

#[export] Instance ChatGroq_eq_dec : EqDecision ChatGroq.
Proof. solve_decision. Defined.

(** The fields of a [TextHumanizerRAG] object. *)
Record TextHumanizerRAG : Type := {
  api_key : str;
  model : str;
  llm : option ChatGroq;
  temperature : float;
}.

#[export] Instance TextHumanizerRAG_eq_dec : EqDecision TextHumanizerRAG.
Proof. solve_decision. Defined.

Definition set_model (m : str) (o : TextHumanizerRAG) : TextHumanizerRAG :=
  {| api_key := api_key o; model := m; llm := llm o; temperature := temperature o |}.
Definition set_temperature (t : float) (o : TextHumanizerRAG) : TextHumanizerRAG :=
  {| api_key := api_key o; model := model o; llm := llm o; temperature := t |}.
Definition set_llm (c : option ChatGroq) (o : TextHumanizerRAG) : TextHumanizerRAG :=
  {| api_key := api_key o; model := model o; llm := c; temperature := temperature o |}.

(** The system message of lines 99-110, character for character. *)
Definition SYSTEM_PROMPT : str :=
  lit "
                            You are a highly skilled writing assistant specialized in transforming robotic or overly technical text into clear, engaging, and human-like blog-style content.

                            Your task is to:
                            - Maintain the original meaning and factual accuracy.
                            - Use a natural, conversational tone appropriate for blog readers.
                            - Organize content using clear **headings**, **subheadings**, and **bullet points** or **numbered lists** where appropriate.
                            - Highlight key ideas with formatting if needed (e.g., bold or italics).
                            - Add helpful transitions and context to improve readability.
                            - Ensure the final result reads like a professional and informative blog post.
                            - keep the Blog Post atleast 1500 words Minimum
                                ".

(** The model [__init__] selects (line 21). *)
Definition default_model : str := lit "gemma2-9b-it".

(** ** The remote library *)

(** [groq_new c] is the constructor call [ChatGroq(model=.., temperature=..,
    groq_api_key=..)]; [groq_invoke c msgs] is [c.invoke(msgs).content].
    A client is the record of the arguments it was built with.  The
    content is a [str]: a response whose content is none makes [re.sub] of
    line 117 raise [TypeError], inside the [try] of line 91 as the
    invocation is, and is an [Err] of [groq_invoke] here. *)
Class Remote (W : Type) {E : PyExn} : Type := {
  groq_new : ChatGroq → prog W exn ();
  groq_invoke : ChatGroq → list message → prog W exn str;
}.

(** ** The methods *)

Section methods.
Context {W : Type} {E : PyExn} {R : Remote W}.

(** The state a method runs in: the object and the world. *)
Abbreviation state := (TextHumanizerRAG * W)%type (only parsing).

(** Reading and assigning fields of [self], and running the library. *)
Definition self_get {A} (f : TextHumanizerRAG → A) : prog state exn A :=
  gets (λ st, f st.1).
Definition self_set (f : TextHumanizerRAG → TextHumanizerRAG) : prog state exn () :=
  modify (λ st, (f st.1, st.2)).
Definition on_world {A} (m : prog W exn A) : prog state exn A :=
  λ st, let (r, w) := m st.2 in (r, (st.1, w)).

(** Lines 26-34.  The two fields are assigned before the constructor runs,
    and [self.llm] after it returned. *)
Definition update_model_settings (model' : str) (temperature' : float)
    : prog state exn () :=
  self_set (set_model model') ;;
  self_set (set_temperature temperature') ;;
  m ← self_get model ;
  k ← self_get api_key ;
  let c := {| cg_model := m; cg_temperature := temperature'; cg_api_key := k |} in
  on_world (groq_new c) ;;
  self_set (set_llm (Some c)).

(** Lines 18-24: [TextHumanizerRAG(api_key)].  The object exists only if
    the constructor returns. *)
Definition init (key : str) : prog W exn TextHumanizerRAG :=
  λ w,
    let self := {| api_key := key; model := default_model; llm := None;
                   temperature := default_temperature |} in
    match update_model_settings (model self) (temperature self) (self, w) with
    | (Ok _, (self', w')) => (Ok self', w')
    | (Err e, (_, w')) => (Err e, w')
    end.

(** [self.llm.invoke(messages)]: an attribute of [None] raises. *)
Definition llm_invoke (msgs : list message) : prog state exn str :=
  c ← self_get llm ;
  match c with
  | Some c => on_world (groq_invoke c msgs)
  | None => raise (AttributeError (lit "invoke"))
  end.

(** The two messages of lines 98-114. *)
Definition messages_for (prompt : str) : list message :=
  [SystemMessage SYSTEM_PROMPT; HumanMessage prompt].

(** Lines 92-118, the body of the [try]. *)
Definition humanize_body (text style : str) (temperature' : float)
    : prog state exn str :=
  cur ← self_get temperature ;
  (if float_ne cur temperature'
   then m ← self_get model ; update_model_settings m temperature'
   else mret ()) ;;
  prompt ← lift (create_humanization_prompt text style) ;
  content ← llm_invoke (messages_for prompt) ;
  mret (clean_response content).

(** Lines 120-121, the handler. *)
Definition error_text (e : exn) : str := lit "Error: " ++ exn_str e.

(** Lines 90-121. *)
Definition humanize_text (text style : str) (temperature' : float)
    : prog state exn str :=
  try_except (humanize_body text style temperature')
             (λ e, mret (error_text e)).

(** The default of the parameter [temperature] (line 90), the literal
    [0.7] once more. *)
Definition temperature_default : float := 0x1.6666666666666p-1%float.

(** A call of the method as Python binds its arguments: a [style] or a
    [temperature] left out is the default of line 90. *)
Definition humanize_text_call (text : str) (style : option str)
    (temperature' : option float) : prog state exn str :=
  humanize_text text (default style_default style)
                (default temperature_default temperature').

(** What a request comes to: the cleaned answer (line 117), or the text
    of the handler (line 121). *)
Definition answer_text (r : result exn str) : str :=
  match r with
  | Ok content => clean_response content
  | Err e => error_text e
  end.

(** ** Invariants *)

(** The client is the one the fields describe. *)
Definition coherent (o : TextHumanizerRAG) : Prop :=
  llm o = Some {| cg_model := model o; cg_temperature := temperature o;
                  cg_api_key := api_key o |}.

(** The object has a client. *)
Definition has_client (o : TextHumanizerRAG) : Prop := is_Some (llm o).

End methods.

Arguments coherent !_ /.
Arguments has_client !_ /.

(** [run] exposes the state-passing functions of the methods. *)
Ltac run :=
  unfold humanize_text, humanize_body, llm_invoke, update_model_settings, init,
    self_get, self_set, on_world;
  prog_unfold; simpl.

(** ** No exception leaves [humanize_text] *)

(** C1: whatever the remote library does (any implementation of [Remote],
    raising or not), and whatever the object and the arguments are,
    [humanize_text] returns a string: no [Exception] leaves it
    (lines 91, 120-121). *)
Theorem humanize_text_total {W} {E : PyExn} {R : Remote W}
    (text style : str) (t : float) (o : TextHumanizerRAG) (w : W) :
  ∃ out st, humanize_text text style t (o, w) = (Ok out, st).
Proof.
  assert (no_raise (humanize_text text style t)) as Hok
    by (unfold humanize_text; auto with py).
  specialize (Hok (o, w)).
  destruct (humanize_text text style t (o, w)) as [[out|e] st]; [eauto|done].
Qed.

(** The client the fields of [o] describe at temperature [t]. *)
Definition client_of (o : TextHumanizerRAG) (t : float) : ChatGroq :=
  {| cg_model := model o; cg_temperature := t; cg_api_key := api_key o |}.

(** The object after the temperature was assigned. *)
Definition retuned (t : float) (o : TextHumanizerRAG) : TextHumanizerRAG :=
  set_temperature t (set_model (model o) o).

(** The object after the client was rebuilt at [t]. *)
Definition rebuilt (t : float) (o : TextHumanizerRAG) : TextHumanizerRAG :=
  set_llm (Some (client_of o t)) (retuned t o).

(** The messages of a request. *)
Definition request (text style : str) : list message :=
  messages_for (resolve style ++ frame text).

(** ** The methods, branch by branch *)

Section runs.
Context {W : Type} {E : PyExn} {R : Remote W}.
Implicit Types (o : TextHumanizerRAG) (w : W) (t : float) (c : ChatGroq).

(** [update_model_settings]: the fields are assigned in any case, the
    client only if the constructor returns. *)
Lemma update_model_settings_run m t o w :
  update_model_settings m t (o, w) =
    let c := client_of (set_model m o) t in
    match groq_new c w with
    | (Ok _, w') => (Ok (), (set_llm (Some c) (set_temperature t (set_model m o)), w'))
    | (Err e, w') => (Err e, (set_temperature t (set_model m o), w'))
    end.
Proof. run. by destruct (groq_new _ w) as [[[]|e] w']. Qed.

(** [humanize_text] in terms of the answers of the remote library.  On the
    left the temperature differs and the client is rebuilt first; on the
    right the client of the object is used. *)
Lemma humanize_text_run text style t o w :
  humanize_text text style t (o, w) =
    let answer o' (run : result exn str * W) :=
      match run with
      | (Ok content, w') => (Ok (clean_response content), (o', w'))
      | (Err e, w') => (Ok (error_text e), (o', w'))
      end in
    if float_ne (temperature o) t then
      match groq_new (client_of o t) w with
      | (Ok _, w1) =>
          answer (rebuilt t o) (groq_invoke (client_of o t) (request text style) w1)
      | (Err e, w1) => (Ok (error_text e), (retuned t o, w1))
      end
    else
      match llm o with
      | Some c => answer o (groq_invoke c (request text style) w)
      | None => (Ok (error_text (AttributeError (lit "invoke"))), (o, w))
      end.
Proof.
  unfold humanize_text, humanize_body, try_except, rebuilt, retuned, request.
  unfold mbind at 1, prog_mbind, prog_bind at 1. unfold self_get at 1, gets. simpl.
  destruct (float_ne (temperature o) t).
  - unfold mbind at 1, prog_mbind, prog_bind at 1.
    unfold mbind at 1, prog_mbind, prog_bind at 1. unfold self_get at 1, gets.
    simpl. rewrite update_model_settings_run. unfold client_of. simpl.
    destruct (groq_new _ w) as [[[]|e] w1]; [|done].
    run. rewrite create_prompt_ok.
    by destruct (groq_invoke _ _ w1) as [[content|e] w2].
  - run. rewrite create_prompt_ok. destruct (llm o) as [c|]; [|done]. simpl.
    by destruct (groq_invoke _ _ w) as [[content|e] w2].
Qed.

End runs.

(** ** What [humanize_text] promises

    [humanize_spec text style t o w out] is the contract of one call in the
    object [o] and the world [w], stated on the answers of the remote
    library only.  One rule per way the call can go. *)

Section spec.
Context {W : Type} {E : PyExn} {R : Remote W}.
Implicit Types (o : TextHumanizerRAG) (w : W) (t : float) (c : ChatGroq).

Inductive humanize_spec (text style : str) t o w
    : result exn str * (TextHumanizerRAG * W) → Prop :=
| spec_kept_answer c content w' :
    float_ne (temperature o) t = false →
    llm o = Some c →
    groq_invoke c (request text style) w = (Ok content, w') →
    humanize_spec text style t o w (Ok (clean_response content), (o, w'))
| spec_kept_raise c e w' :
    float_ne (temperature o) t = false →
    llm o = Some c →
    groq_invoke c (request text style) w = (Err e, w') →
    humanize_spec text style t o w (Ok (error_text e), (o, w'))
| spec_kept_none :
    float_ne (temperature o) t = false →
    llm o = None →
    humanize_spec text style t o w
      (Ok (error_text (AttributeError (lit "invoke"))), (o, w))
| spec_new_answer content w1 w2 :
    float_ne (temperature o) t = true →
    groq_new (client_of o t) w = (Ok (), w1) →
    groq_invoke (client_of o t) (request text style) w1 = (Ok content, w2) →
    humanize_spec text style t o w (Ok (clean_response content), (rebuilt t o, w2))
| spec_new_raise e w1 w2 :
    float_ne (temperature o) t = true →
    groq_new (client_of o t) w = (Ok (), w1) →
    groq_invoke (client_of o t) (request text style) w1 = (Err e, w2) →
    humanize_spec text style t o w (Ok (error_text e), (rebuilt t o, w2))
| spec_new_failed e w1 :
    float_ne (temperature o) t = true →
    groq_new (client_of o t) w = (Err e, w1) →
    humanize_spec text style t o w (Ok (error_text e), (retuned t o, w1)).

(** The method implements the contract. *)
Lemma humanize_text_spec text style t o w :
  humanize_spec text style t o w (humanize_text text style t (o, w)).
Proof.
  rewrite humanize_text_run. cbv zeta.
  destruct (float_ne _ t) eqn:Hne.
  - destruct (groq_new _ w) as [[[]|e] w1] eqn:Hnew; [|by eapply spec_new_failed].
    destruct (groq_invoke _ _ w1) as [[content|e] w2] eqn:Hinv.
    + by eapply spec_new_answer.
    + by eapply spec_new_raise.
  - destruct (llm o) as [c|] eqn:Hc; [|by apply spec_kept_none].
    destruct (groq_invoke _ _ w) as [[content|e] w2] eqn:Hinv.
    + by eapply spec_kept_answer.
    + by eapply spec_kept_raise.
Qed.

(** The contract determines the outcome. *)
Lemma humanize_spec_det text style t o w out1 out2 :
  humanize_spec text style t o w out1 →
  humanize_spec text style t o w out2 → out1 = out2.
Proof. destruct 1; destruct 1; congruence. Qed.

End spec.

(** [humanize_cases H] splits a derivation [H] of the contract into the six
    ways the call went and rewrites with the answers. *)
Ltac humanize_cases H :=
  destruct H
    as [c content w' Hne Hc Hinv|c e w' Hne Hc Hinv|Hne Hc|content w1 w2 Hne Hnew Hinv
       |e w1 w2 Hne Hnew Hinv|e w1 Hne Hnew];
  simpl; rewrite ?Hne, ?Hc, ?Hnew, ?Hinv; simpl.

(** ** Properties of the methods *)

(** Python's [==] on the temperatures, or the very same float (a NaN). *)
Definition same_temperature (a b : float) : Prop :=
  float_ne a b = false ∨ a = b.

Section props.
Context {W : Type} {E : PyExn} {R : Remote W}.
Implicit Types (o : TextHumanizerRAG) (w : W) (t : float) (c : ChatGroq).

Lemma error_text_prefix (e : exn) : startswith (lit "Error: ") (error_text e) = true.
Proof. apply startswith_app. Qed.

Lemma humanize_text_ok text style t o w :
  is_ok (humanize_text text style t (o, w)).1 = true.
Proof. by destruct (humanize_text_spec text style t o w). Qed.

Lemma humanize_text_answer text style t o w :
  ∃ r o' w', humanize_text text style t (o, w) = (Ok (answer_text r), (o', w')).
Proof.
  humanize_cases (humanize_text_spec text style t o w);
    ((by exists (Ok content); eauto) || by eexists (Err _); eauto).
Qed.

Lemma update_model_settings_fields m t o w :
  let st := (update_model_settings m t (o, w)).2.1 in
  api_key st = api_key o ∧ model st = m ∧ temperature st = t.
Proof.
  rewrite update_model_settings_run. simpl.
  by destruct (groq_new _ w) as [[[]|e] w'].
Qed.

Lemma update_model_settings_ok m t o o' w w' :
  update_model_settings m t (o, w) = (Ok (), (o', w')) →
  groq_new (client_of (set_model m o) t) w = (Ok (), w') ∧
  o' = {| api_key := api_key o; model := m; temperature := t;
          llm := Some {| cg_model := m; cg_temperature := t;
                         cg_api_key := api_key o |} |}.
Proof.
  rewrite update_model_settings_run. simpl.
  destruct (groq_new _ w) as [[[]|e] w1]; naive_solver.
Qed.

Lemma update_model_settings_err m t e o o' w w' :
  update_model_settings m t (o, w) = (Err e, (o', w')) →
  groq_new (client_of (set_model m o) t) w = (Err e, w') ∧
  o' = {| api_key := api_key o; model := m; temperature := t; llm := llm o |}.
Proof.
  rewrite update_model_settings_run. simpl.
  destruct (groq_new _ w) as [[[]|e1] w1]; naive_solver.
Qed.

Lemma init_run key w :
  init key w =
    let c := {| cg_model := default_model; cg_temperature := default_temperature;
                cg_api_key := key |} in
    match groq_new c w with
    | (Ok _, w') => (Ok {| api_key := key; model := default_model; llm := Some c;
                           temperature := default_temperature |}, w')
    | (Err e, w') => (Err e, w')
    end.
Proof.
  unfold init. rewrite update_model_settings_run. simpl.
  by destruct (groq_new _ w) as [[[]|e] w'].
Qed.

Lemma rebuilt_coherent t o : coherent (rebuilt t o).
Proof. done. Qed.

Lemma coherent_client o : coherent o → llm o = Some (client_of o (temperature o)).
Proof. done. Qed.

Lemma coherent_has_client o : coherent o → has_client o.
Proof. intros Ho. unfold has_client. by rewrite (coherent_client o Ho). Qed.

Lemma retuned_fields t o :
  api_key (retuned t o) = api_key o ∧ model (retuned t o) = model o ∧
  temperature (retuned t o) = t ∧ llm (retuned t o) = llm o.
Proof. done. Qed.

Lemma rebuilt_fields t o :
  api_key (rebuilt t o) = api_key o ∧ model (rebuilt t o) = model o ∧
  temperature (rebuilt t o) = t ∧ llm (rebuilt t o) = Some (client_of o t).
Proof. done. Qed.

Lemma same_temperature_refl t : same_temperature t t.
Proof. by right. Qed.

End props.

#[export] Hint Resolve rebuilt_coherent coherent_has_client same_temperature_refl
  error_text_prefix : py.

(** ** Recording the calls

    [logged R] answers as [R] does and appends every call it receives to a
    log kept beside the world. *)

Inductive call : Type :=
| CallNew (c : ChatGroq)
| CallInvoke (c : ChatGroq) (msgs : list message).

#[export] Instance call_eq_dec : EqDecision call.
Proof. solve_decision. Defined.

Definition record {W E A} (m : prog W E A) (c : call) : prog (W * list call) E A :=
  λ wl, let (r, w') := m wl.1 in (r, (w', wl.2 ++ [c])).

Definition logged {W} {E : PyExn} (R : Remote W) : Remote (W * list call) := {|
  groq_new c := record (groq_new c) (CallNew c);
  groq_invoke c msgs := record (groq_invoke c msgs) (CallInvoke c msgs);
|}.

(** Forgetting the log of a state, and the calls a run added to it. *)
Definition erase {W A} (out : A * (TextHumanizerRAG * (W * list call)))
    : A * (TextHumanizerRAG * W) :=
  (out.1, (out.2.1, out.2.2.1)).
Definition log_of {W A} (out : A * (TextHumanizerRAG * (W * list call))) : list call :=
  out.2.2.2.

(** The calls of one [humanize_text], from the empty log. *)
Definition humanize_calls {W} {E : PyExn} {R : Remote W}
    (text style : str) (t : float) (o : TextHumanizerRAG) (w : W) : list call :=
  log_of (humanize_text (R := logged R) text style t (o, (w, []))).

(** The temperature a recorded invocation ran at. *)
Definition invoked_at (tr : list call) : list float :=
  omap (λ c, match c with
             | CallInvoke c _ => Some (cg_temperature c)
             | CallNew _ => None
             end) tr.

Section logged.
Context {W : Type} {E : PyExn} {R : Remote W}.
Implicit Types (o : TextHumanizerRAG) (w : W) (t : float) (c : ChatGroq).
Implicit Types (log : list call).

Lemma record_run {A} (m : prog W exn A) cl w log :
  record m cl (w, log) = ((m w).1, ((m w).2, log ++ [cl])).
Proof. unfold record. simpl. by destruct (m w). Qed.

Lemma logged_new c w log r w' :
  groq_new c w = (r, w') →
  groq_new (Remote := logged R) c (w, log) = (r, (w', log ++ [CallNew c])).
Proof. intros Hr. simpl. by rewrite record_run, Hr. Qed.

Lemma logged_invoke c msgs w log r w' :
  groq_invoke c msgs w = (r, w') →
  groq_invoke (Remote := logged R) c msgs (w, log)
  = (r, (w', log ++ [CallInvoke c msgs])).
Proof. intros Hr. simpl. by rewrite record_run, Hr. Qed.

(** One call under [logged R], from the outcome under [R]: the same
    outcome, and the log grown by the calls made. *)
Lemma humanize_text_logged text style t o w log :
  humanize_text (R := logged R) text style t (o, (w, log)) =
    let out := humanize_text text style t (o, w) in
    let new := if float_ne (temperature o) t then [CallNew (client_of o t)] else [] in
    let use :=
      if float_ne (temperature o) t
      then if is_ok (groq_new (client_of o t) w).1
           then [CallInvoke (client_of o t) (request text style)] else []
      else match llm o with
           | Some c => [CallInvoke c (request text style)]
           | None => []
           end in
    (out.1, (out.2.1, (out.2.2, log ++ new ++ use))).
Proof.
  eapply humanize_spec_det; [apply humanize_text_spec|].
  humanize_cases (humanize_text_spec text style t o w);
    rewrite ?app_nil_r, ?(assoc_L (++)).
  - eapply spec_kept_answer; eauto using logged_invoke.
  - eapply spec_kept_raise; eauto using logged_invoke.
  - by eapply spec_kept_none.
  - eapply spec_new_answer; eauto using logged_new.
    erewrite logged_invoke by done. by rewrite <-(assoc_L (++)).
  - eapply spec_new_raise; eauto using logged_new.
    erewrite logged_invoke by done. by rewrite <-(assoc_L (++)).
  - eapply spec_new_failed; eauto using logged_new.
Qed.

End logged.

(** ** A test double

    A remote library over a counter of served requests.  The constructor
    refuses a temperature above [1]; an invocation refuses an empty key and
    otherwise answers with a fixed text that has a reasoning span and
    blanks around it. *)

Module double.

Definition reply : str := lit "<think>draft</think> Done. ".

#[export] Instance exn_double : PyExn := message_exn.

Definition remote : Remote nat := {|
  groq_new c := λ n,
    if PrimFloat.ltb 1 (cg_temperature c)
    then (Err (lit "temperature must be at most 1"), n)
    else (Ok (), n);
  groq_invoke c msgs := λ n,
    if bool_decide (cg_api_key c = [])
    then (Err (lit "invalid api key"), n)
    else (Ok reply, S n);
|}.

(** The object [TextHumanizerRAG("key")] builds. *)
Definition fresh : TextHumanizerRAG :=
  {| api_key := lit "key"; model := default_model; temperature := default_temperature;
     llm := Some {| cg_model := default_model; cg_temperature := default_temperature;
                    cg_api_key := lit "key" |} |}.

End double.

(** ** Main results *)

Section results.
Context {W : Type} {E : PyExn} {R : Remote W}.
Implicit Types (o : TextHumanizerRAG) (w : W) (t : float) (c : ChatGroq).
Implicit Types (text style : str) (log : list call).

(** The calls of one [humanize_text]: the constructor if the temperature
    differs, then the invocation if there is a client to invoke. *)
Lemma humanize_calls_eq text style t o w :
  humanize_calls text style t o w =
    (if float_ne (temperature o) t then [CallNew (client_of o t)] else []) ++
    match llm (humanize_text text style t (o, w)).2.1 with
    | Some c =>
        if float_ne (temperature o) t && negb (is_ok (groq_new (client_of o t) w).1)
        then [] else [CallInvoke c (request text style)]
    | None => []
    end.
Proof.
  unfold humanize_calls. rewrite humanize_text_logged. unfold log_of. simpl.
  f_equal. humanize_cases (humanize_text_spec text style t o w); try done.
  by destruct (llm o).
Qed.

(** The style enters a call through its template only. *)
Lemma humanize_text_resolve text style1 style2 t o w :
  resolve style1 = resolve style2 →
  humanize_text text style1 t (o, w) = humanize_text text style2 t (o, w).
Proof. intros Heq. rewrite !humanize_text_run. unfold request. by rewrite Heq. Qed.

(** C2: [humanize_text] refines its contract: the outcome of a call is
    exactly the one [humanize_spec] derives from the answers of the remote
    library, on each of the six ways a call can go (lines 90-121). *)
Theorem humanize_text_refines text style t o w out :
  humanize_spec text style t o w out ↔ humanize_text text style t (o, w) = out.
Proof.
  split; [|intros <-; apply humanize_text_spec].
  intros Hout. eapply humanize_spec_det; [apply humanize_text_spec|done].
Qed.

(** C5: in a coherent object, every invocation a call makes runs at the
    requested temperature: at [t] itself when the client was rebuilt, at a
    temperature Python finds equal to [t] otherwise (lines 93-94, 116). *)
Theorem humanize_text_temperature text style t o w :
  coherent o →
  Forall (λ t', same_temperature t' t) (invoked_at (humanize_calls text style t o w)).
Proof.
  intros Ho. rewrite humanize_calls_eq.
  humanize_cases (humanize_text_spec text style t o w).
  1,2: apply Forall_singleton; left;
       rewrite (coherent_client o Ho) in Hc; by simplify_eq/=.
  - constructor.
  - apply Forall_singleton; auto with py.
  - apply Forall_singleton; auto with py.
  - destruct (llm o); constructor.
Qed.

(** C9: the string a call returns is ["Error: "] followed by the text of
    the exception that was raised, or the answer of the client the object
    holds afterwards to the two messages of the request, with its reasoning
    spans removed and no blank at either end (lines 116-121). *)
Theorem humanize_text_output text style t o w :
  ∃ out o' w', humanize_text text style t (o, w) = (Ok out, (o', w')) ∧
    ((∃ e, out = error_text e) ∨
     (∃ c w0 content, llm o' = Some c ∧
        groq_invoke c (request text style) w0 = (Ok content, w') ∧
        out = clean_response content ∧ stripped out)).
Proof.
  humanize_cases (humanize_text_spec text style t o w);
    do 3 eexists; (split; [done|]); eauto 10 with py.
Qed.

(** C10: one call makes at most one constructor call and at most one
    invocation, in this order; the constructor is called exactly when the
    temperatures differ, with the model and key of the object and the new
    temperature; the invocation carries the system message and the prompt of
    the request and goes to the client the object holds afterwards. *)
Theorem humanize_text_trace text style t o w :
  ∃ news uses, humanize_calls text style t o w = news ++ uses ∧
    news = (if float_ne (temperature o) t then [CallNew (client_of o t)] else []) ∧
    (uses = [] ∨
     ∃ c, llm (humanize_text text style t (o, w)).2.1 = Some c ∧
          uses = [CallInvoke c [SystemMessage SYSTEM_PROMPT;
                                HumanMessage (resolve style ++ frame text)]]).
Proof.
  rewrite humanize_calls_eq. do 2 eexists. split; [done|]. split; [done|].
  destruct (llm _) as [c|]; [|by left].
  destruct (_ && _); [by left|right; eauto].
Qed.

(** Recording is transparent, as for any program over [Remote].  Under [logged R] a call has the outcome
    it has under [R], and the log grows at its end by the calls made. *)
Theorem logged_refines text style t o w log :
  let out := humanize_text (R := logged R) text style t (o, (w, log)) in
  erase out = humanize_text text style t (o, w) ∧
  log_of out = log ++ humanize_calls text style t o w.
Proof.
  unfold humanize_calls. rewrite !humanize_text_logged. unfold erase, log_of. simpl.
  split; [|done]. by destruct (humanize_text _ _ _ _) as [? [? ?]].
Qed.

(** C22: coherence is preserved by a call whose constructor call, if it
    makes one, returns. *)
Theorem humanize_text_keeps_coherent text style t o w :
  coherent o →
  (float_ne (temperature o) t = true → is_ok (groq_new (client_of o t) w).1 = true) →
  coherent (humanize_text text style t (o, w)).2.1.
Proof.
  intros Ho Hnew'.
  humanize_cases (humanize_text_spec text style t o w); auto with py.
  rewrite Hnew in Hnew'. by specialize (Hnew' Hne).
Qed.

(** C23: an object that [TextHumanizerRAG(key)] returns is coherent, holds
    the key, the model ["gemma2-9b-it"] and the temperature [0.7], and its
    client was built by one constructor call (lines 18-24). *)
Theorem init_establishes key o w w' :
  init key w = (Ok o, w') →
  coherent o ∧ api_key o = key ∧ model o = default_model ∧
  temperature o = default_temperature ∧
  groq_new (client_of o default_temperature) w = (Ok (), w').
Proof.
  rewrite init_run. simpl. destruct (groq_new _ w) as [[[]|e] w1] eqn:Hnew; [|done].
  by intros [= <- <-].
Qed.

(** C19: a call that leaves [style] and [temperature] out, on the object
    [TextHumanizerRAG(key)] returned, builds no client: the defaults of
    line 90 are the settings [__init__] chose (lines 21-23).  Its one call
    of the library invokes the client [__init__] built, at [0.7] and with
    the "conversational" template; the object is unchanged; and a style the
    dictionary does not have is answered as the style left out is. *)
Theorem humanize_text_defaults key text o w0 w :
  init key w0 = (Ok o, w) →
  log_of (humanize_text_call (R := logged R) text None None (o, (w, [])))
  = [CallInvoke {| cg_model := lit "gemma2-9b-it";
                   cg_temperature := 0x1.6666666666666p-1;
                   cg_api_key := key |}
       [SystemMessage SYSTEM_PROMPT;
        HumanMessage (conversational_prompt ++ frame text)]] ∧
  (humanize_text_call text None None (o, w)).2.1 = o ∧
  ∀ style, style ∉ style_keys →
    humanize_text_call text (Some style) None (o, w)
    = humanize_text_call text None None (o, w).
Proof.
  rewrite init_run. simpl. destruct (groq_new _ w0) as [[[]|e] w1]; [|done].
  intros [= <- <-]. unfold humanize_text_call. simpl. split; [|split].
  - rewrite humanize_text_logged. unfold log_of, request. simpl.
    by rewrite (resolve_known _ conversational_prompt) by by left.
  - rewrite humanize_text_run. simpl. by destruct (groq_invoke _ _ _) as [[?|?] ?].
  - intros style Hstyle. by apply humanize_text_resolve, resolve_unknown.
Qed.

(** C24: a constructor that raises leaves the object incoherent, and the
    next call at the same temperature does not notice: it invokes the old
    client, at the old temperature (lines 26-34, 93-94). *)
Theorem stale_client_after_failure text style text2 style2 t o w e w1 w2 :
  coherent o →
  float_ne (temperature o) t = true →
  float_ne t t = false →
  groq_new (client_of o t) w = (Err e, w1) →
  let o1 := (humanize_text text style t (o, w)).2.1 in
  temperature o1 = t ∧ ¬ coherent o1 ∧
  humanize_calls text2 style2 t o1 w2
  = [CallInvoke (client_of o (temperature o)) (request text2 style2)].
Proof.
  intros Ho Hne' Ht Hnew'. cbv zeta. rewrite !humanize_calls_eq, !humanize_text_run.
  simpl. rewrite Hne', Hnew'. simpl. rewrite Ht, (coherent_client o Ho). simpl.
  split; [done|]. split.
  - intros [= Heq]. rewrite Heq in Hne'. congruence.
  - destruct (groq_invoke _ _ w2) as [[?|?] ?]; simpl;
      by rewrite (coherent_client o Ho).
Qed.

(** C25: a call changes neither the key nor the model of the object; its
    temperature afterwards is one Python finds equal to the requested one
    (or that very float); its client is the old one or one rebuilt at the
    requested temperature. *)
Theorem humanize_text_frame text style t o w :
  let o' := (humanize_text text style t (o, w)).2.1 in
  api_key o' = api_key o ∧ model o' = model o ∧
  same_temperature (temperature o') t ∧
  (llm o' = llm o ∨ llm o' = Some (client_of o t)).
Proof.
  humanize_cases (humanize_text_spec text style t o w);
    repeat split; auto with py; by left.
Qed.

End results.

(** ** The results at the test double *)

Section witnesses.
Import double.
#[local] Existing Instance remote.

Lemma humanize_text_temperature_witness :
  Forall (λ t', same_temperature t' 0.5)
    (invoked_at (humanize_calls (lit "hi") (lit "friendly") 0.5 fresh 0%nat)).
Proof. apply humanize_text_temperature. reflexivity. Defined.

Lemma humanize_text_keeps_coherent_witness :
  coherent (humanize_text (lit "hi") (lit "friendly") 0.5 (fresh, 0%nat)).2.1.
Proof. apply humanize_text_keeps_coherent; reflexivity. Defined.

Lemma init_establishes_witness :
  coherent fresh ∧ api_key fresh = lit "key" ∧ model fresh = default_model ∧
  temperature fresh = default_temperature ∧
  groq_new (client_of fresh default_temperature) 0%nat = (Ok (), 0%nat).
Proof. apply (init_establishes (lit "key")). reflexivity. Defined.

Lemma humanize_text_defaults_witness :
  log_of (humanize_text_call (R := logged remote) (lit "hi") None None
            (fresh, (0%nat, [])))
  = [CallInvoke {| cg_model := lit "gemma2-9b-it";
                   cg_temperature := 0x1.6666666666666p-1;
                   cg_api_key := lit "key" |}
       [SystemMessage SYSTEM_PROMPT;
        HumanMessage (conversational_prompt ++ frame (lit "hi"))]] ∧
  (humanize_text_call (lit "hi") None None (fresh, 0%nat)).2.1 = fresh ∧
  ∀ style, style ∉ style_keys →
    humanize_text_call (lit "hi") (Some style) None (fresh, 0%nat)
    = humanize_text_call (lit "hi") None None (fresh, 0%nat).
Proof. apply (humanize_text_defaults (lit "key") _ _ 0%nat). reflexivity. Defined.

Lemma stale_client_after_failure_witness :
  let o1 := (humanize_text (lit "hi") (lit "friendly") 1.5 (fresh, 0%nat)).2.1 in
  temperature o1 = 1.5%float ∧ ¬ coherent o1 ∧
  humanize_calls (lit "again") (lit "formal") 1.5 o1 7%nat
  = [CallInvoke (client_of fresh (temperature fresh))
       (request (lit "again") (lit "formal"))].
Proof.
  apply (stale_client_after_failure (R := remote) _ _ _ _ _ _ _
           (lit "temperature must be at most 1") 0%nat); reflexivity.
Defined.

(** The double, run: the first call at [1.5] reports the refusal, the
    second answers from the client built at [0.7]. *)
Example double_session :
  let run1 := humanize_text (lit "hi") (lit "friendly") 1.5 (fresh, 0%nat) in
  let run2 := humanize_text (lit "hi") (lit "friendly") 1.5 run1.2 in
  run1.1 = Ok (lit "Error: temperature must be at most 1") ∧
  run2.1 = Ok (lit "Done.") ∧
  cg_temperature <$> llm run2.2.1 = Some default_temperature ∧
  temperature run2.2.1 = 1.5%float.
Proof. vm_compute. done. Qed.

End witnesses.
