(* ===== verification/Calls.v ===== *)
(** * Calls: one object, many calls

    The class keeps its client between calls and rebuilds it when the
    temperature of a call differs from the one it holds (lines 92-94).
    This file follows a caller that makes several calls of [humanize_text]
    on one object.

    - [args] is what a caller passes to one call.
    - [humanize_all] is the calls in their order on one object and one
      world; [calls_of] is the trace of what they ask of the remote library.
    - [cache_trace] is the client cache the class is meant to be, written
      without the object: it holds a temperature, builds a client when a
      call asks for another one, and invokes the client it holds.
    - [reliable] says that the constructor returns for the temperatures the
      caller asks for.

    The library: recording is transparent for a sequence of calls
    ([humanize_all_logged]); one call on a coherent object with a
    constructor that returns ([humanize_text_reliable]).  The main result,
    [client_reuse]: with such a constructor the calls are those of the
    cache, the object stays coherent and every call is answered at its
    temperature.  [Humanizer.stale_client_after_failure] is what happens
    without the hypothesis. *)

From Stdlib Require Import PrimFloat.
From stdpp Require Import strings.
From S2P Require Import Prelude PyStr Prompt Sanitize Humanizer.

(** What a caller passes to [humanize_text] (line 90). *)
Record args : Type := {
  a_text : str;
  a_style : str;
  a_temperature : float;
}.

Section calls.
Context {W : Type} {E : PyExn} {R : Remote W}.
Implicit Types (o : TextHumanizerRAG) (w : W) (t : float) (a : args).
Implicit Types (rs : list args) (log : list call).

(** The calls of a caller on one object, in their order: what each call
    returns, and the object and the world after the last. *)
Fixpoint humanize_all rs (st : TextHumanizerRAG * W)
    : list (result exn str) * (TextHumanizerRAG * W) :=
  match rs with
  | [] => ([], st)
  | a :: rs =>
      let out := humanize_text (a_text a) (a_style a) (a_temperature a) st in
      let rest := humanize_all rs out.2 in
      (out.1 :: rest.1, rest.2)
  end.

(** The constructor returns for the temperatures of the calls. *)
Definition reliable o rs : Prop :=
  ∀ a w, a ∈ rs → is_ok (groq_new (client_of o (a_temperature a)) w).1 = true.

End calls.

(** What the calls ask of the remote library, recorded from the empty log. *)
Definition calls_of {W} {E : PyExn} {R : Remote W}
    (rs : list args) (o : TextHumanizerRAG) (w : W) : list call :=
  (humanize_all (R := logged R) rs (o, (w, []))).2.2.2.

(** The cache: [cur] is the temperature held, [client t] the client for a
    temperature. *)
Fixpoint cache_trace (client : float → ChatGroq) (cur : float)
    (rs : list args) : list call :=
  match rs with
  | [] => []
  | a :: rs =>
      let t := a_temperature a in
      let msgs := [SystemMessage SYSTEM_PROMPT;
                   HumanMessage (resolve (a_style a) ++ frame (a_text a))] in
      if float_ne cur t
      then CallNew (client t) :: CallInvoke (client t) msgs
             :: cache_trace client t rs
      else CallInvoke (client cur) msgs :: cache_trace client cur rs
  end.

(** ** One call, then many *)

Section lemmas.
Context {W : Type} {E : PyExn} {R : Remote W}.
Implicit Types (o : TextHumanizerRAG) (w : W) (t : float) (a : args).
Implicit Types (rs : list args) (log : list call).

(** Recording is transparent for a sequence of calls. *)
Lemma humanize_all_logged rs o w log :
  humanize_all (R := logged R) rs (o, (w, log)) =
    let out := humanize_all rs (o, w) in
    (out.1, (out.2.1, (out.2.2, log ++ calls_of rs o w))).
Proof.
  revert o w log. induction rs as [|a rs IH]; intros o w log.
  { simpl. by rewrite app_nil_r. }
  unfold calls_of. simpl. rewrite !humanize_text_logged. cbv zeta. simpl.
  destruct (humanize_text _ _ _ (o, w)) as [r [o1 w1]]. simpl.
  rewrite !IH. simpl. by rewrite !(assoc_L (++)).
Qed.

Lemma calls_of_cons a rs o w :
  calls_of (a :: rs) o w =
    let out := humanize_text (a_text a) (a_style a) (a_temperature a) (o, w) in
    humanize_calls (a_text a) (a_style a) (a_temperature a) o w
    ++ calls_of rs out.2.1 out.2.2.
Proof.
  unfold calls_of at 1, humanize_calls, log_of. simpl.
  rewrite humanize_text_logged. cbv zeta. simpl.
  destruct (humanize_text _ _ _ (o, w)) as [r [o1 w1]]. simpl.
  by rewrite humanize_all_logged.
Qed.

(** One call on a coherent object, with a constructor that returns: the
    object afterwards and the calls made. *)
Lemma humanize_text_reliable text style t o w :
  coherent o →
  (∀ w, is_ok (groq_new (client_of o t) w).1 = true) →
  (humanize_text text style t (o, w)).2.1
  = (if float_ne (temperature o) t then rebuilt t o else o) ∧
  humanize_calls text style t o w
  = if float_ne (temperature o) t
    then [CallNew (client_of o t); CallInvoke (client_of o t) (request text style)]
    else [CallInvoke (client_of o (temperature o)) (request text style)].
Proof.
  intros Ho Hnew. specialize (Hnew w).
  unfold humanize_calls. rewrite humanize_text_logged, humanize_text_run.
  unfold log_of. cbv zeta. simpl. rewrite Hnew, (coherent_client o Ho).
  destruct (float_ne (temperature o) t).
  - destruct (groq_new _ w) as [[[]|e] w1]; [|done].
    by destruct (groq_invoke _ _ w1) as [[?|?] ?].
  - by destruct (groq_invoke _ _ w) as [[?|?] ?].
Qed.

Lemma reliable_cons a rs o :
  reliable o (a :: rs) →
  (∀ w, is_ok (groq_new (client_of o (a_temperature a)) w).1 = true) ∧
  reliable o rs.
Proof.
  intros Hrel. split; [intros w; apply Hrel; by left|].
  intros a' w Ha'. apply Hrel. by right.
Qed.

(** The calls of a reliable sequence are those of the cache, and the
    object stays coherent. *)
Lemma calls_of_cache rs o w :
  coherent o → reliable o rs →
  calls_of rs o w = cache_trace (client_of o) (temperature o) rs ∧
  coherent (humanize_all rs (o, w)).2.1.
Proof.
  revert o w. induction rs as [|a rs IH]; intros o w Ho Hrel; [done|].
  apply reliable_cons in Hrel as [Hnew Hrel].
  destruct (humanize_text_reliable (a_text a) (a_style a) _ o w Ho Hnew)
    as [Ho1 Hcalls].
  rewrite calls_of_cons. cbv zeta. rewrite Hcalls. simpl.
  destruct (humanize_text _ _ _ (o, w)) as [r [o1 w1]]. simpl in *. subst o1.
  destruct (float_ne (temperature o) (a_temperature a)).
  - destruct (IH (rebuilt (a_temperature a) o) w1) as [-> Hco];
      [apply rebuilt_coherent|done|done].
  - by destruct (IH o w1) as [-> Hco].
Qed.

(** Every call of the cache is answered at its temperature, as Python
    compares temperatures. *)
Lemma cache_trace_temperature client cur rs :
  (∀ t, cg_temperature (client t) = t) →
  Forall2 (λ a t', same_temperature t' (a_temperature a)) rs
    (invoked_at (cache_trace client cur rs)).
Proof.
  intros Hclient. revert cur. induction rs as [|a rs IH]; intros cur; simpl.
  { constructor. }
  destruct (float_ne cur (a_temperature a)) eqn:Hne; simpl;
    (constructor; [rewrite Hclient|apply IH]); [by right|by left].
Qed.

End lemmas.

(** ** Main result *)

Section results.
Context {W : Type} {E : PyExn} {R : Remote W}.
Implicit Types (o : TextHumanizerRAG) (w : W) (rs : list args).

(** C20: the class is a client cache.  On a coherent object, and with a
    constructor that returns for the temperatures asked, the calls a
    sequence of [humanize_text] makes to the remote library are those of
    [cache_trace]: a constructor call exactly when the temperature of a
    call differs from the one held, then one invocation of the client
    held, with the system message and the prompt of the call.  The object
    is coherent at the end, and every call is answered by a client whose
    temperature Python finds equal to the one requested (lines 92-116). *)
Theorem client_reuse rs o w :
  coherent o → reliable o rs →
  calls_of rs o w = cache_trace (client_of o) (temperature o) rs ∧
  coherent (humanize_all rs (o, w)).2.1 ∧
  Forall2 (λ a t', same_temperature t' (a_temperature a)) rs
    (invoked_at (calls_of rs o w)).
Proof.
  intros Ho Hrel. destruct (calls_of_cache rs o w Ho Hrel) as [Hcalls Hco].
  split_and!; [done..|]. rewrite Hcalls. by apply cache_trace_temperature.
Qed.

End results.

(** ** The result at the test double *)

Section witnesses.
Import double.
#[local] Existing Instance remote.

(** Three calls: two at [0.5], one at [0.75]. *)
Definition three_calls : list args :=
  [{| a_text := lit "one"; a_style := lit "formal"; a_temperature := 0.5 |};
   {| a_text := lit "two"; a_style := lit "friendly"; a_temperature := 0.5 |};
   {| a_text := lit "three"; a_style := lit "friendly"; a_temperature := 0.75 |}].

Lemma three_calls_reliable : reliable fresh three_calls.
Proof.
  intros a w Ha. unfold three_calls in Ha.
  rewrite !elem_of_cons, elem_of_nil in Ha. by destruct_or!; subst.
Qed.

Lemma client_reuse_witness :
  calls_of three_calls fresh 0%nat
  = cache_trace (client_of fresh) (temperature fresh) three_calls ∧
  coherent (humanize_all three_calls (fresh, 0%nat)).2.1 ∧
  Forall2 (λ a t', same_temperature t' (a_temperature a)) three_calls
    (invoked_at (calls_of three_calls fresh 0%nat)).
Proof. apply client_reuse; [reflexivity|apply three_calls_reliable]. Defined.

(** The three calls on the double: two clients are built for three
    requests, and the second call uses the client of the first. *)
Example three_calls_on_double :
  (humanize_all three_calls (fresh, 0%nat)).1
  = [Ok (lit "Done."); Ok (lit "Done."); Ok (lit "Done.")] ∧
  invoked_at (calls_of three_calls fresh 0%nat) = [0.5; 0.5; 0.75]%float ∧
  length (calls_of three_calls fresh 0%nat) = 5%nat.
Proof. by vm_compute. Qed.

End witnesses.
