(* ===== verification/App.v ===== *)
(** * App: the page (lines 9-15, function [main], lines 123-213)

    Streamlit runs the script from the top on every interaction.  A run
    configures the page ([set_page_config], lines 10-15), reads
    the widgets, builds a humanizer, and, when the button was pressed on a
    text that is not blank, asks for the humanized text and keeps it in
    [st.session_state]; then it shows what is kept, with the copy button.

    - [inputs] is what the widgets return in one run; [valid] is what
      Streamlit guarantees of it (a selectbox returns one of its options,
      the slider a value of its range).
    - [element] is a call that renders something, [place] the container it
      is made in; the page of a run is the list of these calls in order.
    - [streamlit] is what a run can change besides the remote world: the session
      state, of which the program uses the attribute [humanized_text], and
      the page.
    - [main] is the function, a program over [streamlit] and the world of the
      remote library, and [script] the whole file: the page configuration,
      then [main].  [rerun] is one run of it from a session state, and
      [reachable] the session states that runs with valid inputs lead to.

    The library: one run written out ([rerun_run], and [rerun_valid] for
    valid inputs, where [humanize_text] finds the client it needs), the
    two shapes of its page ([rerun_shape]), what it keeps ([rerun_kept])
    the calls it makes ([rerun_calls_valid]) and the script on its page
    ([script_on_page]).

    The main results, at the end of the file: [main_total],
    [session_invariant], [main_calls], [click_shows_result] and
    [blank_click_warns]; [click_on_double] runs a click against the test
    double of [Humanizer].  The contract of a run and the traces of a
    session are in [Session]. *)

From Stdlib Require Import PrimFloat.
From stdpp Require Import strings pretty sets relations.
From S2P Require Import Prelude PyStr Prompt Sanitize JsEscape Humanizer.

(** ** Widgets and what they return *)

(** The options of the two selectboxes (lines 128 and 130-136). *)
Definition style_options : list str :=
  [lit "conversational"; lit "professional"; lit "friendly"; lit "storytelling";
   lit "layman_terms"; lit "indian_english"].

Definition model_options : list str :=
  [lit "deepseek-r1-distill-llama-70b"; lit "llama3-8b-8192"; lit "llama3-70b-8192";
   lit "mixtral-8x7b-32768"; lit "gemma2-9b-it"].

(** The key of line 127. *)
Definition api_key_literal : str :=
  lit "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".

(** The bounds of the slider (line 129): [0.1] and [1.0]. *)
Definition slider_min : float := 0x1.999999999999ap-4%float.
Definition slider_max : float := 1%float.
Definition slider_step : float := 0x1.999999999999ap-4%float.

(** What the widgets return in one run. *)
Record inputs : Type := {
  style : str;               (* line 128 *)
  temperature : float;       (* line 129 *)
  selected_model : str;      (* line 137 *)
  original_text : str;       (* line 150 *)
  clicked : bool;            (* line 153 *)
}.

(** What Streamlit guarantees of the values. *)
Definition valid (i : inputs) : Prop :=
  style i ∈ style_options ∧ selected_model i ∈ model_options ∧
  PrimFloat.leb slider_min (temperature i) = true ∧
  PrimFloat.leb (temperature i) slider_max = true.

(** ** The page *)

Inductive place : Type := Sidebar | Main | Col1 | Col2.

Inductive element : Type :=
| st_header (body : str)
| st_selectbox (label : str) (options : list str)
| st_slider (label : str) (min_value max_value value step : float)
| st_text_area (label : str) (value : option str) (height : nat) (key : option str)
| st_markdown (body : str)
| st_button (label : str) (type : str)
| st_spinner (text : str)
| st_warning (body : str)
| st_error (body : str)
| st_html (html : str) (height : nat)
| st_set_page_config (page_title page_icon layout initial_sidebar_state : str).

#[export] Instance place_eq_dec : EqDecision place.
Proof. solve_decision. Defined.

(** What a run changes besides the remote world. *)
Record streamlit : Type := {
  humanized_text : option str;   (* st.session_state.humanized_text *)
  page : list (place * element);
}.

(** The page icon of line 12: a robot, an arrow with its variation
    selector, and a man. *)
Definition page_icon : str := [129302; 10145; 65039; 128104]%N.

(** The arguments of [st.set_page_config] (lines 10-15). *)
Definition page_config : element :=
  st_set_page_config (lit "Text Humanizer RAG") page_icon (lit "wide") (lit "expanded").

(** [str(n)] of a count. *)
Definition str_of_nat (n : nat) : str := lit (pretty n).

(** The f-string of lines 152 and 169. *)
Definition word_count_line (text : str) : str :=
  lit "**Word count:** " ++ str_of_nat (word_count text).

Section main.
Context {W : Type} {E : PyExn} {R : Remote W}.

(** The state of a run. *)
Abbreviation run_state := (streamlit * W)%type (only parsing).

(** A rendering call. *)
Definition render (p : place) (e : element) : prog run_state exn () :=
  modify (λ s, ({| humanized_text := humanized_text s.1;
                   page := page s.1 ++ [(p, e)] |}, s.2)).

(** Assigning [st.session_state.humanized_text] (line 157). *)
Definition set_humanized_text (t : str) : prog run_state exn () :=
  modify (λ s, ({| humanized_text := Some t; page := page s.1 |}, s.2)).

(** A method call on the local object [rag_system]: the object after the
    call is returned beside the result.  When the call raises, the object
    is out of reach of what follows. *)
Definition call {A} (o : TextHumanizerRAG) (m : prog (TextHumanizerRAG * W) exn A)
    : prog run_state exn (A * TextHumanizerRAG) :=
  λ s, match m (o, s.2) with
       | (Ok a, (o', w')) => (Ok (a, o'), (s.1, w'))
       | (Err e, (_, w')) => (Err e, (s.1, w'))
       end.

(** [TextHumanizerRAG(api_key)] (line 140). *)
Definition construct (key : str) : prog run_state exn TextHumanizerRAG :=
  λ s, let (r, w') := init key s.2 in (r, (s.1, w')).

(** Lines 10-15, the first Streamlit call of the script. *)
Definition set_page_config : prog run_state exn () :=
  render Main page_config.

(** Lines 125-137, the sidebar. *)
Definition sidebar : prog run_state exn () :=
  render Sidebar (st_header (lit "Configuration")) ;;
  render Sidebar (st_selectbox (lit "Humanization Style") style_options) ;;
  render Sidebar (st_slider (lit "Creativity Level") slider_min slider_max
                    default_temperature slider_step) ;;
  render Sidebar (st_selectbox (lit "Model") model_options).

(** Lines 139-144: the humanizer of this run, or [None] after the error
    was shown. *)
Definition rag_system_of (i : inputs) : prog run_state exn (option TextHumanizerRAG) :=
  try_except
    (rag ← construct api_key_literal ;
     '(_, rag) ← call rag (update_model_settings (selected_model i) (temperature i)) ;
     mret (Some rag))
    (λ e, render Main (st_error (lit "Error initializing RAG system: " ++ exn_str e)) ;;
          mret None).

(** Lines 148-159, the left column. *)
Definition column1 (i : inputs) (rag : TextHumanizerRAG) : prog run_state exn () :=
  render Col1 (st_header (lit "Original Text")) ;;
  render Col1 (st_text_area (lit "Enter your text here:") None 300 None) ;;
  render Col1 (st_markdown (word_count_line (original_text i))) ;;
  render Col1 (st_button (lit "Humanize Text") (lit "primary")) ;;
  if clicked i then
    if truthy (strip (original_text i)) then
      render Col1 (st_spinner (lit "Humanizing text...")) ;;
      '(humanized, _) ← call rag (humanize_text (original_text i) (style i)
                                     (temperature i)) ;
      set_humanized_text humanized
    else render Col1 (st_warning (lit "Please enter some text to humanize"))
  else mret ().

(** Lines 161-210, the right column. *)
Definition column2 : prog run_state exn () :=
  render Col2 (st_header (lit "Humanized Text")) ;;
  kept ← gets (λ s, humanized_text s.1) ;
  match kept with
  | Some text =>
      render Col2 (st_text_area (lit "Humanized Result:") (Some text) 300
                     (Some (lit "humanized_output"))) ;;
      render Col2 (st_markdown (word_count_line text)) ;;
      render Col2 (st_html (copy_html text) 50)
  | None => mret ()
  end.

(** Lines 123-210. *)
Definition main (i : inputs) : prog run_state exn () :=
  sidebar ;;
  rag ← rag_system_of i ;
  match rag with
  | None => mret ()
  | Some rag => column1 i rag ;; column2
  end.

(** The script from the top: the page configuration, the definitions of
    the class and of [main], which have no effect, and the call of [main]
    (lines 212-213). *)
Definition script (i : inputs) : prog run_state exn () :=
  set_page_config ;; main i.

(** One run of the script from a session state: the page starts empty. *)
Definition rerun (i : inputs) (kept : option str) (w : W)
    : result exn () * (streamlit * W) :=
  script i ({| humanized_text := kept; page := [] |}, w).

End main.

Arguments rerun {W E R} i kept w : simpl never.

(** ** The pages of a run *)

(** What every page starts with: the configuration and the sidebar. *)
Definition top_page : list (place * element) :=
  [(Main, page_config);
   (Sidebar, st_header (lit "Configuration"));
   (Sidebar, st_selectbox (lit "Humanization Style") style_options);
   (Sidebar, st_slider (lit "Creativity Level") slider_min slider_max
               default_temperature slider_step);
   (Sidebar, st_selectbox (lit "Model") model_options)].

Definition error_page `{PyExn} (e : exn) : list (place * element) :=
  top_page ++ [(Main, st_error (lit "Error initializing RAG system: " ++ exn_str e))].

Definition column1_page (i : inputs) : list (place * element) :=
  [(Col1, st_header (lit "Original Text"));
   (Col1, st_text_area (lit "Enter your text here:") None 300 None);
   (Col1, st_markdown (word_count_line (original_text i)));
   (Col1, st_button (lit "Humanize Text") (lit "primary"))].

Definition column2_page (kept : option str) : list (place * element) :=
  (Col2, st_header (lit "Humanized Text")) ::
  match kept with
  | Some text =>
      [(Col2, st_text_area (lit "Humanized Result:") (Some text) 300
                (Some (lit "humanized_output")));
       (Col2, st_markdown (word_count_line text));
       (Col2, st_html (copy_html text) 50)]
  | None => []
  end.

(** The button was pressed on a text that is not blank. *)
Definition asked (i : inputs) : bool :=
  clicked i && truthy (strip (original_text i)).

(** What the left column shows below the button. *)
Definition feedback (i : inputs) : list (place * element) :=
  if clicked i then
    if truthy (strip (original_text i))
    then [(Col1, st_spinner (lit "Humanizing text..."))]
    else [(Col1, st_warning (lit "Please enter some text to humanize"))]
  else [].

(** The client [main] selects. *)
Definition selected_client (i : inputs) : ChatGroq :=
  {| cg_model := selected_model i; cg_temperature := temperature i;
     cg_api_key := api_key_literal |}.

(** The client [__init__] builds first. *)
Definition default_client : ChatGroq :=
  {| cg_model := default_model; cg_temperature := default_temperature;
     cg_api_key := api_key_literal |}.

(** The humanizer of a run, when both constructor calls returned. *)
Definition rag_of (i : inputs) : TextHumanizerRAG :=
  {| api_key := api_key_literal; model := selected_model i;
     llm := Some (selected_client i); Humanizer.temperature := temperature i |}.

(** ** A run, branch by branch *)

(** [page_simpl] computes with the state and the page of a run and leaves
    the texts as they are written. *)
Ltac page_simpl :=
  cbn -[lit copy_html word_count_line List.app];
  rewrite <-?(assoc_L (++)), ?app_nil_r;
  cbn -[lit copy_html word_count_line].

(** [on_page H] goes through a page that is written out, for a hypothesis
    [H] that an element is on it, and leaves the elements that can be the
    one. *)
Ltac on_page H :=
  repeat first
    [ apply elem_of_nil in H; destruct H
    | apply elem_of_app in H as [H|H]
    | apply elem_of_cons in H as [H|H]; [try discriminate H|] ].

Section runs.
Context {W : Type} {E : PyExn} {R : Remote W}.
Implicit Types (i : inputs) (kept : option str) (w : W).

(** Lines 139-144 in terms of the two constructor calls. *)
Lemma rag_system_of_run i (a : streamlit) w :
  rag_system_of i (a, w) =
    let shown e := {| humanized_text := humanized_text a;
                      page := page a ++ [(Main, st_error
                        (lit "Error initializing RAG system: " ++ exn_str e))] |} in
    match groq_new default_client w with
    | (Err e, w1) => (Ok None, (shown e, w1))
    | (Ok _, w1) =>
        match groq_new (selected_client i) w1 with
        | (Err e, w2) => (Ok None, (shown e, w2))
        | (Ok _, w2) => (Ok (Some (rag_of i)), (a, w2))
        end
    end.
Proof.
  unfold rag_system_of, try_except, construct, call, render.
  prog_unfold. simpl. rewrite init_run. simpl. fold default_client.
  destruct (groq_new default_client w) as [[[]|e] w1]; simpl; [|done].
  rewrite update_model_settings_run.
  unfold client_of, set_llm, set_temperature, set_model. simpl.
  fold (selected_client i).
  by destruct (groq_new (selected_client i) w1) as [[[]|e] w2].
Qed.

(** The two columns from a humanizer on. *)
Lemma columns_run i rag (a : streamlit) w :
  (column1 i rag ;; column2) (a, w) =
    let shown := page a ++ column1_page i ++ feedback i in
    if asked i then
      match humanize_text (original_text i) (style i) (temperature i) (rag, w) with
      | (Ok out, (_, w')) =>
          (Ok (), ({| humanized_text := Some out;
                      page := shown ++ column2_page (Some out) |}, w'))
      | (Err e, (_, w')) =>
          (Err e, ({| humanized_text := humanized_text a; page := shown |}, w'))
      end
    else
      (Ok (), ({| humanized_text := humanized_text a;
                  page := shown ++ column2_page (humanized_text a) |}, w)).
Proof.
  unfold column1, column2, call, render, set_humanized_text, asked, feedback.
  prog_unfold. destruct a as [kept shown]. page_simpl.
  destruct (clicked i); page_simpl; [destruct (truthy _); page_simpl|].
  - by destruct (humanize_text _ _ _ _) as [[out|e] [o' w']]; page_simpl.
  - by destruct kept; page_simpl.
  - by destruct kept; page_simpl.
Qed.

(** One run in terms of the answers of the remote library. *)
Lemma rerun_run i kept w :
  rerun i kept w =
    let failed e w' :=
      (Ok (), ({| humanized_text := kept; page := error_page e |}, w')) in
    match groq_new default_client w with
    | (Err e, w1) => failed e w1
    | (Ok _, w1) =>
        match groq_new (selected_client i) w1 with
        | (Err e, w2) => failed e w2
        | (Ok _, w2) =>
            (column1 i (rag_of i) ;; column2)
              ({| humanized_text := kept; page := top_page |}, w2)
        end
    end.
Proof.
  unfold rerun, script, main.
  change (set_page_config ;; sidebar ;; ?k) with ((set_page_config ;; sidebar) ≫= λ _, k).
  unfold mbind at 1, prog_mbind, prog_bind at 1.
  change ((set_page_config ;; sidebar) _) with
    (Ok () : result exn (), ({| humanized_text := kept; page := top_page |}, w)).
  cbv iota beta. unfold mbind at 1, prog_mbind, prog_bind at 1.
  rewrite rag_system_of_run. simpl.
  destruct (groq_new default_client w) as [[[]|e] w1]; [|done].
  by destruct (groq_new (selected_client i) w1) as [[[]|e] w2].
Qed.

(** The slider never returns a NaN, so the humanizer of the run, which
    was just set to the temperature, is not rebuilt by [humanize_text]: the
    client selected is invoked. *)
Lemma humanize_text_selected i text style' w :
  valid i →
  humanize_text text style' (temperature i) (rag_of i, w) =
    match groq_invoke (selected_client i) (request text style') w with
    | (Ok content, w') => (Ok (clean_response content), (rag_of i, w'))
    | (Err e, w') => (Ok (error_text e), (rag_of i, w'))
    end.
Proof.
  intros (_ & _ & Hlo & _). rewrite humanize_text_run. cbn [rag_of Humanizer.temperature llm].
  by rewrite (float_ne_ordered _ _ Hlo).
Qed.

(** One run with valid inputs. *)
Lemma rerun_valid i kept w :
  valid i →
  rerun i kept w =
    let failed e w' :=
      (Ok (), ({| humanized_text := kept; page := error_page e |}, w')) in
    match groq_new default_client w with
    | (Err e, w1) => failed e w1
    | (Ok _, w1) =>
        match groq_new (selected_client i) w1 with
        | (Err e, w2) => failed e w2
        | (Ok _, w2) =>
            let shown := top_page ++ column1_page i ++ feedback i in
            if asked i then
              let (r, w3) := groq_invoke (selected_client i)
                               (request (original_text i) (style i)) w2 in
              (Ok (), ({| humanized_text := Some (answer_text r);
                          page := shown ++ column2_page (Some (answer_text r)) |}, w3))
            else
              (Ok (), ({| humanized_text := kept;
                          page := shown ++ column2_page kept |}, w2))
        end
    end.
Proof.
  intros Hi. rewrite rerun_run. cbv zeta.
  destruct (groq_new default_client w) as [[[]|e] w1]; [|done].
  destruct (groq_new (selected_client i) w1) as [[[]|e] w2]; [|done].
  rewrite columns_run. cbv zeta. destruct (asked i); [|done].
  rewrite humanize_text_selected by done.
  by destruct (groq_invoke _ _ w2) as [[content|e] w3].
Qed.

End runs.

(** The selector offers the keys of the dictionary, in its order. *)
Lemma style_options_keys : style_options = style_keys.
Proof. reflexivity. Qed.

(** ** Sessions *)

Section sessions.
Context {W : Type} {E : PyExn} {R : Remote W}.
Implicit Types (i : inputs) (kept : option str) (w : W) (s : option str * W).

(** What a run leaves for the next one: the session state and the world. *)
Definition after i s : option str * W :=
  let out := rerun i s.1 s.2 in (humanized_text out.2.1, out.2.2).

(** One interaction: a run with inputs the widgets can return. *)
Definition step : relation (option str * W) :=
  λ s s', ∃ i, valid i ∧ s' = after i s.

(** The sessions a browser can get to from a fresh one. *)
Definition reachable (w0 : W) (s : option str * W) : Prop :=
  rtc step (None, w0) s.

(** What is kept is a cleaned answer or an error text. *)
Definition kept_ok kept : Prop :=
  ∀ t, kept = Some t → (∃ e, t = error_text e) ∨ stripped t.

(** The calls a run makes, recorded from the empty log. *)
Definition rerun_calls i kept w : list Humanizer.call :=
  (rerun (R := logged R) i kept (w, [])).2.2.2.

(** The page a run shows. *)
Definition rerun_page i kept w : list (place * element) :=
  page (rerun i kept w).2.1.

Lemma kept_ok_None : kept_ok None.
Proof. by intros t. Qed.

Lemma kept_ok_answer r : kept_ok (Some (answer_text r)).
Proof.
  intros t [= <-]. destruct r as [content|e]; [right|left; by eauto].
  apply clean_response_stripped.
Qed.

(** The page of a run is the error page, or the sidebar, the left column
    and the right column with what is kept at the end of the run; a run
    keeps what was kept or replaces it by the outcome of a request. *)
Lemma rerun_shape i kept w :
  let a := (rerun i kept w).2.1 in
  (humanized_text a = kept ∨ ∃ r, humanized_text a = Some (answer_text r)) ∧
  ((∃ e, page a = error_page e) ∨
   page a = top_page ++ column1_page i ++ feedback i
            ++ column2_page (humanized_text a)).
Proof.
  rewrite rerun_run. cbv zeta.
  destruct (groq_new default_client w) as [[[]|e] w1]; [|by eauto].
  destruct (groq_new (selected_client i) w1) as [[[]|e] w2]; [|by eauto].
  rewrite columns_run. cbv zeta. destruct (asked i).
  - destruct (humanize_text_answer (original_text i) (style i) (temperature i)
                (rag_of i) w2) as (r & o' & w' & ->).
    cbn [fst snd humanized_text page]. rewrite <-!(assoc_L (++)). by eauto.
  - cbn [fst snd humanized_text page]. rewrite <-!(assoc_L (++)). by eauto.
Qed.

Lemma rerun_kept i kept w :
  humanized_text (rerun i kept w).2.1 = kept ∨
  ∃ r, humanized_text (rerun i kept w).2.1 = Some (answer_text r).
Proof. apply rerun_shape. Qed.

(** A run returns. *)
Lemma rerun_ok i kept w : (rerun i kept w).1 = Ok ().
Proof.
  rewrite rerun_run. cbv zeta.
  destruct (groq_new default_client w) as [[[]|e] w1]; [|done].
  destruct (groq_new (selected_client i) w1) as [[[]|e] w2]; [|done].
  rewrite columns_run. cbv zeta. destruct (asked i); [|done].
  by destruct (humanize_text_answer (original_text i) (style i) (temperature i)
                 (rag_of i) w2) as (r & o' & w' & ->).
Qed.

(** The page configuration is the first call of a run, and the only one of
    its kind. *)
Lemma page_config_first i kept w :
  ∃ shown, rerun_page i kept w = (Main, page_config) :: shown ∧
    ∀ p title icon layout state,
      (p, st_set_page_config title icon layout state) ∉ shown.
Proof.
  unfold rerun_page. destruct (rerun_shape i kept w) as [_ [[e ->]| ->]];
    (eexists; split; [reflexivity|]); intros p title icon layout state;
    unfold column1_page, feedback, column2_page; intros H;
    [|destruct (clicked i), (truthy (strip (original_text i))), (humanized_text _)];
    on_page H.
Qed.

(** The only script on a page is the copy script of what is kept. *)
Lemma html_on_page i kept' h n :
  (Col2, st_html h n) ∈ top_page ++ column1_page i ++ feedback i
                        ++ column2_page kept' →
  ∃ text, kept' = Some text ∧ h = copy_html text.
Proof.
  unfold top_page, column1_page, feedback, column2_page. intros H.
  destruct (clicked i), (truthy (strip (original_text i))), kept' as [text|];
    on_page H; injection H as -> _; by exists text.
Qed.

(** Page and session agree: a script on the page of a run is the copy
    script of the text that is kept at the end of the run, and the result
    area of the page shows that text. *)
Lemma script_on_page i kept w h n :
  (Col2, st_html h n) ∈ rerun_page i kept w →
  ∃ text, humanized_text (rerun i kept w).2.1 = Some text ∧ h = copy_html text ∧
    (Col2, st_text_area (lit "Humanized Result:") (Some text) 300
             (Some (lit "humanized_output"))) ∈ rerun_page i kept w.
Proof.
  unfold rerun_page. destruct (rerun_shape i kept w) as [_ [[e ->]| ->]].
  - unfold error_page, top_page. intros H. on_page H.
  - intros (text & Htext & ->)%html_on_page. exists text.
    rewrite Htext, !elem_of_app. unfold column2_page. set_solver.
Qed.

Lemma after_kept_ok i s : kept_ok s.1 → kept_ok (after i s).1.
Proof.
  intros Hs. unfold after. simpl.
  destruct (rerun_kept i s.1 s.2) as [->|[r ->]]; [done|apply kept_ok_answer].
Qed.

(** Every reachable session keeps a cleaned answer, an error text, or
    nothing. *)
Lemma reachable_kept_ok w0 s : reachable w0 s → kept_ok s.1.
Proof.
  apply (rtc_ind_r (λ s, kept_ok s.1) (None, w0)); [apply kept_ok_None|].
  intros s1 s2 _ (i & _ & ->) IH. by apply after_kept_ok.
Qed.

(** The calls of a run with valid inputs: the client of [__init__], the
    client selected, and the invocation if there is one. *)
Lemma rerun_calls_valid i kept w :
  valid i →
  rerun_calls i kept w =
    CallNew default_client ::
    match groq_new default_client w with
    | (Err _, _) => []
    | (Ok _, w1) =>
        CallNew (selected_client i) ::
        match groq_new (selected_client i) w1 with
        | (Err _, _) => []
        | (Ok _, _) =>
            if asked i
            then [CallInvoke (selected_client i)
                    (request (original_text i) (style i))]
            else []
        end
    end.
Proof.
  intros Hi. unfold rerun_calls. rewrite rerun_valid by done. cbv zeta.
  cbn [groq_new groq_invoke logged]. rewrite !record_run.
  destruct (groq_new default_client w) as [[[]|e] w1]; [|done]. cbn [fst snd].
  destruct (groq_new (selected_client i) w1) as [[[]|e] w2]; [|done]. cbn [fst snd].
  by destruct (asked i).
Qed.

End sessions.

(** ** A session on the test double *)

Module session.
Import double.

(** A click on a text with blanks around it. *)
Definition click : inputs :=
  {| style := lit "friendly"; temperature := 0.5;
     selected_model := lit "llama3-8b-8192";
     original_text := lit " make it human "; clicked := true |}.

(** A click on a blank text. *)
Definition blank_click : inputs :=
  {| style := lit "friendly"; temperature := 0.5;
     selected_model := lit "llama3-8b-8192";
     original_text := lit "  "; clicked := true |}.

Lemma click_valid : valid click.
Proof. repeat split; compute_done. Qed.

Lemma blank_click_valid : valid blank_click.
Proof. repeat split; compute_done. Qed.

End session.

(** ** Main results *)

Section results.
Context {W : Type} {E : PyExn} {R : Remote W}.
Implicit Types (i : inputs) (kept : option str) (w : W) (s : option str * W).

(** C12: a run of the script raises no [Exception], whatever the remote library
    does and whatever the widgets return: a failure to build the humanizer
    is shown as an error on the page (lines 139-144) and a failure of the
    request is kept as a text (line 121).  The page configuration is the
    first Streamlit call of the run and the only one of its kind, as
    Streamlit demands of [st.set_page_config]. *)
Theorem main_total i kept w :
  ∃ a w' shown,
    rerun i kept w = (Ok (), (a, w')) ∧ page a = (Main, page_config) :: shown ∧
    ∀ p title icon layout state,
      (p, st_set_page_config title icon layout state) ∉ shown.
Proof.
  destruct (page_config_first i kept w) as (shown & Hpage & Hshown).
  pose proof (rerun_ok i kept w) as Hok. unfold rerun_page in Hpage.
  destruct (rerun i kept w) as [r [a w']]; simpl in *; subst.
  by exists a, w', shown.
Qed.

(** C13: in every session a browser can reach from a fresh one, what is kept
    in [st.session_state.humanized_text] is a text without whitespace at its
    ends, or the text of an error, or nothing. *)
Theorem session_invariant w0 s :
  reachable w0 s → kept_ok s.1.
Proof. apply reachable_kept_ok. Qed.

(** C14: the calls of one run, in their order, are a prefix of: the
    constructor for the model of [__init__], the constructor for the
    selected model at the selected temperature, one invocation of that
    client with the system message and the prompt of the text as typed.
    The invocation is made only when the button was pressed on a text that
    is not blank; [humanize_text] never builds a client of its own. *)
Theorem main_calls i kept w :
  valid i →
  rerun_calls i kept w `prefix_of`
    [CallNew default_client; CallNew (selected_client i);
     CallInvoke (selected_client i)
       [SystemMessage SYSTEM_PROMPT;
        HumanMessage (resolve (style i) ++ frame (original_text i))]] ∧
  (asked i = false → ∀ c msgs, CallInvoke c msgs ∉ rerun_calls i kept w).
Proof.
  intros Hi. rewrite rerun_calls_valid by done.
  destruct (groq_new default_client w) as [[[]|e] w1];
    [|split; [by eexists|set_solver]].
  destruct (groq_new (selected_client i) w1) as [[[]|e] w2];
    [|split; [by eexists|set_solver]].
  destruct (asked i); (split; [by eexists|]); [done|set_solver].
Qed.

(** C26: a click on a text that is not blank, with a humanizer that could
    be built, ends with the outcome of the request on the page: the request
    carries the template of the selected style (the fallback is out of reach
    of the selector) and the text as typed; its cleaned answer, or the text
    of its error, is kept and shown in the result area with its word count
    and the copy script. *)
Theorem click_shows_result i kept w w1 w2 :
  valid i → asked i = true →
  groq_new default_client w = (Ok (), w1) →
  groq_new (selected_client i) w1 = (Ok (), w2) →
  ∃ template r w3,
    (style i, template) ∈ style_items ∧
    groq_invoke (selected_client i)
      [SystemMessage SYSTEM_PROMPT;
       HumanMessage (template ++ frame (original_text i))] w2 = (r, w3) ∧
    rerun i kept w =
      (Ok (), ({| humanized_text := Some (answer_text r);
                  page := top_page ++ column1_page i
                          ++ [(Col1, st_spinner (lit "Humanizing text..."))]
                          ++ column2_page (Some (answer_text r)) |}, w3)).
Proof.
  intros Hi Hask Hnew1 Hnew2. rewrite rerun_valid, Hnew1, Hnew2 by done.
  cbv zeta. rewrite Hask. unfold feedback.
  apply andb_true_iff in Hask as [-> ->].
  destruct Hi as (Hstyle & _). rewrite style_options_keys in Hstyle.
  destruct (groq_invoke _ _ w2) as [r w3] eqn:Hinv.
  exists (resolve (style i)), r, w3.
  split_and!; [by apply resolve_key|done|by rewrite <-!(assoc_L (++))].
Qed.

(** C27: a click on a blank text changes nothing and asks nothing: what
    was kept stays, no invocation is made, and the page shows the warning
    below the button (lines 154, 158-159), unless the humanizer could not
    be built. *)
Theorem blank_click_warns i kept w :
  valid i → clicked i = true → truthy (strip (original_text i)) = false →
  humanized_text (rerun i kept w).2.1 = kept ∧
  (∀ c msgs, CallInvoke c msgs ∉ rerun_calls i kept w) ∧
  ((∃ e, rerun_page i kept w = error_page e) ∨
   rerun_page i kept w =
     top_page ++ column1_page i
     ++ [(Col1, st_warning (lit "Please enter some text to humanize"))]
     ++ column2_page kept).
Proof.
  intros Hi Hclick Hblank.
  assert (asked i = false) as Hask by (unfold asked; by rewrite Hclick, Hblank).
  unfold rerun_page. rewrite rerun_calls_valid, rerun_valid by done. cbv zeta.
  unfold feedback. rewrite Hask, Hclick, Hblank.
  destruct (groq_new default_client w) as [[[]|e] w1]; [|set_solver].
  destruct (groq_new (selected_client i) w1) as [[[]|e] w2]; [|set_solver].
  cbn [fst snd humanized_text page]. rewrite <-!(assoc_L (++)). set_solver.
Qed.

End results.

(** ** The results on the test double *)

Section witnesses.
Import double session.
#[local] Existing Instance remote.

Lemma session_invariant_witness :
  kept_ok (after click (None, 0%nat)).1.
Proof.
  apply (session_invariant 0%nat). apply rtc_once. exists click.
  split; [apply click_valid|done].
Defined.

Lemma main_calls_witness :
  rerun_calls click None 0%nat `prefix_of`
    [CallNew default_client; CallNew (selected_client click);
     CallInvoke (selected_client click)
       [SystemMessage SYSTEM_PROMPT;
        HumanMessage (resolve (style click) ++ frame (original_text click))]] ∧
  (asked click = false → ∀ c msgs, CallInvoke c msgs ∉ rerun_calls click None 0%nat).
Proof. apply main_calls, click_valid. Defined.

Lemma blank_click_warns_witness :
  humanized_text (rerun blank_click (Some (lit "Done.")) 0%nat).2.1
  = Some (lit "Done.") ∧
  (∀ c msgs, CallInvoke c msgs ∉ rerun_calls blank_click (Some (lit "Done.")) 0%nat) ∧
  ((∃ e, rerun_page blank_click (Some (lit "Done.")) 0%nat = error_page e) ∨
   rerun_page blank_click (Some (lit "Done.")) 0%nat =
     top_page ++ column1_page blank_click
     ++ [(Col1, st_warning (lit "Please enter some text to humanize"))]
     ++ column2_page (Some (lit "Done."))).
Proof. apply blank_click_warns; [apply blank_click_valid|done..]. Defined.

Lemma click_shows_result_witness :
  ∃ template r w3,
    (style click, template) ∈ style_items ∧
    groq_invoke (selected_client click)
      [SystemMessage SYSTEM_PROMPT;
       HumanMessage (template ++ frame (original_text click))] 0%nat = (r, w3) ∧
    rerun click None 0%nat =
      (Ok (), ({| humanized_text := Some (answer_text r);
                  page := top_page ++ column1_page click
                          ++ [(Col1, st_spinner (lit "Humanizing text..."))]
                          ++ column2_page (Some (answer_text r)) |}, w3)).
Proof.
  apply (click_shows_result click None 0%nat 0%nat 0%nat);
    [apply click_valid|done..].
Defined.

(** The session of the double after one click: the cleaned reply is kept
    and shown. *)
Example click_on_double :
  after click (None, 0%nat) = (Some (lit "Done."), 1%nat) ∧
  rerun_page click None 0%nat
  = top_page ++ column1_page click
    ++ [(Col1, st_spinner (lit "Humanizing text..."))]
    ++ column2_page (Some (lit "Done.")).
Proof. split; by vm_compute. Qed.

End witnesses.
