(* ===== verification/Session.v ===== *)
(** * Session: the contract of a run and the sessions of the page

    [App] models one run of the script; this file says what a run promises
    and follows the runs of a session.

    - [outcome] is what a run comes to for the user: the humanizer could
      not be built ([Broken]), nothing was asked ([Idle]), the button was
      pressed on a blank text ([Warned]), or a request was made and came
      back with an answer or an exception ([Answered]).
    - [run_spec] is the contract of a run, one rule per outcome, in terms of
      the answers of the remote library only; [kept_after] and [page_of]
      are what the session state and the page are after an outcome.
    - [after_all] is a sequence of runs (lines 212-213, once per interaction)
      that share the session state and the world of the remote library;
      [session_spec] is the contract of a session, and [session_calls] the
      calls of a session in their order.

    The library: the contracts are deterministic ([run_spec_det],
    [session_spec_det]); runs that ask nothing keep what the session holds
    ([after_all_idle]) and nothing kept is taken away
    ([after_all_is_Some]); recording
    is transparent for a run and for a session ([rerun_logged],
    [session_logged]); the reachable sessions of [App] are the sessions of
    valid inputs ([reachable_session]).

    The main results, at the end of the file: [rerun_refines],
    [session_refines], [session_calls_bounds], [invoke_follows_new] and
    [last_answer_kept]. *)

From Stdlib Require Import PrimFloat.
From stdpp Require Import strings sets relations.
From S2P Require Import Prelude PyStr Prompt Sanitize JsEscape Humanizer App.

(** ** The contract of a run *)

Section spec.
Context {W : Type} {E : PyExn} {R : Remote W}.
Implicit Types (i : inputs) (kept : option str) (w : W) (s : option str * W).

(** What a run comes to. *)
Inductive outcome : Type :=
  | Broken (e : exn)
  | Idle
  | Warned
  | Answered (r : result exn str).

(** The contract: the two constructor calls of lines 140-141 in their
    order, the guards of lines 153-154, the request of line 156. *)
Inductive run_spec i w : outcome → W → Prop :=
  | run_default_fails e w1 :
      groq_new default_client w = (Err e, w1) →
      run_spec i w (Broken e) w1
  | run_selected_fails e w1 w2 :
      groq_new default_client w = (Ok (), w1) →
      groq_new (selected_client i) w1 = (Err e, w2) →
      run_spec i w (Broken e) w2
  | run_idle w1 w2 :
      groq_new default_client w = (Ok (), w1) →
      groq_new (selected_client i) w1 = (Ok (), w2) →
      clicked i = false →
      run_spec i w Idle w2
  | run_warned w1 w2 :
      groq_new default_client w = (Ok (), w1) →
      groq_new (selected_client i) w1 = (Ok (), w2) →
      clicked i = true → strip (original_text i) = [] →
      run_spec i w Warned w2
  | run_answered w1 w2 r w3 :
      groq_new default_client w = (Ok (), w1) →
      groq_new (selected_client i) w1 = (Ok (), w2) →
      clicked i = true → strip (original_text i) ≠ [] →
      groq_invoke (selected_client i)
        [SystemMessage SYSTEM_PROMPT;
         HumanMessage (resolve (style i) ++ frame (original_text i))] w2
      = (r, w3) →
      run_spec i w (Answered r) w3.

(** What the session keeps after an outcome (line 157). *)
Definition kept_after kept (o : outcome) : option str :=
  match o with
  | Answered r => Some (answer_text r)
  | _ => kept
  end.

(** The page of an outcome. *)
Definition page_of i kept (o : outcome) : list (place * element) :=
  match o with
  | Broken e => error_page e
  | Idle => top_page ++ column1_page i ++ column2_page kept
  | Warned =>
      top_page ++ column1_page i
      ++ [(Col1, st_warning (lit "Please enter some text to humanize"))]
      ++ column2_page kept
  | Answered r =>
      top_page ++ column1_page i
      ++ [(Col1, st_spinner (lit "Humanizing text..."))]
      ++ column2_page (Some (answer_text r))
  end.

(** ** Sessions *)

(** The runs of a session, one per interaction, from a session state and a
    world. *)
Fixpoint after_all (ins : list inputs) s : option str * W :=
  match ins with
  | [] => s
  | i :: ins => after_all ins (after i s)
  end.

(** The contract of a session: the outcomes of its runs, each run from
    what the one before left. *)
Inductive session_spec : list inputs → option str * W → list outcome →
                         option str * W → Prop :=
  | session_nil s : session_spec [] s [] s
  | session_cons i ins kept w o w1 os s' :
      run_spec i w o w1 →
      session_spec ins (kept_after kept o, w1) os s' →
      session_spec (i :: ins) (kept, w) (o :: os) s'.

(** The calls of a session to the remote library, in their order. *)
Fixpoint session_calls (ins : list inputs) s : list Humanizer.call :=
  match ins with
  | [] => []
  | i :: ins => rerun_calls i s.1 s.2 ++ session_calls ins (after i s)
  end.

(** The clients a trace builds. *)
Definition built (tr : list Humanizer.call) : list ChatGroq :=
  omap (λ c, match c with
             | CallNew c => Some c
             | CallInvoke _ _ => None
             end) tr.

(** The requests of a session: its clicks on a text that is not blank. *)
Definition requests (ins : list inputs) : list inputs :=
  filter (λ i, asked i = true) ins.

End spec.

(** ** The contract, met *)

Section runs.
Context {W : Type} {E : PyExn} {R : Remote W}.
Implicit Types (i : inputs) (kept : option str) (w : W) (s : option str * W).
Implicit Types (o : outcome) (ins : list inputs).

Lemma run_spec_det i w o1 w1 o2 w2 :
  run_spec i w o1 w1 → run_spec i w o2 w2 → o1 = o2 ∧ w1 = w2.
Proof. intros H1 H2. destruct H1; destruct H2; split; congruence. Qed.

(** The guard of line 154 in the terms of the contract. *)
Lemma asked_iff i :
  asked i = true ↔ clicked i = true ∧ strip (original_text i) ≠ [].
Proof.
  unfold asked, truthy. by rewrite andb_true_iff, bool_decide_eq_true.
Qed.

Lemma not_asked_iff i :
  asked i = false ↔
  clicked i = false ∨ clicked i = true ∧ strip (original_text i) = [].
Proof.
  unfold asked, truthy. rewrite andb_false_iff, bool_decide_eq_false.
  destruct (clicked i); split; intros; destruct_or?; destruct_and?; auto;
    try done.
  right. split; [done|]. by apply dec_stable.
Qed.

(** A run with valid inputs has an outcome of the contract, and is as the
    outcome says. *)
Lemma rerun_outcome i kept w :
  valid i →
  ∃ o w', run_spec i w o w' ∧
    rerun i kept w = (Ok (), ({| humanized_text := kept_after kept o;
                                 page := page_of i kept o |}, w')).
Proof.
  intros Hi. rewrite rerun_valid by done. cbv zeta.
  destruct (groq_new default_client w) as [[[]|e] w1] eqn:Hnew1;
    [|exists (Broken e), w1; split; [by constructor|done]].
  destruct (groq_new (selected_client i) w1) as [[[]|e] w2] eqn:Hnew2;
    [|exists (Broken e), w2; split; [by econstructor|done]].
  unfold feedback. destruct (asked i) eqn:Hask.
  - apply asked_iff in Hask as Hask'. destruct Hask' as [Hclick Htext].
    apply andb_true_iff in Hask as [-> ->].
    destruct (groq_invoke _ _ w2) as [r w3] eqn:Hinv.
    exists (Answered r), w3. split; [by econstructor|].
    cbn [kept_after page_of]. by rewrite <-!(assoc_L (++)).
  - apply not_asked_iff in Hask as Hask'. destruct Hask' as [Hclick|[Hclick Htext]].
    + exists Idle, w2. split; [by econstructor|].
      cbn [kept_after page_of]. by rewrite Hclick, app_nil_r, <-!(assoc_L (++)).
    + exists Warned, w2. split; [by econstructor|].
      unfold asked in Hask. rewrite Hclick in Hask |- *. simpl in Hask.
      rewrite Hask. cbn [kept_after page_of]. by rewrite <-!(assoc_L (++)).
Qed.

(** What a run leaves, in the terms of the contract. *)
Lemma after_outcome i kept w o w' :
  valid i → run_spec i w o w' → after i (kept, w) = (kept_after kept o, w').
Proof.
  intros Hi Ho. destruct (rerun_outcome i kept w Hi) as (o2 & w2 & Ho2 & Hrun).
  destruct (run_spec_det _ _ _ _ _ _ Ho Ho2) as [-> ->].
  unfold after. simpl. by rewrite Hrun.
Qed.

Lemma after_all_app ins1 ins2 s :
  after_all (ins1 ++ ins2) s = after_all ins2 (after_all ins1 s).
Proof. revert s. induction ins1 as [|i ins1 IH]; intros s; simpl; auto. Qed.

Lemma session_steps ins s : Forall valid ins → rtc step s (after_all ins s).
Proof.
  intros His. revert s. induction His as [|i ins Hi _ IH]; intros s; [done|].
  simpl. eapply rtc_l; [by exists i|apply IH].
Qed.

(** The sessions a browser can reach are the sessions of valid inputs. *)
Lemma reachable_session w0 s :
  reachable w0 s ↔ ∃ ins, Forall valid ins ∧ s = after_all ins (None, w0).
Proof.
  split; [|intros (ins & His & ->); by apply session_steps].
  apply (rtc_ind_r (λ s, ∃ ins, Forall valid ins ∧ s = after_all ins (None, w0))).
  - by exists [].
  - intros s1 s2 _ (i & Hi & ->) (ins & His & ->). exists (ins ++ [i]).
    rewrite after_all_app. split; [|done]. by apply Forall_app, conj, Forall_singleton.
Qed.

(** The contract of a session is deterministic, as the one of a run. *)
Lemma session_spec_det ins s os1 s1 os2 s2 :
  session_spec ins s os1 s1 → session_spec ins s os2 s2 → os1 = os2 ∧ s1 = s2.
Proof.
  intros H1. revert os2 s2.
  induction H1 as [s|i ins kept w o w1 os s' Ho _ IH]; intros os2 s2 H2;
    inversion H2 as [|? ? ? ? o2 w2 os2' ? Ho2 Hrest]; simplify_eq; [done|].
  destruct (run_spec_det _ _ _ _ _ _ Ho Ho2) as [-> ->].
  by destruct (IH _ _ Hrest) as [-> ->].
Qed.

(** Runs that ask nothing keep what the session holds; and what a session
    holds is never taken away. *)
Lemma after_idle i s : valid i → asked i = false → (after i s).1 = s.1.
Proof.
  intros Hi Hask. destruct s as [kept w].
  destruct (rerun_outcome i kept w Hi) as (o & w' & Ho & Hrun).
  unfold after. cbn [fst snd]. rewrite Hrun. cbn [fst snd humanized_text].
  destruct Ho; try done.
  assert (asked i = true) by (by apply asked_iff). congruence.
Qed.

Lemma after_all_idle ins s :
  Forall (λ i, valid i ∧ asked i = false) ins → (after_all ins s).1 = s.1.
Proof.
  intros Hins. revert s. induction Hins as [|i ins [Hi Hask] _ IH]; intros s; [done|].
  simpl. by rewrite IH, after_idle.
Qed.

Lemma after_all_is_Some ins s :
  Forall valid ins → is_Some s.1 → is_Some (after_all ins s).1.
Proof.
  intros Hins. revert s. induction Hins as [|i ins Hi _ IH]; intros [kept w] Hs; [done|].
  simpl. apply IH. destruct (rerun_outcome i kept w Hi) as (o & w' & Ho & Hrun).
  unfold after. cbn [fst snd]. rewrite Hrun. cbn [fst snd humanized_text].
  by destruct o.
Qed.

End runs.

(** ** The calls of a session *)

Section calls.
Context {W : Type} {E : PyExn} {R : Remote W}.
Implicit Types (i : inputs) (kept : option str) (w : W) (s : option str * W).
Implicit Types (ins : list inputs) (log tr : list Humanizer.call).

(** The three traces of a run. *)
Lemma rerun_calls_cases i kept w :
  valid i →
  rerun_calls i kept w = [CallNew default_client] ∨
  rerun_calls i kept w = [CallNew default_client; CallNew (selected_client i)] ∨
  asked i = true ∧
  rerun_calls i kept w =
    [CallNew default_client; CallNew (selected_client i);
     CallInvoke (selected_client i) (request (original_text i) (style i))].
Proof.
  intros Hi. rewrite rerun_calls_valid by done.
  destruct (groq_new default_client w) as [[[]|e] w1]; [|by left].
  destruct (groq_new (selected_client i) w1) as [[[]|e] w2]; [|by auto].
  destruct (asked i); auto.
Qed.

(** Recording is transparent for a run: under [logged R] it has the
    outcome it has under [R], and the log grows at its end by the calls of
    the run. *)
Lemma rerun_logged i kept w log :
  valid i →
  rerun (R := logged R) i kept (w, log) =
    let out := rerun i kept w in
    (out.1, (out.2.1, (out.2.2, log ++ rerun_calls i kept w))).
Proof.
  intros Hi. rewrite rerun_calls_valid, !rerun_valid by done. cbv zeta.
  cbn [groq_new groq_invoke logged]. rewrite !record_run.
  destruct (groq_new default_client w) as [[[]|e] w1]; [|done]. cbn [fst snd].
  destruct (groq_new (selected_client i) w1) as [[[]|e] w2]; cbn [fst snd];
    [|by rewrite <-(assoc_L (++))].
  destruct (asked i); [|by rewrite <-!(assoc_L (++))].
  destruct (groq_invoke _ _ w2) as [r w3]. cbn [fst snd].
  by rewrite <-!(assoc_L (++)).
Qed.

Lemma after_logged i kept w log :
  valid i →
  after (R := logged R) i (kept, (w, log)) =
    ((after i (kept, w)).1, ((after i (kept, w)).2, log ++ rerun_calls i kept w)).
Proof. intros Hi. unfold after. simpl. by rewrite rerun_logged. Qed.

(** And for a session. *)
Lemma session_logged ins kept w log :
  Forall valid ins →
  after_all (R := logged R) ins (kept, (w, log)) =
    ((after_all ins (kept, w)).1,
     ((after_all ins (kept, w)).2, log ++ session_calls ins (kept, w))).
Proof.
  intros Hins. revert kept w log.
  induction Hins as [|i ins Hi _ IH]; intros kept w log; simpl.
  - by rewrite app_nil_r.
  - rewrite after_logged by done. destruct (after i (kept, w)) as [kept' w'].
    by rewrite IH, (assoc_L (++)).
Qed.

Lemma session_calls_app ins1 ins2 s :
  session_calls (ins1 ++ ins2) s
  = session_calls ins1 s ++ session_calls ins2 (after_all ins1 s).
Proof.
  revert s. induction ins1 as [|i ins1 IH]; intros s; simpl; [done|].
  by rewrite IH, (assoc_L (++)).
Qed.

(** An invocation in a trace that is a run followed by the rest is in the
    run or in the rest. *)
Lemma invoke_in_app (run rest pre post : list Humanizer.call) c msgs :
  run ++ rest = pre ++ CallInvoke c msgs :: post →
  (∃ post', run = pre ++ CallInvoke c msgs :: post') ∨
  (∃ pre', pre = run ++ pre' ∧ rest = pre' ++ CallInvoke c msgs :: post).
Proof.
  intros [l [[-> Heq]|[-> Heq]]]%app_eq_app; [|by eauto].
  destruct l as [|x l]; simplify_eq/=; [right; exists []|left; by eauto].
  by rewrite !app_nil_r.
Qed.

(** The invocation of a run follows the two constructor calls. *)
Lemma rerun_invoke i kept w pre post c msgs :
  valid i →
  rerun_calls i kept w = pre ++ CallInvoke c msgs :: post →
  asked i = true ∧ c = selected_client i ∧
  msgs = request (original_text i) (style i) ∧
  pre = [CallNew default_client; CallNew c].
Proof.
  intros Hi Heq.
  destruct (rerun_calls_cases i kept w Hi) as [Hrun|[Hrun|[Hask Hrun]]];
    rewrite Hrun in Heq; destruct pre as [|? [|? [|? pre]]]; simplify_eq/=; try done.
  by destruct pre.
Qed.

End calls.

(** ** Main results *)

Section results.
Context {W : Type} {E : PyExn} {R : Remote W}.
Implicit Types (i : inputs) (kept : option str) (w : W) (s : option str * W).
Implicit Types (ins : list inputs) (o : outcome).

(** C16: a run refines its contract.  With inputs the widgets can return,
    a run has exactly one outcome of [run_spec]: the humanizer could not be
    built, nothing was asked, a blank text was refused, or the request was
    made.  The run returns, keeps in the session state what the outcome
    says, shows the page of the outcome and leaves the world the contract
    names (lines 123-210). *)
Theorem rerun_refines i kept w :
  valid i →
  ∃ o w',
    run_spec i w o w' ∧
    rerun i kept w = (Ok (), ({| humanized_text := kept_after kept o;
                                 page := page_of i kept o |}, w')) ∧
    ∀ o2 w2, run_spec i w o2 w2 → o2 = o ∧ w2 = w'.
Proof.
  intros Hi. destruct (rerun_outcome i kept w Hi) as (o & w' & Ho & Hrun).
  exists o, w'. split_and!; [done..|]. intros o2 w2 Ho2. by eapply run_spec_det.
Qed.

(** A session refines its contract: the runs of valid inputs have the
    outcomes of [session_spec], one per run, and end where it ends; the
    contract allows no other outcomes and no other end. *)
Theorem session_refines ins s :
  Forall valid ins →
  ∃ os, session_spec ins s os (after_all ins s) ∧
    ∀ os2 s2, session_spec ins s os2 s2 → os2 = os ∧ s2 = after_all ins s.
Proof.
  intros Hins.
  assert (∃ os, session_spec ins s os (after_all ins s)) as [os Hos].
  { revert s. induction Hins as [|i ins Hi _ IH]; intros [kept w].
    - exists []. constructor.
    - destruct (rerun_outcome i kept w Hi) as (o & w' & Ho & _).
      destruct (IH (kept_after kept o, w')) as [os Hos]. exists (o :: os).
      econstructor; [done|]. simpl. by rewrite (after_outcome _ _ _ o w'). }
  exists os. split; [done|]. intros os2 s2 Hos2. by eapply session_spec_det.
Qed.

(** C18: the calls of a session are bounded by its interactions.  Every
    run builds one client or two, so a session of [n] runs makes between
    [n] and [2 n] constructor calls; and it sends at most one request for
    each click on a text that is not blank, none otherwise. *)
Theorem session_calls_bounds ins s :
  Forall valid ins →
  let tr := session_calls ins s in
  (length ins ≤ length (built tr) ≤ 2 * length ins)%nat ∧
  (length (invoked_at tr) ≤ length (requests ins))%nat.
Proof.
  intros Hins. revert s. cbv zeta. unfold built, invoked_at, requests.
  induction Hins as [|i ins Hi _ IH]; intros s; simpl; [lia|].
  specialize (IH (after i s)). rewrite !omap_app, !length_app, filter_cons.
  destruct (rerun_calls_cases i s.1 s.2 Hi) as [->|[->|[Hask ->]]];
    case_decide; simpl; try congruence; lia.
Qed.

(** C17: in a session, a request is sent by the client its run has just
    built.  Every invocation in the trace of a session follows the
    constructor call of the very client it invokes, which follows the
    constructor call of [__init__]; the client has the model and the
    temperature selected in a run that asked, and the request carries the
    text and the style of that run.  The client of an earlier run is never
    used again. *)
Theorem invoke_follows_new ins s pre c msgs post :
  Forall valid ins →
  session_calls ins s = pre ++ CallInvoke c msgs :: post →
  ∃ i pre', i ∈ ins ∧ asked i = true ∧ c = selected_client i ∧
    msgs = [SystemMessage SYSTEM_PROMPT;
            HumanMessage (resolve (style i) ++ frame (original_text i))] ∧
    pre = pre' ++ [CallNew default_client; CallNew c].
Proof.
  intros Hins. revert s pre.
  induction Hins as [|i ins Hi _ IH]; intros s pre Heq; simpl in Heq.
  { by destruct pre. }
  apply invoke_in_app in Heq as [[post' Hrun]|(pre' & -> & Hrest)].
  - apply rerun_invoke in Hrun as (Hask & -> & -> & ->); [|done].
    exists i, []. split_and!; [by left|done..].
  - destruct (IH _ _ Hrest) as (i' & pre2 & Hin & Hask & -> & -> & ->).
    exists i', (rerun_calls i s.1 s.2 ++ pre2).
    split_and!; [by right|done..|by rewrite (assoc_L (++))].
Qed.

(** The answer to a request stays until the next request: after a run
    that asked and was answered, runs that ask nothing leave the answer in
    the session state, whatever else they do. *)
Theorem last_answer_kept ins1 i ins2 s w1 w2 r w3 :
  valid i → asked i = true →
  groq_new default_client (after_all ins1 s).2 = (Ok (), w1) →
  groq_new (selected_client i) w1 = (Ok (), w2) →
  groq_invoke (selected_client i)
    [SystemMessage SYSTEM_PROMPT;
     HumanMessage (resolve (style i) ++ frame (original_text i))] w2 = (r, w3) →
  Forall (λ j, valid j ∧ asked j = false) ins2 →
  (after_all (ins1 ++ i :: ins2) s).1 = Some (answer_text r).
Proof.
  intros Hi [Hclick Htext]%asked_iff Hnew1 Hnew2 Hinv Hins2.
  rewrite after_all_app. simpl. rewrite after_all_idle by done.
  destruct (after_all ins1 s) as [kept w].
  by rewrite (after_outcome i kept w (Answered r) w3 Hi) by by econstructor.
Qed.

End results.

(** ** The results at the test double *)

Section witnesses.
Import double.
#[local] Existing Instance remote.

Lemma rerun_refines_witness :
  ∃ o w',
    run_spec session.click 0%nat o w' ∧
    rerun session.click None 0%nat
    = (Ok (), ({| humanized_text := kept_after None o;
                  page := page_of session.click None o |}, w')) ∧
    ∀ o2 w2, run_spec session.click 0%nat o2 w2 → o2 = o ∧ w2 = w'.
Proof. apply rerun_refines, session.click_valid. Defined.

Lemma session_calls_bounds_witness :
  let tr := session_calls [session.blank_click; session.click] (None, 0%nat) in
  (2 ≤ length (built tr) ≤ 4)%nat ∧ (length (invoked_at tr) ≤ 1)%nat.
Proof.
  apply (session_calls_bounds [session.blank_click; session.click]).
  repeat constructor; auto using session.click_valid, session.blank_click_valid.
Defined.

Lemma invoke_follows_new_witness :
  ∃ i pre', i ∈ [session.blank_click; session.click] ∧ asked i = true ∧
    selected_client session.click = selected_client i ∧
    request (original_text session.click) (style session.click)
    = [SystemMessage SYSTEM_PROMPT;
       HumanMessage (resolve (style i) ++ frame (original_text i))] ∧
    [CallNew default_client; CallNew (selected_client session.blank_click);
     CallNew default_client; CallNew (selected_client session.click)]
    = pre' ++ [CallNew default_client; CallNew (selected_client session.click)].
Proof.
  apply (invoke_follows_new [session.blank_click; session.click] (None, 0%nat)
           _ _ _ []).
  - repeat constructor; auto using session.click_valid, session.blank_click_valid.
  - by vm_compute.
Defined.

(** A session on the double: a blank click, then a click.  Four clients
    are built for one request, and the answer is kept. *)
Example session_on_double :
  let ins := [session.blank_click; session.click] in
  after_all ins (None, 0%nat) = (Some (lit "Done."), 1%nat) ∧
  length (built (session_calls ins (None, 0%nat))) = 4%nat ∧
  invoked_at (session_calls ins (None, 0%nat)) = [temperature session.click] ∧
  (after_all (R := logged remote) ins (None, (0%nat, []))).2.2
  = session_calls ins (None, 0%nat).
Proof. by vm_compute. Qed.

End witnesses.
