(* ===== verification/CopyButton.v ===== *)
(** * CopyButton: from the answer of the model to the clipboard

    The parts of the program meet here.  The answer of the remote model is
    cleaned ([Sanitize]) and kept by [main] ([App]), written into the copy
    script by the chain of line 193 ([JsEscape]), and handed to the browser,
    whose HTML parser finds the script element ([Html]) and whose
    JavaScript engine reads the literal in it ([JsEscape]).

    - [copied] is what a press of the button writes to the clipboard: the
      value of the literal of line 193 in the script element of the
      document, provided the literal ends where the program ends it, so
      that the rest of the script is the program's own.

    The main results: on the page of a run the button copies the text the
    result area shows exactly when that text holds no backslash, for a text
    without NUL in which no [<] stands before [/] or [!]
    ([copy_button_exact]); an answer of the model that holds an end tag of
    a script element takes the button out of service and puts what follows
    the tag on the page as markup ([answer_injects]).  [hostile] is a
    remote library whose model gives such an answer. *)

From stdpp Require Import strings sets.
From S2P Require Import Prelude PyStr Prompt Sanitize JsEscape Html Humanizer App.

#[local] Open Scope N_scope.

(** What the button copies (lines 190-194): the script element of the
    document, and in it the literal behind [const text = `]. *)
Definition copied (html : str) : option str :=
  match script_of html with
  | Some (Element script _ _) =>
      match js_template (drop (length js_head) script) with
      | Closed text rest => if decide (rest = drop 1 js_tail) then Some text else None
      | _ => None
      end
  | _ => None
  end.

(** A remote library whose model answers with markup of its own. *)
Module hostile.
Import double.

Definition reply : str :=
  lit "<think>plan</think>Sure.</script><img src=x onerror=alert(1)>".

Definition remote : Remote nat := {|
  groq_new c := λ n, (Ok (), n);
  groq_invoke c msgs := λ n, (Ok reply, S n);
|}.

End hostile.

(** ** The button on a document *)

Section document.
Implicit Types (t text pre post name : str) (d : N).

(** On a document with its script element as written, the button copies
    the value of the literal. *)
Lemma copied_plain t :
  tag_free t = true → 0 ∉ t →
  copied (copy_html t) =
    match js_template (js_escape t ++ js_tail) with
    | Closed text rest => if decide (rest = drop 1 js_tail) then Some text else None
    | _ => None
    end.
Proof.
  intros Ht Hnul. unfold copied. rewrite script_of_plain by done.
  by rewrite drop_app_length.
Qed.

(** The value of the literal is the text exactly when the text holds no
    backslash. *)
Lemma copied_exact_iff t :
  tag_free t = true → 0 ∉ t → copied (copy_html t) = Some t ↔ 92 ∉ t.
Proof.
  intros Ht Hnul. rewrite copied_plain by done. split.
  - intros Hread Hin. revert Hread. rewrite js_escape_esc.
    destruct (js_template _) as [k rest| | |] eqn:Hjs; [|done..].
    case_decide as Hrest; [subst rest|done]. intros [= ->].
    by eapply (read_back_neq (drop 1 js_tail) t t).
  - intros Hin. rewrite js_template_script by done. by rewrite decide_True.
Qed.

(** On a document cut by an end tag in the text, the button copies
    nothing. *)
Lemma copied_cut pre name d post :
  tag_free pre = true → 0 ∉ pre → 92 ∉ pre →
  to_lower <$> name = lit "script" → d ∈ [9; 12; 32; 47; 62] →
  copied (copy_html (pre ++ lit "</" ++ name ++ d :: post)) = None.
Proof.
  intros Ht Hnul Hb Hname Hd. unfold copied. rewrite script_of_end_tag by done.
  by rewrite drop_app_length, js_template_cut.
Qed.

End document.

(** ** Main results *)

Section results.
Context {W : Type} {E : PyExn} {R : Remote W}.
Implicit Types (i : inputs) (kept : option str) (w : W) (text pre post name : str).

(** C28: the button copies what the page shows.  A script on the page of a
    run is the copy script of the text kept at the end of the run, which is
    the text in the result area; for such a text without NUL, in which no
    [<] stands before [/] or [!], a press of the button writes exactly that
    text to the clipboard if and only if the text holds no backslash. *)
Theorem copy_button_exact i kept w h n :
  (Col2, st_html h n) ∈ rerun_page i kept w →
  ∃ text,
    humanized_text (rerun i kept w).2.1 = Some text ∧
    (Col2, st_text_area (lit "Humanized Result:") (Some text) 300
             (Some (lit "humanized_output"))) ∈ rerun_page i kept w ∧
    (tag_free text = true → 0 ∉ text → copied h = Some text ↔ 92 ∉ text).
Proof.
  intros (text & Hkept & -> & Harea)%script_on_page. exists text.
  split_and!; [done..|apply copied_exact_iff].
Qed.

(** C30: an answer of the model reaches the document of the copy button as
    markup.  After a click that is answered, if the cleaned answer holds an
    end tag of a script element, the script element of the copy script on
    the page ends at that tag, what follows the tag in the answer stands
    behind the element as markup, and the button copies nothing. *)
Theorem answer_injects i kept w w1 w2 w3 content pre name d post :
  valid i → asked i = true →
  groq_new default_client w = (Ok (), w1) →
  groq_new (selected_client i) w1 = (Ok (), w2) →
  groq_invoke (selected_client i) (request (original_text i) (style i)) w2
    = (Ok content, w3) →
  clean_response content = pre ++ lit "</" ++ name ++ d :: post →
  tag_free pre = true → 0 ∉ pre →
  to_lower <$> name = lit "script" → d ∈ [9; 12; 32; 47; 62] →
  ∃ h, (Col2, st_html h 50) ∈ rerun_page i kept w ∧
       script_of h
       = Some (Element (js_head ++ js_escape pre) d (js_escape post ++ copy_html_suffix)) ∧
       (92 ∉ pre → copied h = None).
Proof.
  intros Hi Hask Hnew1 Hnew2 Hinv Hclean Hpre Hnul Hname Hd.
  exists (copy_html (clean_response content)). split.
  - unfold rerun_page. rewrite rerun_valid, Hnew1, Hnew2 by done. cbv zeta.
    rewrite Hask, Hinv. cbn [snd fst page answer_text column2_page].
    rewrite !elem_of_app. do 3 right. set_solver.
  - rewrite Hclean. split; [by apply script_of_end_tag|]. intros Hb. by apply copied_cut.
Qed.

End results.

(** ** Witnesses *)

Section witnesses.
Import double session.

Lemma copy_button_exact_witness :
  ∃ text,
    humanized_text (rerun (R := double.remote) click None 0%nat).2.1 = Some text ∧
    (Col2, st_text_area (lit "Humanized Result:") (Some text) 300
             (Some (lit "humanized_output")))
      ∈ rerun_page (R := double.remote) click None 0%nat ∧
    (tag_free text = true → 0 ∉ text → copied (copy_html (lit "Done.")) = Some text ↔ 92 ∉ text).
Proof.
  apply (copy_button_exact (R := double.remote) click None 0%nat (copy_html (lit "Done.")) 50).
  rewrite (proj2 click_on_double). unfold column2_page. set_solver.
Defined.

Lemma answer_injects_witness :
  ∃ h, (Col2, st_html h 50) ∈ rerun_page (R := hostile.remote) click None 0%nat ∧
       script_of h
       = Some (Element (js_head ++ js_escape (lit "Sure.")) 62
                 (js_escape (lit "<img src=x onerror=alert(1)>") ++ copy_html_suffix)) ∧
       (92 ∉ lit "Sure." → copied h = None).
Proof.
  apply (answer_injects (R := hostile.remote) click None 0%nat 0%nat 0%nat 1%nat
           hostile.reply (lit "Sure.") (lit "script") 62
           (lit "<img src=x onerror=alert(1)>"));
    [apply click_valid|done..|by vm_compute|done|compute_done|done|compute_done].
Defined.

(** The session with the hostile model, computed: the script element ends
    in the answer and the button copies nothing. *)
Example hostile_session :
  (after (R := hostile.remote) click (None, 0%nat)).1
  = Some (lit "Sure.</script><img src=x onerror=alert(1)>") ∧
  copied (copy_html (lit "Sure.</script><img src=x onerror=alert(1)>")) = None.
Proof. split; by vm_compute. Qed.

End witnesses.
